(** * hogwarts: the request router of [server.mjs] and the helpers of [utils.mjs]

    A shallow embedding of the routing core of the student-records service:
    the route table and its pattern compilation, the request dispatcher
    [handleRequest] with its trailing-slash redirect and static-file branch,
    and the helpers [parseFormData], [redirect] and [json]; then of the
    route handlers, over a database driver and a template engine taken as
    they are used, and of the [select] helper of the templates.

    The repository's code sits on top of Node.js built-ins ([String]
    methods, [node:path], [node:url], [RegExp], [URLSearchParams],
    [FormData], [node:fs/promises], [http.ServerResponse]).  Those are
    modelled below, each in a module of its own, to the extent the
    repository's code relies on them. *)

From Stdlib Require Import List NArith ZArith Bool Ascii String Lia Arith.
Import ListNotations.

(** ** JavaScript strings *)

(** A string is a sequence of character codes: the code units of a request
    target, the code points of a text decoded from UTF-8.  The code only
    compares, cuts and joins strings, so a list of numbers is all we need. *)
Module JS.

Definition jsstring := list N.

Definition ch (a : ascii) : N := N_of_ascii a.

(** [js "..."] is the JavaScript string literal with the same (ASCII) text. *)
Definition js (s : string) : jsstring := map ch (list_ascii_of_string s).

Fixpoint eqb (a b : jsstring) : bool :=
  match a, b with
  | [], [] => true
  | x :: a', y :: b' => N.eqb x y && eqb a' b'
  | _, _ => false
  end.

(** [s.startsWith(p)] *)
Fixpoint startsWith (s p : jsstring) {struct p} : bool :=
  match p, s with
  | [], _ => true
  | c :: p', x :: s' => N.eqb x c && startsWith s' p'
  | _ :: _, [] => false
  end.

(** [s.endsWith(p)] *)
Definition endsWith (s p : jsstring) : bool := startsWith (rev s) (rev p).

(** [s.slice(0, -1)]: everything but the last code unit. *)
Definition slice_0_m1 (s : jsstring) : jsstring := removelast s.

(** [s.slice(n)] for a non-negative [n]. *)
Definition slice_from (n : nat) (s : jsstring) : jsstring := skipn n s.

(** [s.replace(pat, repl)] with a string pattern: the first occurrence of
    [pat] is replaced.  The replacement text is inserted as it is, which is
    what JavaScript does when it holds no dollar sign; the only call in the
    repository passes the empty string. *)
Fixpoint replace_str (pat repl s : jsstring) : jsstring :=
  if startsWith s pat then repl ++ skipn (List.length pat) s
  else match s with
       | [] => []
       | c :: s' => c :: replace_str pat repl s'
       end.

(** [s.toLowerCase()] on the ASCII letters.  The other code units a request
    line can carry (Latin-1) never lower-case to an ASCII letter, so the
    table lookups below are not affected by leaving them alone. *)
Definition lower (c : N) : N :=
  if (65 <=? c)%N && (c <=? 90)%N then (c + 32)%N else c.

Definition toLowerCase (s : jsstring) : jsstring := map lower s.

(** [s.split(sep)] for a one-character separator: never the empty list. *)
Fixpoint split (sep : N) (s : jsstring) : list jsstring :=
  match s with
  | [] => [[]]
  | c :: s' =>
      if N.eqb c sep then [] :: split sep s'
      else match split sep s' with
           | [] => [[c]]
           | seg :: segs => (c :: seg) :: segs
           end
  end.

(** [parts.join(sep)] *)
Fixpoint join (sep : jsstring) (parts : list jsstring) : jsstring :=
  match parts with
  | [] => []
  | [p] => p
  | p :: ps => p ++ sep ++ join sep ps
  end.

(** Lookup in an association list keyed by strings: first entry wins. *)
Fixpoint assoc {A} (k : jsstring) (l : list (jsstring * A)) : option A :=
  match l with
  | [] => None
  | (k', v) :: l' => if eqb k' k then Some v else assoc k l'
  end.

(** [arr.includes(x)] on an array of strings. *)
Definition includes (arr : list jsstring) (x : jsstring) : bool :=
  existsb (eqb x) arr.

End JS.
Import JS.

(** ** [node:path] (POSIX flavour) *)

Module Path.

Definition slash : N := ch "/".
Definition dot : jsstring := js ".".
Definition dotdot : jsstring := js "..".

(** One step of [normalizeString]: the segments kept so far are held most
    recent first.  Empty segments and [.] vanish, [..] removes the segment
    before it, unless there is none or it is itself a [..]; above the root
    of an absolute path a [..] is dropped. *)
Definition normalize_step (allowAboveRoot : bool)
           (res : list jsstring) (seg : jsstring) : list jsstring :=
  if eqb seg [] || eqb seg dot then res
  else if eqb seg dotdot then
    match res with
    | last :: res' =>
        if eqb last dotdot
        then (if allowAboveRoot then dotdot :: res else res)
        else res'
    | [] => if allowAboveRoot then [dotdot] else []
    end
  else seg :: res.

Definition normalizeString (p : jsstring) (allowAboveRoot : bool) : jsstring :=
  JS.join [slash]
    (rev (fold_left (normalize_step allowAboveRoot) (split slash p) [])).

(** [path.normalize(p)] *)
Definition normalize (p : jsstring) : jsstring :=
  match p with
  | [] => dot
  | _ =>
      let isAbsolute := startsWith p [slash] in
      let trailingSeparator := endsWith p [slash] in
      let q := normalizeString p (negb isAbsolute) in
      match q with
      | [] => if isAbsolute then [slash]
              else if trailingSeparator then js "./" else dot
      | _ =>
          let q' := if trailingSeparator then q ++ [slash] else q in
          if isAbsolute then slash :: q' else q'
      end
  end.

(** [path.join(...args)]: the non-empty arguments are glued with [/] and
    the result is normalised. *)
Definition join (args : list jsstring) : jsstring :=
  match filter (fun a => negb (eqb a [])) args with
  | [] => dot
  | parts => normalize (JS.join [slash] parts)
  end.

(** The last segment of a path without trailing separator. *)
Definition basename (p : jsstring) : jsstring := last (split slash p) [].

(** The part of [s] from its last dot on, when it has a dot. *)
Fixpoint from_last_dot (s : jsstring) : option jsstring :=
  match s with
  | [] => None
  | c :: s' =>
      match from_last_dot s' with
      | Some e => Some e
      | None => if N.eqb c (ch ".") then Some s else None
      end
  end.

(** [path.extname(p)]: from the last dot of the last segment to its end;
    empty when there is no dot, when the only dot opens the segment, and
    for the segment [..]. *)
Definition extname (p : jsstring) : jsstring :=
  let b := basename p in
  match b with
  | [] => []
  | c :: b' =>
      if eqb b dotdot then []
      else match from_last_dot b' with
           | Some e => e
           | None => []
           end
  end.

End Path.

(** ** [RegExp]: patterns, their syntax and the backtracking matcher *)

(** The route compiler builds its patterns from text at start-up, so the
    model needs the pattern syntax as well as the matcher.  The syntax covered
    is the one route templates can reach in practice: literals, [.], classes,
    the greedy quantifiers, groups (plain, named, non-capturing), alternation
    and the two anchors, without flags.  Anything else is answered with
    [Unsupported], never with a guess. *)
Module RegExp.

Inductive class_item :=
| CChar (c : N)
| CRange (lo hi : N)
| CWord | CDigit | CSpace
| CNotWord | CNotDigit | CNotSpace.

Inductive regex :=
| Empty
| Char (c : N)
| Any
| Class (neg : bool) (items : list class_item)
| Bol
| Eol
| Seq (r1 r2 : regex)
| Alt (r1 r2 : regex)
| Star (r : regex)
| Plus (r : regex)
| Opt (r : regex)
| Group (idx : nat) (name : option jsstring) (r : regex).

(** *** Character tests *)

Definition between (lo hi c : N) : bool := ((lo <=? c) && (c <=? hi))%N.

Definition is_digit (c : N) : bool := between 48 57 c.

(** [\w]: the ASCII letters, the digits and the underscore. *)
Definition is_word (c : N) : bool :=
  between 97 122 c || between 65 90 c || is_digit c || N.eqb c 95.

Definition is_line_terminator (c : N) : bool :=
  N.eqb c 10 || N.eqb c 13 || N.eqb c 8232 || N.eqb c 8233.

(** [\s]: white space and line terminators. *)
Definition is_space (c : N) : bool :=
  between 9 13 c || N.eqb c 32 || N.eqb c 160 || N.eqb c 5760
  || between 8192 8202 c || N.eqb c 8232 || N.eqb c 8233
  || N.eqb c 8239 || N.eqb c 8287 || N.eqb c 12288 || N.eqb c 65279.

Definition item_matches (it : class_item) (c : N) : bool :=
  match it with
  | CChar x => N.eqb c x
  | CRange lo hi => between lo hi c
  | CWord => is_word c
  | CDigit => is_digit c
  | CSpace => is_space c
  | CNotWord => negb (is_word c)
  | CNotDigit => negb (is_digit c)
  | CNotSpace => negb (is_space c)
  end.

Definition class_matches (neg : bool) (items : list class_item) (c : N) : bool :=
  xorb neg (existsb (fun it => item_matches it c) items).

(** The characters with a meaning of their own in a pattern. *)
Definition syntax_chars : jsstring := js "^$\.*+?()[]{}|".

Definition is_syntax_char (c : N) : bool := existsb (N.eqb c) syntax_chars.

(** *** The matcher *)

(** A matcher walks the rest of the input; [at_start] tells whether it still
    stands at index 0, and [caps] holds the text of the groups closed so
    far. *)
Record mstate := MState {
  rest : jsstring;
  at_start : bool;
  caps : list (nat * jsstring)
}.

Definition cont := mstate -> option mstate.

Fixpoint groups_in (r : regex) : list (nat * option jsstring) :=
  match r with
  | Seq r1 r2 | Alt r1 r2 => groups_in r1 ++ groups_in r2
  | Star r1 | Plus r1 | Opt r1 => groups_in r1
  | Group i n r1 => (i, n) :: groups_in r1
  | _ => []
  end.

Definition clear_caps (r : regex) (st : mstate) : mstate :=
  MState (rest st) (at_start st)
    (filter (fun p => negb (existsb (fun g => Nat.eqb (fst g) (fst p)) (groups_in r)))
            (caps st)).

Definition set_cap (i : nat) (v : jsstring) (st : mstate) : mstate :=
  MState (rest st) (at_start st)
    ((i, v) :: filter (fun p => negb (Nat.eqb (fst p) i)) (caps st)).

(** The text consumed between two states of one run. *)
Definition consumed (st0 st1 : mstate) : jsstring :=
  firstn (List.length (rest st0) - List.length (rest st1)) (rest st0).

Definition progress (st0 st1 : mstate) : bool :=
  List.length (rest st1) <? List.length (rest st0).

Definition step_char (ok : N -> bool) (k : cont) (st : mstate) : option mstate :=
  match rest st with
  | c :: s' => if ok c then k (MState s' false (caps st)) else None
  | [] => None
  end.

Definition orelse (a : option mstate) (b : option mstate) : option mstate :=
  match a with Some x => Some x | None => b end.

(** The greedy loop of [r*]: one more round of [r] first, with the groups of
    [r] cleared, and the continuation when that fails.  A round that
    consumes nothing is refused, so a round shortens the input and
    [fuel] never runs out before the input does. *)
Fixpoint star_loop (round : cont -> cont) (clr : mstate -> mstate) (k : cont)
         (fuel : nat) (st : mstate) : option mstate :=
  match fuel with
  | O => k st
  | S fuel' =>
      orelse
        (round (fun st' => if progress st st'
                           then star_loop round clr k fuel' st' else None)
               (clr st))
        (k st)
  end.

Fixpoint m (r : regex) (k : cont) (st : mstate) {struct r} : option mstate :=
  match r with
  | Empty => k st
  | Char c => step_char (N.eqb c) k st
  | Any => step_char (fun x => negb (is_line_terminator x)) k st
  | Class neg items => step_char (class_matches neg items) k st
  | Bol => if at_start st then k st else None
  | Eol => match rest st with [] => k st | _ :: _ => None end
  | Seq r1 r2 => m r1 (m r2 k) st
  | Alt r1 r2 => orelse (m r1 k st) (m r2 k st)
  | Star r1 =>
      star_loop (m r1) (clear_caps r1) k (S (List.length (rest st))) st
  | Plus r1 =>
      m r1 (fun st' => star_loop (m r1) (clear_caps r1) k
                                 (S (List.length (rest st'))) st')
        (clear_caps r1 st)
  | Opt r1 =>
      orelse (m r1 (fun st' => if progress st st' then k st' else None)
                (clear_caps r1 st))
             (k st)
  | Group i _ r1 => m r1 (fun st' => k (set_cap i (consumed st st') st')) st
  end.

(** The result of a successful [exec]: where the match starts, its text,
    the numbered captures and the [groups] object (a name is bound to
    [None] when its group took no part in the match). *)
Record match_result := MatchResult {
  index : nat;
  matched : jsstring;
  captures : list (nat * jsstring);
  groups : list (jsstring * option jsstring)
}.

Fixpoint cap_lookup (i : nat) (l : list (nat * jsstring)) : option jsstring :=
  match l with
  | [] => None
  | (j, v) :: l' => if Nat.eqb j i then Some v else cap_lookup i l'
  end.

Fixpoint named_groups (gs : list (nat * option jsstring)) (cs : list (nat * jsstring))
  : list (jsstring * option jsstring) :=
  match gs with
  | [] => []
  | (i, Some n) :: gs' => (n, cap_lookup i cs) :: named_groups gs' cs
  | (_, None) :: gs' => named_groups gs' cs
  end.

(** [re.exec(s)] without flags: the leftmost start index at which the
    pattern matches. *)
Fixpoint exec_from (r : regex) (s : jsstring) (i : nat) (start : bool)
  : option match_result :=
  match m r Some (MState s start []) with
  | Some st' =>
      Some (MatchResult i (firstn (List.length s - List.length (rest st')) s)
              (caps st') (named_groups (groups_in r) (caps st')))
  | None =>
      match s with
      | [] => None
      | _ :: s' => exec_from r s' (S i) false
      end
  end.

Definition exec (r : regex) (s : jsstring) : option match_result :=
  exec_from r s 0 true.

(** *** The pattern syntax *)

Inductive parse_result :=
| Compiled (r : regex)
| SyntaxError
| Unsupported.

Inductive group_kind :=
| GTop
| GNonCapture
| GCapture (idx : nat) (name : option jsstring).

(** A group being read: the alternatives already closed (latest first) and
    the terms of the current one (latest first), each with the mark that
    tells whether a quantifier may follow it. *)
Record frame := Frame {
  f_kind : group_kind;
  f_alts : list regex;
  f_seq : list (regex * bool)
}.

Inductive mode :=
| MNormal
| MGroupName (acc : jsstring)
| MClass (neg : bool) (items : list class_item).

Record pstate := PState {
  p_mode : mode;
  p_cur : frame;
  p_stack : list frame;
  p_next : nat;
  p_alt : bool
}.

Definition seq_of (items : list (regex * bool)) : regex :=
  fold_left (fun acc it => Seq (fst it) acc) items Empty.

Definition frame_regex (f : frame) : regex :=
  fold_left (fun acc a => Alt a acc) (f_alts f) (seq_of (f_seq f)).

Definition set_mode (md : mode) (st : pstate) : pstate :=
  PState md (p_cur st) (p_stack st) (p_next st) (p_alt st).

Definition add_item (it : regex * bool) (st : pstate) : pstate :=
  let f := p_cur st in
  PState MNormal (Frame (f_kind f) (f_alts f) (it :: f_seq f))
         (p_stack st) (p_next st) (p_alt st).

Definition push (kind : group_kind) (next : nat) (st : pstate) : pstate :=
  PState MNormal (Frame kind [] []) (p_cur st :: p_stack st) next (p_alt st).

Definition pop (st : pstate) : option pstate :=
  match p_stack st with
  | [] => None
  | parent :: stack' =>
      let inner := frame_regex (p_cur st) in
      let item :=
        match f_kind (p_cur st) with
        | GCapture i n => Group i n inner
        | _ => inner
        end in
      Some (PState MNormal
              (Frame (f_kind parent) (f_alts parent) ((item, true) :: f_seq parent))
              stack' (p_next st) (p_alt st))
  end.

Definition close_alt (st : pstate) : pstate :=
  let f := p_cur st in
  PState MNormal (Frame (f_kind f) (seq_of (f_seq f) :: f_alts f) [])
         (p_stack st) (p_next st) true.

Definition quantify (q : regex -> regex) (st : pstate) : option pstate :=
  let f := p_cur st in
  match f_seq f with
  | (r, true) :: items =>
      Some (PState MNormal (Frame (f_kind f) (f_alts f) ((q r, false) :: items))
              (p_stack st) (p_next st) (p_alt st))
  | _ => None
  end.

Inductive escape :=
| EChar (c : N)
| EItem (it : class_item)
| EUnsupported.

(** What follows a backslash, outside ([in_class = false]) or inside a
    class. *)
Definition escape_of (in_class : bool) (e : N) : escape :=
  if N.eqb e (ch "d") then EItem CDigit
  else if N.eqb e (ch "D") then EItem CNotDigit
  else if N.eqb e (ch "w") then EItem CWord
  else if N.eqb e (ch "W") then EItem CNotWord
  else if N.eqb e (ch "s") then EItem CSpace
  else if N.eqb e (ch "S") then EItem CNotSpace
  else if N.eqb e (ch "n") then EChar 10
  else if N.eqb e (ch "r") then EChar 13
  else if N.eqb e (ch "t") then EChar 9
  else if N.eqb e (ch "v") then EChar 11
  else if N.eqb e (ch "f") then EChar 12
  else if N.eqb e (ch "b") then (if in_class then EChar 8 else EUnsupported)
  else if is_word e then EUnsupported
  else if (e <? 128)%N then EChar e
  else EUnsupported.

Definition is_id_start (c : N) : bool :=
  between 97 122 c || between 65 90 c || N.eqb c 95 || N.eqb c 36.

Definition is_id_part (c : N) : bool := is_id_start c || is_digit c.

Inductive name_check := NameOk | NameBad | NameUnsupported.

(** A group name is an identifier.  Names with characters outside ASCII or
    with escapes are left to the engine. *)
Definition check_group_name (n : jsstring) : name_check :=
  if existsb (fun c => (128 <=? c)%N || N.eqb c (ch "\")) n then NameUnsupported
  else match n with
       | [] => NameBad
       | c :: n' => if is_id_start c && forallb is_id_part n' then NameOk else NameBad
       end.

Fixpoint has_dup (l : list jsstring) : bool :=
  match l with
  | [] => false
  | x :: l' => existsb (JS.eqb x) l' || has_dup l'
  end.

Fixpoint group_names (gs : list (nat * option jsstring)) : list jsstring :=
  match gs with
  | [] => []
  | (_, Some n) :: gs' => n :: group_names gs'
  | (_, None) :: gs' => group_names gs'
  end.

(** End of the pattern text.  Two groups of one name are an error when the
    pattern has no alternation; with one, engines differ by version. *)
Definition finish (st : pstate) : parse_result :=
  match p_mode st, p_stack st with
  | MNormal, [] =>
      let r := frame_regex (p_cur st) in
      if has_dup (group_names (groups_in r))
      then (if p_alt st then Unsupported else SyntaxError)
      else Compiled r
  | _, _ => SyntaxError
  end.

Definition quantifier_of (c : N) : option (regex -> regex) :=
  if N.eqb c (ch "*") then Some Star
  else if N.eqb c (ch "+") then Some Plus
  else if N.eqb c (ch "?") then Some Opt
  else None.

Fixpoint parse (s : jsstring) (st : pstate) {struct s} : parse_result :=
  match p_mode st with
  | MNormal =>
      match s with
      | [] => finish st
      | c :: s1 =>
          if N.eqb c (ch "(") then
            match s1 with
            | q :: s2 =>
                if N.eqb q (ch "?") then
                  match s2 with
                  | x :: s3 =>
                      if N.eqb x (ch ":") then parse s3 (push GNonCapture (p_next st) st)
                      else if N.eqb x (ch "<") then
                        match s3 with
                        | y :: _ =>
                            if N.eqb y (ch "=") || N.eqb y (ch "!") then Unsupported
                            else parse s3 (set_mode (MGroupName []) st)
                        | [] => SyntaxError
                        end
                      else Unsupported
                  | [] => SyntaxError
                  end
                else parse s1 (push (GCapture (S (p_next st)) None) (S (p_next st)) st)
            | [] => SyntaxError
            end
          else if N.eqb c (ch ")") then
            match pop st with
            | Some st' => parse s1 st'
            | None => SyntaxError
            end
          else if N.eqb c (ch "|") then parse s1 (close_alt st)
          else match quantifier_of c with
          | Some q =>
              match quantify q st with
              | None => SyntaxError
              | Some st' =>
                  match s1 with
                  | l :: _ => if N.eqb l (ch "?") then Unsupported else parse s1 st'
                  | [] => parse s1 st'
                  end
              end
          | None =>
          if N.eqb c (ch "{") then Unsupported
          else if N.eqb c (ch "\") then
            match s1 with
            | e :: s2 =>
                match escape_of false e with
                | EChar x => parse s2 (add_item (Char x, true) st)
                | EItem it => parse s2 (add_item (Class false [it], true) st)
                | EUnsupported => Unsupported
                end
            | [] => SyntaxError
            end
          else if N.eqb c (ch "[") then
            match s1 with
            | x :: s2 =>
                if N.eqb x (ch "^") then parse s2 (set_mode (MClass true []) st)
                else parse s1 (set_mode (MClass false []) st)
            | [] => SyntaxError
            end
          else if N.eqb c (ch ".") then parse s1 (add_item (Any, true) st)
          else if N.eqb c (ch "^") then parse s1 (add_item (Bol, false) st)
          else if N.eqb c (ch "$") then parse s1 (add_item (Eol, false) st)
          else parse s1 (add_item (Char c, true) st)
          end
      end
  | MGroupName acc =>
      match s with
      | [] => SyntaxError
      | c :: s1 =>
          if N.eqb c (ch ">") then
            match check_group_name (rev acc) with
            | NameOk =>
                parse s1 (push (GCapture (S (p_next st)) (Some (rev acc)))
                               (S (p_next st)) st)
            | NameBad => SyntaxError
            | NameUnsupported => Unsupported
            end
          else parse s1 (set_mode (MGroupName (c :: acc)) st)
      end
  | MClass neg items =>
      match s with
      | [] => SyntaxError
      | c :: s1 =>
          if N.eqb c (ch "]") then
            parse s1 (add_item (Class neg (rev items), true) st)
          else if N.eqb c (ch "\") then
            match s1 with
            | e :: s2 =>
                match escape_of true e, s2 with
                | EUnsupported, _ => Unsupported
                | esc, d :: x :: _ =>
                    if N.eqb d (ch "-") && negb (N.eqb x (ch "]")) then Unsupported
                    else parse s2 (set_mode
                           (MClass neg (match esc with
                                        | EItem it => it
                                        | EChar y => CChar y
                                        | EUnsupported => CChar e
                                        end :: items)) st)
                | esc, _ =>
                    parse s2 (set_mode
                           (MClass neg (match esc with
                                        | EItem it => it
                                        | EChar y => CChar y
                                        | EUnsupported => CChar e
                                        end :: items)) st)
                end
            | [] => SyntaxError
            end
          else
            match s1 with
            | d :: x :: s3 =>
                if N.eqb d (ch "-") && negb (N.eqb x (ch "]")) then
                  if N.eqb x (ch "\") then Unsupported
                  else if (x <? c)%N then SyntaxError
                  else parse s3 (set_mode (MClass neg (CRange c x :: items)) st)
                else parse s1 (set_mode (MClass neg (CChar c :: items)) st)
            | _ => parse s1 (set_mode (MClass neg (CChar c :: items)) st)
            end
      end
  end.

Definition initial : pstate := PState MNormal (Frame GTop [] []) [] 0 false.

(** [new RegExp(source)] *)
Definition RegExp_new (source : jsstring) : parse_result := parse source initial.

(** *** [String.prototype.replace] with a pattern *)

Definition cap_text (i : nat) (cs : list (nat * jsstring)) : jsstring :=
  match cap_lookup i cs with Some v => v | None => [] end.

Definition digit_val (d : N) : nat := N.to_nat (d - 48).

(** The replacement text with its dollar forms expanded, for a pattern with
    [ngroups] groups, none of them named: [$$], [$&], the text before and
    after the match, and [$n] / [$nn] for a group that exists.  Every other
    dollar stays as it is. *)
Fixpoint GetSubstitution (mr : match_result) (str : jsstring) (ngroups : nat)
         (repl : jsstring) {struct repl} : jsstring :=
  match repl with
  | [] => []
  | c :: r1 =>
      if negb (N.eqb c (ch "$")) then c :: GetSubstitution mr str ngroups r1
      else
        match r1 with
        | [] => [c]
        | d :: r2 =>
            if N.eqb d (ch "$") then c :: GetSubstitution mr str ngroups r2
            else if N.eqb d (ch "&") then matched mr ++ GetSubstitution mr str ngroups r2
            else if N.eqb d (ch "`") then
              firstn (index mr) str ++ GetSubstitution mr str ngroups r2
            else if N.eqb d (ch "'") then
              skipn (index mr + List.length (matched mr)) str
                ++ GetSubstitution mr str ngroups r2
            else if is_digit d then
              let one := digit_val d in
              let single :=
                if (1 <=? one) && (one <=? ngroups)
                then cap_text one (captures mr) ++ GetSubstitution mr str ngroups r2
                else c :: GetSubstitution mr str ngroups r1 in
              match r2 with
              | d2 :: r3 =>
                  let two := 10 * one + digit_val d2 in
                  if is_digit d2 && (1 <=? two) && (two <=? ngroups)
                  then cap_text two (captures mr) ++ GetSubstitution mr str ngroups r3
                  else single
              | [] => single
              end
            else c :: GetSubstitution mr str ngroups r1
        end
  end.

(** [str.replace(re, repl)] for a pattern without the global flag: the
    leftmost match is replaced, the rest of [str] is kept.  Patterns with
    named groups (whose replacement text has one more dollar form) are left
    out. *)
Definition replace (re : regex) (repl str : jsstring) : option jsstring :=
  match group_names (groups_in re) with
  | _ :: _ => None
  | [] =>
      Some match exec re str with
           | None => str
           | Some mr =>
               firstn (index mr) str
                 ++ GetSubstitution mr str (List.length (groups_in re)) repl
                 ++ skipn (index mr + List.length (matched mr)) str
           end
  end.

End RegExp.

(** ** [node:url]: the legacy [url.parse] *)

Module Url.

(** [pathname] is [None] where [url.parse] leaves it [null].  [Threw]
    stands for the exception [url.parse] raises on some absolute URLs, and
    [NotModelled] for an input the model at hand does not cover. *)
Inductive parse_result :=
| Parsed (pathname : option jsstring)
| Threw
| NotModelled.

Definition is_ws (c : N) : bool := (c <? 33)%N || RegExp.is_space c.

(** The text up to the first question mark, with the backslashes in it
    turned into slashes, and the text from the question mark on. *)
Fixpoint before_query (s : jsstring) : jsstring * jsstring :=
  match s with
  | [] => ([], [])
  | c :: s' =>
      if N.eqb c (ch "?") then ([], s)
      else let (p, q) := before_query s' in
           ((if N.eqb c (ch "\") then ch "/" else c) :: p, q)
  end.

(** The fast path of [url.parse], taken by a target that holds no white
    space, no [#], and no [@] before its query, and that starts with one or
    two slashes not followed by a further one: the pathname is the text
    before the first question mark.  This covers every origin-form request
    target of the kind a browser sends; the general path of [url.parse]
    (protocols, hosts, escaping) is not modelled. *)
Definition parse_simple (u : jsstring) : parse_result :=
  let (p, q) := before_query u in
  if existsb is_ws u || existsb (N.eqb (ch "#")) u || existsb (N.eqb (ch "@")) p
  then NotModelled
  else if startsWith p (js "/") && negb (startsWith p (js "///"))
  then Parsed (Some p)
  else NotModelled.

End Url.

(** ** Buffers and UTF-8 *)

Module Buffer.

Definition t := list Byte.byte.

(** [Buffer.concat(chunks)] *)
Definition concat (chunks : list t) : t := List.concat chunks.

Definition replacement : N := 65533.

(** A multi-byte sequence under way: the bits read so far, the number of
    bytes still due, and the range allowed for the next byte. *)
Record pending := Pending { bits : N; due : nat; lo : N; hi : N }.

(** First byte of a sequence. *)
Definition lead (b : N) : list N * option pending :=
  if (b <=? 127)%N then ([b], None)
  else if RegExp.between 194 223 b then
    ([], Some (Pending (N.land b 31) 1 128 191))
  else if RegExp.between 224 239 b then
    ([], Some (Pending (N.land b 15) 2
                 (if N.eqb b 224 then 160%N else 128%N)
                 (if N.eqb b 237 then 159%N else 191%N)))
  else if RegExp.between 240 244 b then
    ([], Some (Pending (N.land b 7) 3
                 (if N.eqb b 240 then 144%N else 128%N)
                 (if N.eqb b 244 then 143%N else 191%N)))
  else ([replacement], None).

(** The UTF-8 decoder: a malformed or truncated sequence yields one
    replacement character, and the byte that broke it is read again as the
    start of a sequence. *)
Fixpoint decode (bs : list N) (p : option pending) : list N :=
  match bs with
  | [] => match p with Some _ => [replacement] | None => [] end
  | b :: bs' =>
      match p with
      | None => let (out, p') := lead b in out ++ decode bs' p'
      | Some pd =>
          if RegExp.between (lo pd) (hi pd) b then
            let cp := (bits pd * 64 + N.land b 63)%N in
            match due pd with
            | S (S n) => decode bs' (Some (Pending cp (S n) 128 191))
            | _ => cp :: decode bs' None
            end
          else replacement :: (let (out, p') := lead b in out ++ decode bs' p')
      end
  end.

Definition utf8_decode (bs : list N) : jsstring := decode bs None.

(** [buf.toString()]: the bytes read as UTF-8. *)
Definition toString (buf : t) : jsstring := utf8_decode (map Byte.to_N buf).

End Buffer.

(** ** [URLSearchParams] and [FormData] *)

Module URLSearchParams.

(** Node parses the text of a query or form body itself, code unit by code
    unit (the function [parseParams] behind [new URLSearchParams(string)]):
    the sequences between ampersands, each cut at its first equals sign, a
    plus sign read as a space, and a name or value that holds an escape
    handed to [querystring.unescape].  That function tries
    [decodeURIComponent] and, when it throws, falls back on a byte-wise
    decoder whose bytes are read as UTF-8. *)

Definition t := list (jsstring * jsstring).

Definition is_hex (c : N) : bool :=
  RegExp.is_digit c || RegExp.between 65 70 c || RegExp.between 97 102 c.

Definition hex_val (c : N) : N :=
  if RegExp.is_digit c then (c - 48)%N
  else if RegExp.between 65 70 c then (c - 55)%N
  else (c - 87)%N.

(** The loop of [unescapeBuffer]: a percent sign followed by two hex digits
    is the byte they name, every other code unit stays. *)
Fixpoint percent_decode (bs : list N) : list N :=
  match bs with
  | [] => []
  | b :: bs' =>
      if N.eqb b (ch "%") then
        match bs' with
        | h1 :: h2 :: bs'' =>
            if is_hex h1 && is_hex h2
            then (16 * hex_val h1 + hex_val h2)%N :: percent_decode bs''
            else b :: percent_decode bs'
        | _ => b :: percent_decode bs'
        end
      else b :: percent_decode bs'
  end.

Definition plus_to_space (bs : list N) : list N :=
  map (fun b => if N.eqb b (ch "+") then ch " " else b) bs.

(** The test of [parseParams] for an escape in a name or value: the counter
    [encodeCheck] is set to one by a percent sign, advanced by a hex digit
    and cleared by any other character but the plus sign, which leaves it
    alone; at three the text counts as [encoded]. *)
Fixpoint has_escape (s : jsstring) (encodeCheck : nat) : bool :=
  match s with
  | [] => false
  | c :: s' =>
      if N.eqb c (ch "+") then has_escape s' encodeCheck
      else if N.eqb c (ch "%") then has_escape s' 1
      else
        match encodeCheck with
        | 0 => has_escape s' 0
        | 1 => if is_hex c then has_escape s' 2 else has_escape s' 0
        | _ => if is_hex c then true else has_escape s' 0
        end
  end.

(** [decodeURIComponent(s)], [None] when it throws: every percent sign must
    open an escape, and the escaped bytes above 127 must form well-formed
    UTF-8 sequences with nothing in between; what is not escaped stays. *)
Fixpoint decodeURIComponent (s : jsstring) (p : option Buffer.pending)
  : option jsstring :=
  match s with
  | [] => match p with None => Some [] | Some _ => None end
  | c :: s1 =>
      if N.eqb c (ch "%") then
        match s1 with
        | h1 :: h2 :: s2 =>
            if is_hex h1 && is_hex h2 then
              let b := (16 * hex_val h1 + hex_val h2)%N in
              match p with
              | None =>
                  if (b <=? 127)%N then option_map (cons b) (decodeURIComponent s2 None)
                  else
                    match Buffer.lead b with
                    | (_, Some pd) => decodeURIComponent s2 (Some pd)
                    | (_, None) => None
                    end
              | Some pd =>
                  if RegExp.between (Buffer.lo pd) (Buffer.hi pd) b then
                    let cp := (Buffer.bits pd * 64 + N.land b 63)%N in
                    match Buffer.due pd with
                    | S (S n) =>
                        decodeURIComponent s2 (Some (Buffer.Pending cp (S n) 128 191))
                    | _ => option_map (cons cp) (decodeURIComponent s2 None)
                    end
                  else None
              end
            else None
        | _ => None
        end
      else
        match p with
        | None => option_map (cons c) (decodeURIComponent s1 None)
        | Some _ => None
        end
  end.

(** The UTF-16 code units of a character. *)
Definition utf16 (c : N) : list N :=
  if (c <? 65536)%N then [c]
  else [55296 + (c - 65536) / 1024; 56320 + (c - 65536) mod 1024]%N.

(** [unescapeBuffer(s)]: the code units go into a buffer, the escapes as the
    bytes they name and every other unit cut down to its low byte. *)
Definition unescapeBuffer (s : jsstring) : list N :=
  map (fun u => (u mod 256)%N) (percent_decode (flat_map utf16 s)).

(** [querystring.unescape(s)] *)
Definition unescape (s : jsstring) : jsstring :=
  match decodeURIComponent s None with
  | Some r => r
  | None => Buffer.utf8_decode (unescapeBuffer s)
  end.

(** A name or a value as [parseParams] hands it out. *)
Definition decode_part (s : jsstring) : jsstring :=
  let buf := plus_to_space s in
  if has_escape s 0 then unescape buf else buf.

(** The name (up to the first [=]) and the value (after it) of one
    sequence. *)
Fixpoint name_value (bs : list N) : list N * list N :=
  match bs with
  | [] => ([], [])
  | b :: bs' =>
      if N.eqb b (ch "=") then ([], bs')
      else let (n, v) := name_value bs' in (b :: n, v)
  end.

Definition parse_sequence (bs : list N) : list (jsstring * jsstring) :=
  match bs with
  | [] => []
  | _ => let (n, v) := name_value bs in [(decode_part n, decode_part v)]
  end.

(** [parseParams]: the sequences between ampersands, the empty ones
    skipped, in the order of the text. *)
Definition parse (qs : jsstring) : t :=
  flat_map parse_sequence (JS.split (ch "&") qs).

(** [new URLSearchParams(init)] for a string: one leading question mark is
    dropped. *)
Definition new (init : jsstring) : t :=
  parse match init with
        | c :: init' => if N.eqb c (ch "?") then init' else init
        | [] => init
        end.

End URLSearchParams.

Module FormData.

(** The entry list of a [FormData]: [append] adds an entry at the end,
    whatever the names already present. *)
Definition t := list (jsstring * jsstring).

Definition new : t := [].

Definition append (fd : t) (name value : jsstring) : t := fd ++ [(name, value)].

(** [formData.get(name)]: the value of the first entry of that name, or
    [null]. *)
Definition get (fd : t) (name : jsstring) : option jsstring := assoc name fd.

(** [formData.getAll(name)] *)
Definition getAll (fd : t) (name : jsstring) : list jsstring :=
  map snd (filter (fun e => eqb (fst e) name) fd).

End FormData.

(** ** [node:http]: what the router reads and writes *)

Module Http.

(** The request as the router sees it: method, raw request target and the
    [Host] header ([None] when the request has none). *)
Record IncomingMessage := Request {
  method : jsstring;
  url : jsstring;
  host : option jsstring
}.

Inductive chunk :=
| NoChunk
| Text (s : jsstring)
| Bytes (b : Buffer.t).

(** A call [response.writeHead(status, headers).end(chunk)]: what the code
    asks Node to write.  The dispatcher and the handlers are followed up to
    this call; what Node makes of it is [writeHead_end] below. *)
Record ServerResponse := Response {
  statusCode : Z;
  headers : list (jsstring * jsstring);
  body : chunk
}.

(** [statusCode |= 0]: the status as a 32-bit integer. *)
Definition int32 (z : Z) : Z := ((z + 2147483648) mod 4294967296 - 2147483648)%Z.

Definition valid_status (code : Z) : bool := (100 <=? code)%Z && (code <=? 999)%Z.

(** A character a header value may hold: the tab, and the Latin-1 characters
    from the space on, but for [DEL]. *)
Definition header_char (c : N) : bool :=
  N.eqb c 9 || RegExp.between 32 126 c || RegExp.between 128 255 c.

(** A character a header name may hold. *)
Definition token_char (c : N) : bool :=
  RegExp.is_digit c || RegExp.between 65 90 c || RegExp.between 97 122 c
  || existsb (N.eqb c) (js "^_`-!#$%&'*+.|~").

Definition valid_name (name : jsstring) : bool :=
  match name with
  | [] => false
  | _ :: _ => forallb token_char name
  end.

Inductive write_error :=
| ERR_HTTP_INVALID_STATUS_CODE
| ERR_INVALID_HTTP_TOKEN
| ERR_INVALID_CHAR.

(** The headers are checked one after the other, the name before the
    value. *)
Fixpoint check_headers (hs : list (jsstring * jsstring)) : option write_error :=
  match hs with
  | [] => None
  | (name, value) :: hs' =>
      if negb (valid_name name) then Some ERR_INVALID_HTTP_TOKEN
      else if negb (forallb header_char value) then Some ERR_INVALID_CHAR
      else check_headers hs'
  end.

Inductive written :=
| Written (r : ServerResponse)
| WriteHeadThrew (e : write_error).

(** What Node makes of the call: [writeHead] throws for a status outside
    100..999 and for a header it cannot send, before anything is written and
    before [end] is reached; otherwise the response goes out with the status
    as a 32-bit integer. *)
Definition writeHead_end (r : ServerResponse) : written :=
  let code := int32 (statusCode r) in
  if valid_status code then
    match check_headers (headers r) with
    | None => Written (Response code (headers r) (body r))
    | Some e => WriteHeadThrew e
    end
  else WriteHeadThrew ERR_HTTP_INVALID_STATUS_CODE.

(** A value spliced into a template literal: [undefined] prints as such. *)
Definition interpolate (v : option jsstring) : jsstring :=
  match v with
  | Some s => s
  | None => js "undefined"
  end.

End Http.
Import Http.

(** ** utils.mjs *)

Module Utils.

Definition Error := jsstring.

(** What the request stream emits, in order. *)
Inductive stream_event :=
| data (chunk : Buffer.t)
| end_
| error (e : Error).

Inductive promise (A : Type) :=
| Pending
| Resolved (a : A)
| Rejected (e : Error).
Arguments Pending {A}.
Arguments Resolved {A} a.
Arguments Rejected {A} e.

(** The loop that copies the parsed pairs into a fresh [FormData]. *)
Definition form_of_params (params : URLSearchParams.t) : FormData.t :=
  fold_left (fun formData kv => FormData.append formData (fst kv) (snd kv))
            params FormData.new.

(** The body of the ["end"] listener. *)
Definition on_end (chunks : list Buffer.t) : FormData.t :=
  let body := Buffer.toString (Buffer.concat chunks) in
  let params := URLSearchParams.new body in
  form_of_params params.

(** The three listeners at work on a stream: chunks pile up until ["end"]
    resolves the promise or ["error"] rejects it; a settled promise stays
    as it is, and a stream that emits neither leaves it pending. *)
Fixpoint listen (events : list stream_event) (chunks : list Buffer.t)
  : promise FormData.t :=
  match events with
  | [] => Pending
  | data chunk :: events' => listen events' (chunks ++ [chunk])
  | end_ :: _ => Resolved (on_end chunks)
  | error e :: _ => Rejected e
  end.

Definition parseFormData (request_stream : list stream_event) : promise FormData.t :=
  listen request_stream [].

(** [redirect(request, response, path, statusCode = 302)]: the call the
    helper makes. *)
Definition redirect (request : IncomingMessage) (path : jsstring)
           (statusCode : option Z) : ServerResponse :=
  Response (match statusCode with Some c => c | None => 302%Z end)
           [(js "Location", js "http://" ++ interpolate (host request) ++ path)]
           NoChunk.

(** [json(response, data, statusCode)], given the text [JSON.stringify]
    makes of the data. *)
Definition json (stringified : jsstring) (statusCode : option Z) : ServerResponse :=
  Response (match statusCode with Some c => c | None => 200%Z end)
           [(js "Content-Type", js "application/json")]
           (Text stringified).

End Utils.

(** ** server.mjs *)

Module Server.

Import RegExp.

(** The world outside the process: its working directory, the file system
    as [fs.access] and [fs.readFile] see it ([None] for a read that fails),
    and [url.parse]. *)
Record runtime := Runtime {
  cwd : jsstring;
  fs_access : jsstring -> bool;
  fs_readFile : jsstring -> option Buffer.t;
  url_parse : jsstring -> Url.parse_result
}.

Definition PUBLIC_PATH (rt : runtime) : jsstring := Path.join [cwd rt; js "public"].

Inductive handler_ref :=
| index
| studentList
| studentDelete
| studentChange
| studentsDownload
| studentsSearch
| studentsAPISearch.

Record route_def := RouteDef {
  path : jsstring;
  methods : list jsstring;
  handler : handler_ref
}.

Definition routes : list route_def :=
  [ RouteDef (js "/") [js "GET"] index;
    RouteDef (js "/students") [js "GET"; js "POST"] studentList;
    RouteDef (js "/students/delete") [js "POST"] studentDelete;
    RouteDef (js "/students/:id/change") [js "GET"; js "POST"] studentChange;
    RouteDef (js "/students/download") [js "GET"] studentsDownload;
    RouteDef (js "/students/search") [js "GET"] studentsSearch;
    RouteDef (js "/api/students") [js "GET"] studentsAPISearch ].

(** The pattern literal of the compiler loop, [/:([\w.]+)/]. *)
Definition placeholder : regex :=
  Seq (Char (ch ":"))
      (Seq (Group 1 None (Seq (Plus (Class false [CWord; CChar (ch ".")])) Empty))
           Empty).

(** The text handed to [new RegExp]. *)
Definition pattern_source (p : jsstring) : option jsstring :=
  match RegExp.replace placeholder (js "(?<$1>[\w.]+)") p with
  | Some replaced => Some (js "^" ++ replaced ++ js "$")
  | None => None
  end.

Definition compile_pattern (p : jsstring) : parse_result :=
  match pattern_source p with
  | Some src => RegExp_new src
  | None => Unsupported
  end.

(** [route.pattern.exec(pathname)] for the route of template [p]: [None]
    when the template has no pattern, [Some None] when the pattern does not
    match. *)
Definition route_exec (p pathname : jsstring) : option (option match_result) :=
  match compile_pattern p with
  | Compiled re => Some (exec re pathname)
  | _ => None
  end.

(** A route once the start-up loop has given it its [pattern]. *)
Record route := Route {
  def : route_def;
  pattern : regex
}.

Inductive startup :=
| Started (table : list route)
| Crashed
| StartupNotModelled.

(** The start-up loop: a pattern that does not compile throws, and the
    module never finishes loading. *)
Fixpoint compile_routes (defs : list route_def) : startup :=
  match defs with
  | [] => Started []
  | d :: defs' =>
      match compile_pattern (path d) with
      | SyntaxError => Crashed
      | Unsupported => StartupNotModelled
      | Compiled re =>
          match compile_routes defs' with
          | Started table => Started (Route d re :: table)
          | other => other
          end
      end
  end.

Definition MIME_TYPES : list (jsstring * jsstring) :=
  [ (js "default", js "application/octet-stream");
    (js "html", js "text/html; charset=utf-8");
    (js "js", js "text/javascript");
    (js "mjs", js "text/javascript");
    (js "css", js "text/css");
    (js "png", js "image/png");
    (js "jpg", js "image/jpg");
    (js "jpeg", js "image/jpeg");
    (js "gif", js "image/gif");
    (js "ico", js "image/x-icon");
    (js "svg", js "image/svg+xml") ].

(** [MIME_TYPES[fileExt] ?? MIME_TYPES.default].  The table is a plain
    object, so the two lower-case names it inherits answer as well, with
    what their values print as in a header. *)
Definition mime_type (fileExt : jsstring) : jsstring :=
  match assoc fileExt MIME_TYPES with
  | Some v => v
  | None =>
      if eqb fileExt (js "constructor") then js "function Object() { [native code] }"
      else if eqb fileExt (js "__proto__") then js "[object Object]"
      else js "application/octet-stream"
  end.

(** One line of [console.log(request.method, request.url, response.statusCode)]. *)
Record log_line := Log {
  log_method : jsstring;
  log_url : jsstring;
  log_status : Z
}.

Inductive failure :=
| UrlParseThrew
| ReadFileFailed.

(** What one run of [handleRequest] comes to: a response written by the
    dispatcher itself (through the patched [end], hence with its log line),
    a call of a route handler, or an exception that rejects the promise of
    the [async] listener, which nothing awaits or catches, with no response
    written. *)
Inductive outcome :=
| Responded (r : ServerResponse) (logged : log_line)
| Invoked (h : handler_ref) (params : list (jsstring * option jsstring))
| UncaughtRejection (f : failure)
| OutcomeNotModelled.

Definition monkeyPatchedEnd (request : IncomingMessage) (r : ServerResponse) : outcome :=
  Responded r (Log (method request) (url request) (statusCode r)).

Definition newline : jsstring := [10%N].

Definition not_found (text : string) : ServerResponse :=
  Response 404 [(js "Content-Type", js "text/html")] (Text (js text ++ newline)).

(** The loop over the route table. *)
Fixpoint scan (table : list route) (request : IncomingMessage)
         (pathname : jsstring) : outcome :=
  match table with
  | [] => monkeyPatchedEnd request (not_found "<h1>Page not found!</h1>")
  | route :: table' =>
      match exec (pattern route) pathname with
      | None => scan table' request pathname
      | Some mt =>
          if includes (methods (def route)) (method request)
          then Invoked (handler (def route)) (groups mt)
          else monkeyPatchedEnd request (Response 405 [] NoChunk)
      end
  end.

(** The static branch. *)
Definition serve_static (rt : runtime) (request : IncomingMessage) : outcome :=
  let filePath :=
    Path.join [PUBLIC_PATH rt; replace_str (js "/public/") (js "") (url request)] in
  let fileExists := fs_access rt filePath in
  let fileFound := startsWith filePath (PUBLIC_PATH rt) && fileExists in
  if negb fileFound then
    monkeyPatchedEnd request (not_found "<h1>Not found!</h1>")
  else
    let fileExt := toLowerCase (slice_from 1 (Path.extname filePath)) in
    let mimeType := mime_type fileExt in
    match fs_readFile rt filePath with
    | Some buffer =>
        monkeyPatchedEnd request
          (Response 200 [(js "Content-Type", mimeType)] (Bytes buffer))
    | None => UncaughtRejection ReadFileFailed
    end.

(** [pattern.exec] turns its argument into a string: a [null] pathname is
    tested as the text [null]. *)
Definition pathname_text (pathname : option jsstring) : jsstring :=
  match pathname with
  | Some p => p
  | None => js "null"
  end.

Definition handleRequest (rt : runtime) (table : list route)
           (request : IncomingMessage) : outcome :=
  match url_parse rt (url request) with
  | Url.Threw => UncaughtRejection UrlParseThrew
  | Url.NotModelled => OutcomeNotModelled
  | Url.Parsed pathname =>
      if endsWith (url request) (js "/") then
        monkeyPatchedEnd request
          (Utils.redirect request (slice_0_m1 (url request)) (Some 301%Z))
      else if startsWith (url request) (js "/public/") then
        serve_static rt request
      else scan table request (pathname_text pathname)
  end.

End Server.

(** ** A concrete runtime *)

(** A file system given as a table from absolute paths to entries, and the
    fast path of [url.parse]: enough to run the dispatcher on a given request
    target. *)
Module Disk.

Import Server.

Inductive entry :=
| File (content : Buffer.t)
| Directory.

Definition disk := list (jsstring * entry).

(** [fs.access(p)] is fulfilled for anything that exists. *)
Definition access (d : disk) (p : jsstring) : bool :=
  match assoc p d with Some _ => true | None => false end.

(** [fs.readFile(p)] is fulfilled for files only. *)
Definition readFile (d : disk) (p : jsstring) : option Buffer.t :=
  match assoc p d with Some (File content) => Some content | _ => None end.

Definition node (cwd : jsstring) (d : disk) : runtime :=
  Runtime cwd (access d) (readFile d) Url.parse_simple.

Definition bytes (s : string) : Buffer.t := list_byte_of_string s.

End Disk.

(** The route table as the start-up loop leaves it. *)
Definition compiled_routes : list Server.route :=
  match Server.compile_routes Server.routes with
  | Server.Started table => table
  | _ => []
  end.

(** Containment of a resolved path in a directory: the directory itself or
    something below it. *)
Definition within (root p : jsstring) : bool :=
  eqb p root || startsWith p (root ++ [Path.slash]).

(** ** Vocabulary of the statements *)

Import RegExp.
Import Server.

(** A text without pattern syntax: each of its characters stands for itself
    in a pattern. *)
Definition plain (s : jsstring) : bool :=
  forallb (fun c => negb (is_syntax_char c)) s.

(** The class of the parameter group, [[\w.]]. *)
Definition word_dot : list class_item := [CWord; CChar (ch ".")].

Definition wd (c : N) : bool := class_matches false word_dot c.

(** The text does not go on with a character of the parameter class. *)
Definition stops (s : jsstring) : bool :=
  match s with
  | [] => true
  | c :: _ => negb (wd c)
  end.

(** No colon of [s] is followed by a character of the parameter class: the
    compiler finds no placeholder in [s]. *)
Fixpoint placeholder_free (s : jsstring) : bool :=
  match s with
  | [] => true
  | c :: s' =>
      negb (N.eqb c (ch ":") && match s' with d :: _ => wd d | [] => false end)
      && placeholder_free s'
  end.

(** A parameter name that is also a group name: a letter or an underscore,
    then word characters. *)
Definition identifier (n : jsstring) : bool :=
  match n with
  | [] => false
  | c :: n' => (between 97 122 c || between 65 90 c || N.eqb c 95) && forallb is_word n'
  end.

(** A sequence of terms, nested to the right as the parser builds it. *)
Definition chain (rs : list regex) : regex := fold_right Seq Empty rs.

Definition param_group (name : jsstring) : regex :=
  Group 1 (Some name) (Seq (Plus (Class false word_dot)) Empty).

(** The pattern of a template with literal text around one parameter. *)
Definition skeleton_regex (pre name post : jsstring) : regex :=
  chain (Bol :: map Char pre ++ param_group name :: map Char post ++ [Eol]).

Definition char_item (c : N) : regex * bool := (Char c, true).

Definition add_chars (l : jsstring) (st : pstate) : pstate :=
  fold_left (fun st c => add_item (char_item c) st) l st.

Definition after (l : jsstring) (start : bool) : bool :=
  match l with [] => start | _ :: _ => false end.

(** The route does not match the path. *)
Definition misses (pathname : jsstring) (r : route) : bool :=
  match exec (pattern r) pathname with
  | None => true
  | Some _ => false
  end.

(** ** Sample requests *)

Definition localhost : option jsstring := Some (js "localhost:8000").

Definition GET (target : string) : IncomingMessage := Request (js "GET") (js target) localhost.

(** A deployment in [/srv/hogwarts]: a style sheet and a directory of images
    under [public], and, next to [public], a directory [public-old]. *)
Definition sample_disk : Disk.disk :=
  [ (js "/srv/hogwarts/public/style.css", Disk.File (Disk.bytes "body{}"));
    (js "/srv/hogwarts/public/images", Disk.Directory);
    (js "/srv/hogwarts/public-old/notes.txt", Disk.File (Disk.bytes "secret")) ].

Definition sample : runtime := Disk.node (js "/srv/hogwarts") sample_disk.

(** The route of [/students/:id/change], fourth in the table. *)
Definition change_route : route :=
  nth 3 compiled_routes (Route (RouteDef [] [] index) Empty).

(** The path the static branch resolves for a request. *)
Definition resolved (rt : runtime) (request : IncomingMessage) : jsstring :=
  Path.join [PUBLIC_PATH rt; replace_str (js "/public/") (js "") (url request)].

(** ** The handlers of server.mjs *)

(** The handlers talk to three things outside the repository: the database
    driver, the template engine and [JSON.stringify].  They are taken as
    they are used: the driver as three operations on a database state that
    receive the SQL text and its parameters, the engine as a function from a
    template text and a context to the page.  One run of a handler is
    followed from its first line to its answer; what other requests do to the
    database between two of its steps is not part of the model. *)
Module Handlers.

Import Utils.

(** A value of a result row. *)
Inductive value :=
| VNull
| VInt (z : Z)
| VText (s : jsstring).

(** A result row: the columns by name. *)
Definition row := list (jsstring * value).

(** A promise of the driver, once settled. *)
Inductive dbres (A : Type) :=
| Fulfilled (a : A)
| Failed (message : jsstring).
Arguments Fulfilled {A} a.
Arguments Failed {A} message.

Inductive errors :=
| UniqueError (unique : jsstring)
| FieldErrors (name_error house_error : option jsstring).

(** The objects handed to the templates. *)
Inductive context :=
| ListContext (students : list row) (houses : list jsstring) (order : option jsstring)
| EditContext (student : row) (houses : list jsstring) (errs : option errors)
| NoContext.

Record services (S : Type) := Services {
  db_get : S -> jsstring -> list jsstring -> dbres (option row);
  db_all : S -> jsstring -> list jsstring -> dbres (list row);
  db_run : S -> jsstring -> list jsstring -> dbres S;
  handlebars : jsstring -> context -> option jsstring;
  JSON_stringify : list row -> jsstring;
  url_query : jsstring -> option jsstring
}.
Arguments db_get {S} s _ _ _.
Arguments db_all {S} s _ _ _.
Arguments db_run {S} s _ _ _.
Arguments handlebars {S} s _ _.
Arguments JSON_stringify {S} s _.
Arguments url_query {S} s _.

(** What makes the promise of a handler reject. *)
Inductive fault :=
| StreamFault (e : Error)
| DbFault (message : jsstring)
| TypeError
| TemplateFault
| DispatchFault (f : failure).

(** How a run ends: with a response, with a rejection nobody handles, or
    not at all when the body never comes to its end. *)
Inductive reply :=
| Answered (r : ServerResponse)
| Uncaught (f : fault)
| NeverSettles
| ReplyNotModelled.

Definition HOUSES : list jsstring :=
  [js "Gryffindor"; js "Slytherin"; js "Hufflepuff"; js "Ravenclaw"].

(** A string or [null] in a condition: [null] and the empty string count as
    false. *)
Definition truthy (v : option jsstring) : bool :=
  match v with
  | Some (_ :: _) => true
  | _ => false
  end.

(** [HOUSES.includes(v)] for a string or [null]. *)
Definition is_house (v : option jsstring) : bool :=
  match v with
  | Some h => includes HOUSES h
  | None => false
  end.

(** [s.includes(sub)] *)
Fixpoint contains (s sub : jsstring) : bool :=
  startsWith s sub ||
  match s with
  | [] => false
  | _ :: s' => contains s' sub
  end.

(** [new URLSearchParams(parsedURL.query)]: a [null] query gives no pair. *)
Definition searchParams (query : option jsstring) : URLSearchParams.t :=
  match query with
  | Some q => URLSearchParams.new q
  | None => []
  end.

(** [searchParams.get(name)] *)
Definition param (query : option jsstring) (name : jsstring) : option jsstring :=
  assoc name (searchParams query).

Definition html_200 (html : jsstring) : ServerResponse :=
  Response 200 [(js "Content-Type", js "text/html")] (Text html).

Definition html_400 (html : jsstring) : ServerResponse :=
  Response 400 [(js "Content-Type", js "text/html")] (Text html).

Definition to_students (request : IncomingMessage) : ServerResponse :=
  redirect request (js "/students") None.

(** [renderTemplate(name, context)]: the file of the template is read as
    UTF-8 text and run by the engine; a failure of either rejects. *)
Definition renderTemplate {S} (rt : runtime) (svc : services S)
           (name : string) (ctx : context) : option jsstring :=
  match fs_readFile rt (Path.join [js "templates"; js name]) with
  | Some buffer => handlebars svc (Buffer.toString buffer) ctx
  | None => None
  end.

Definition render_reply {S} (rt : runtime) (svc : services S) (name : string)
           (ctx : context) (respond : jsstring -> ServerResponse) : reply :=
  match renderTemplate rt svc name ctx with
  | Some html => Answered (respond html)
  | None => Uncaught TemplateFault
  end.

(** [function index] *)
Definition index_handler (request : IncomingMessage) : reply :=
  Answered (to_students request).

Definition EXISTS_SQL : jsstring :=
  js "SELECT EXISTS(SELECT 1 FROM students WHERE name = ?) AS exists_".

Definition INSERT_SQL : jsstring :=
  js "INSERT INTO students (name, house) VALUES (?, ?)".

Definition LIST_SQL : jsstring := js "SELECT id, name, house, image FROM students".

Definition DELETE_SQL : jsstring := js "DELETE FROM students WHERE id = ?".

Definition STUDENT_SQL : jsstring := js "SELECT name, house FROM students WHERE id = ?".

Definition UPDATE_SQL : jsstring :=
  js "UPDATE students SET name = ?, house = ? WHERE id = ?".

Definition SEARCH_SQL : jsstring :=
  js "SELECT name, house FROM students WHERE name LIKE ?".

(** A text of decimal digits only; the empty text is one. *)
Definition digits_only (s : jsstring) : bool := forallb RegExp.is_digit s.

(** [row.exists_ == 0]: [undefined] and [null] are not equal to 0; a text is
    converted to a number first.  The number of a text of digits is 0 when
    all of them are zeros (the empty text has the number 0 as well); the
    conversion of any other text is left out. *)
Definition equals_zero (cell : option value) : option bool :=
  match cell with
  | None => Some false
  | Some VNull => Some false
  | Some (VInt z) => Some (Z.eqb z 0)
  | Some (VText s) =>
      if digits_only s then Some (forallb (N.eqb (ch "0")) s) else None
  end.

(** The text of the listing query for the [order] parameter. *)
Definition list_query (order : option jsstring) : jsstring :=
  match order with
  | Some o =>
      if eqb o (js "abc") then LIST_SQL ++ js " ORDER BY name ASC"
      else if eqb o (js "zyx") then LIST_SQL ++ js " ORDER BY name DESC"
      else LIST_SQL
  | None => LIST_SQL
  end.

(** [async function studentList] *)
Definition studentList_handler {S} (rt : runtime) (svc : services S) (db : S)
           (request : IncomingMessage) (stream : list stream_event) : S * reply :=
  if eqb (method request) (js "POST") then
    match parseFormData stream with
    | Pending => (db, NeverSettles)
    | Rejected e => (db, Uncaught (StreamFault e))
    | Resolved formData =>
        let studentName := FormData.get formData (js "name") in
        let studentHouse := FormData.get formData (js "house") in
        match studentName, studentHouse with
        | Some name, Some house =>
            if truthy studentName && is_house studentHouse then
              match db_get svc db EXISTS_SQL [name] with
              | Failed m => (db, Uncaught (DbFault m))
              | Fulfilled None => (db, Uncaught TypeError)
              | Fulfilled (Some r) =>
                  match equals_zero (assoc (js "exists_") r) with
                  | None => (db, ReplyNotModelled)
                  | Some false => (db, Answered (to_students request))
                  | Some true =>
                      match db_run svc db INSERT_SQL [name; house] with
                      | Failed m => (db, Uncaught (DbFault m))
                      | Fulfilled db' => (db', Answered (to_students request))
                      end
                  end
              end
            else (db, Answered (to_students request))
        | _, _ => (db, Answered (to_students request))
        end
    end
  else
    let order := param (url_query svc (url request)) (js "order") in
    match db_all svc db (list_query order) [] with
    | Failed m => (db, Uncaught (DbFault m))
    | Fulfilled students =>
        (db, render_reply rt svc "students.html"
               (ListContext students HOUSES order) html_200)
    end.

(** [async function studentDelete] *)
Definition studentDelete_handler {S} (svc : services S) (db : S)
           (request : IncomingMessage) (stream : list stream_event) : S * reply :=
  match parseFormData stream with
  | Pending => (db, NeverSettles)
  | Rejected e => (db, Uncaught (StreamFault e))
  | Resolved formData =>
      match FormData.get formData (js "id") with
      | Some (c :: id) =>
          match db_run svc db DELETE_SQL [c :: id] with
          | Failed m => (db, Uncaught (DbFault m))
          | Fulfilled db' => (db', Answered (to_students request))
          end
      | _ => (db, Answered (to_students request))
      end
  end.

(** [params.id]: the value of the group, or [undefined]. *)
Definition params_id (params : list (jsstring * option jsstring)) : option jsstring :=
  match assoc (js "id") params with
  | Some v => v
  | None => None
  end.

Definition no_student : ServerResponse := not_found "<h1>No student found</h1>".

(** [async function studentChange] *)
Definition studentChange_handler {S} (rt : runtime) (svc : services S) (db : S)
           (request : IncomingMessage) (stream : list stream_event)
           (params : list (jsstring * option jsstring)) : S * reply :=
  let studentId := params_id params in
  match studentId with
  | Some (c :: id) =>
      match db_get svc db STUDENT_SQL [c :: id] with
      | Failed m => (db, Uncaught (DbFault m))
      | Fulfilled None => (db, Answered no_student)
      | Fulfilled (Some student) =>
          if eqb (method request) (js "POST") then
            match parseFormData stream with
            | Pending => (db, NeverSettles)
            | Rejected e => (db, Uncaught (StreamFault e))
            | Resolved formData =>
                match FormData.get formData (js "name") with
                | None => (db, Uncaught TypeError)
                | Some studentName =>
                    let studentHouse := FormData.get formData (js "house") in
                    let studentNameIsValid := truthy (Some studentName) in
                    let studentHouseIsValid := is_house studentHouse in
                    match studentHouse with
                    | Some house =>
                        if studentNameIsValid && studentHouseIsValid then
                          match db_run svc db UPDATE_SQL [studentName; house; c :: id] with
                          | Fulfilled db' => (db', Answered (to_students request))
                          | Failed m =>
                              if contains m (js "UNIQUE constraint failed") then
                                (db, render_reply rt svc "student-edit.html"
                                       (EditContext student HOUSES
                                          (Some (UniqueError
                                                   (js "Student name and house are not unique"))))
                                       html_400)
                              else (db, Answered (to_students request))
                          end
                        else
                          (db, render_reply rt svc "student-edit.html"
                                 (EditContext student HOUSES
                                    (Some (FieldErrors
                                       (if studentNameIsValid then None
                                        else Some (js "Name should not be empty"))
                                       (if studentHouseIsValid then None
                                        else Some (js "Invalid house")))))
                                 html_400)
                    | None =>
                        (db, render_reply rt svc "student-edit.html"
                               (EditContext student HOUSES
                                  (Some (FieldErrors
                                     (if studentNameIsValid then None
                                      else Some (js "Name should not be empty"))
                                     (Some (js "Invalid house")))))
                               html_400)
                    end
                end
            end
          else
            (db, render_reply rt svc "student-edit.html"
                   (EditContext student HOUSES None) html_200)
      end
  | _ => (db, Answered no_student)
  end.

(** A value spliced into a template literal: [null] prints as such. *)
Definition or_null (v : option jsstring) : jsstring :=
  match v with
  | Some s => s
  | None => js "null"
  end.

(** The parameter of the [LIKE]. *)
Definition search_pattern (search : option jsstring) : jsstring :=
  js "%" ++ or_null search ++ js "%".

(** [async function studentsAPISearch] *)
Definition studentsAPISearch_handler {S} (svc : services S) (db : S)
           (request : IncomingMessage) : S * reply :=
  let search := param (url_query svc (url request)) (js "search") in
  match db_all svc db SEARCH_SQL [search_pattern search] with
  | Failed m => (db, Uncaught (DbFault m))
  | Fulfilled students => (db, Answered (json (JSON_stringify svc students) None))
  end.

(** [async function studentsSearch] *)
Definition studentsSearch_handler {S} (rt : runtime) (svc : services S) (db : S)
  : S * reply :=
  (db, render_reply rt svc "students-search.html" NoContext html_200).

Definition FIELD_NAMES : list jsstring := [js "id"; js "name"; js "house"].

Definition comma : jsstring := js ",".

Definition EXPORT_SQL : jsstring :=
  js "SELECT " ++ JS.join (js ", ") FIELD_NAMES ++ js " FROM students".

Fixpoint uint_chars (u : Decimal.uint) : jsstring :=
  match u with
  | Decimal.Nil => []
  | Decimal.D0 u' => 48%N :: uint_chars u'
  | Decimal.D1 u' => 49%N :: uint_chars u'
  | Decimal.D2 u' => 50%N :: uint_chars u'
  | Decimal.D3 u' => 51%N :: uint_chars u'
  | Decimal.D4 u' => 52%N :: uint_chars u'
  | Decimal.D5 u' => 53%N :: uint_chars u'
  | Decimal.D6 u' => 54%N :: uint_chars u'
  | Decimal.D7 u' => 55%N :: uint_chars u'
  | Decimal.D8 u' => 56%N :: uint_chars u'
  | Decimal.D9 u' => 57%N :: uint_chars u'
  end.

(** An integer a number holds exactly. *)
Definition safe_integer (z : Z) : bool := (Z.abs z <=? 2 ^ 53)%Z.

(** An integer as [join] prints it: in decimal with all its digits, as long
    as a number holds it exactly. *)
Definition print_int (z : Z) : option jsstring :=
  if safe_integer z then
    Some match z with
         | Z0 => js "0"
         | Zpos p => uint_chars (Pos.to_uint p)
         | Zneg p => ch "-" :: uint_chars (Pos.to_uint p)
         end
  else None.

(** An element of an array as [join] prints it: nothing for [undefined] and
    [null]. *)
Definition print_cell (cell : option value) : option jsstring :=
  match cell with
  | None => Some []
  | Some VNull => Some []
  | Some (VText s) => Some s
  | Some (VInt z) => print_int z
  end.

Fixpoint all_some {A} (l : list (option A)) : option (list A) :=
  match l with
  | [] => Some []
  | Some x :: l' =>
      match all_some l' with
      | Some xs => Some (x :: xs)
      | None => None
      end
  | None :: _ => None
  end.

(** The cells of a student in the order of [FIELD_NAMES]. *)
Definition export_cells (student : row) : option (list jsstring) :=
  all_some (map (fun fieldName => print_cell (assoc fieldName student)) FIELD_NAMES).

(** The text of the export for the printed cells of the rows. *)
Definition csv_body (table : list (list jsstring)) : jsstring :=
  let csvStr := JS.join newline (map (JS.join comma) table) in
  JS.join comma FIELD_NAMES ++ newline ++ csvStr ++ newline.

Definition csv_response (body : jsstring) : ServerResponse :=
  Response 200
    [(js "Content-Type", js "text/csv");
     (js "Content-Disposition", js "attachment;filename=students.csv")]
    (Text body).

(** [async function studentsDownload] *)
Definition studentsDownload_handler {S} (svc : services S) (db : S) : S * reply :=
  match db_all svc db EXPORT_SQL [] with
  | Failed m => (db, Uncaught (DbFault m))
  | Fulfilled students =>
      match all_some (map export_cells students) with
      | Some table => (db, Answered (csv_response (csv_body table)))
      | None => (db, ReplyNotModelled)
      end
  end.

(** [route.handler(request, response, params)] *)
Definition call {S} (rt : runtime) (svc : services S) (db : S) (h : handler_ref)
           (request : IncomingMessage) (stream : list stream_event)
           (params : list (jsstring * option jsstring)) : S * reply :=
  match h with
  | index => (db, index_handler request)
  | studentList => studentList_handler rt svc db request stream
  | studentDelete => studentDelete_handler svc db request stream
  | studentChange => studentChange_handler rt svc db request stream params
  | studentsDownload => studentsDownload_handler svc db
  | studentsSearch => studentsSearch_handler rt svc db
  | studentsAPISearch => studentsAPISearch_handler svc db request
  end.

(** One request through the server: the dispatcher, then the handler it
    calls. *)
Definition serve {S} (rt : runtime) (svc : services S) (table : list route) (db : S)
           (request : IncomingMessage) (stream : list stream_event) : S * reply :=
  match handleRequest rt table request with
  | Responded r _ => (db, Answered r)
  | Invoked h params => call rt svc db h request stream params
  | UncaughtRejection f => (db, Uncaught (DispatchFault f))
  | OutcomeNotModelled => (db, ReplyNotModelled)
  end.

End Handlers.

(** ** A database and a site to run the handlers on *)

(** A stand-in for the driver, for running the handlers on given inputs: a
    table of students with the statements of the handlers read off their
    text.  It refuses a second student of one name, and it returns the rows
    in table order ([ORDER BY] and [LIKE] are not interpreted). *)
Module Toy.

Import Handlers.

Record student := Student { sid : Z; sname : jsstring; shouse : jsstring }.

Definition table := list student.

Definition student_row (st : student) : row :=
  [(js "id", VInt (sid st)); (js "name", VText (sname st)); (js "house", VText (shouse st))].

Definition has_id (id : jsstring) (st : student) : bool :=
  match print_int (sid st) with
  | Some text => eqb text id
  | None => false
  end.

Definition next_id (t : table) : Z := fold_left (fun acc st => Z.max acc (sid st)) t 0%Z + 1.

Definition unique_failed : jsstring :=
  js "SQLITE_CONSTRAINT: UNIQUE constraint failed: students.name".

Definition get (t : table) (sql : jsstring) (params : list jsstring) : dbres (option row) :=
  match params with
  | [x] =>
      if eqb sql EXISTS_SQL then
        Fulfilled (Some [(js "exists_",
                          VInt (if existsb (fun st => eqb (sname st) x) t then 1 else 0))])
      else if eqb sql STUDENT_SQL then
        Fulfilled (match find (has_id x) t with
                   | Some st => Some [(js "name", VText (sname st)); (js "house", VText (shouse st))]
                   | None => None
                   end)
      else Failed (js "SQLITE_ERROR")
  | _ => Failed (js "SQLITE_ERROR")
  end.

Definition all (t : table) (sql : jsstring) (params : list jsstring) : dbres (list row) :=
  Fulfilled (map student_row t).

Definition run (t : table) (sql : jsstring) (params : list jsstring) : dbres table :=
  if eqb sql INSERT_SQL then
    match params with
    | [n; h] =>
        if existsb (fun st => eqb (sname st) n) t then Failed unique_failed
        else Fulfilled (t ++ [Student (next_id t) n h])
    | _ => Failed (js "SQLITE_ERROR")
    end
  else if eqb sql DELETE_SQL then
    match params with
    | [id] => Fulfilled (filter (fun st => negb (has_id id st)) t)
    | _ => Failed (js "SQLITE_ERROR")
    end
  else if eqb sql UPDATE_SQL then
    match params with
    | [n; h; id] =>
        if existsb (fun st => eqb (sname st) n && negb (has_id id st)) t
        then Failed unique_failed
        else Fulfilled (map (fun st => if has_id id st then Student (sid st) n h else st) t)
    | _ => Failed (js "SQLITE_ERROR")
    end
  else Failed (js "SQLITE_ERROR").

(** The [query] of [url.parse] on its fast path: the text after the first
    question mark, [null] without one. *)
Definition query_simple (u : jsstring) : option jsstring :=
  match snd (Url.before_query u) with
  | [] => None
  | _ :: q => Some q
  end.

(** An engine that hands back the template text, and a serialiser that only
    counts the rows: the pages themselves are no concern of the handlers. *)
Definition services : Handlers.services table :=
  Services table get all run
    (fun template _ => Some template)
    (fun rows => repeat (ch "*") (List.length rows))
    query_simple.

Definition hogwarts : table :=
  [ Student 1 (js "Harry Potter") (js "Gryffindor");
    Student 2 (js "Draco Malfoy") (js "Slytherin") ].

(** The sample deployment with its three templates. *)
Definition site : runtime :=
  Disk.node (js "/srv/hogwarts")
    ((js "templates/students.html", Disk.File (Disk.bytes "<ul>{{#each students}}</ul>"))
     :: (js "templates/student-edit.html", Disk.File (Disk.bytes "<form>{{student.name}}</form>"))
     :: (js "templates/students-search.html", Disk.File (Disk.bytes "<input>"))
     :: sample_disk).

Definition POST (target : string) : IncomingMessage :=
  Request (js "POST") (js target) localhost.

(** A body that arrives in one chunk and ends. *)
Definition body (text : string) : list Utils.stream_event :=
  [Utils.data (Disk.bytes text); Utils.end_].

End Toy.

(** ** Vocabulary of the further statements *)

Import Handlers.

(** The pattern of a template without placeholder. *)
Definition literal_regex (t : jsstring) : regex := chain (Bol :: map Char t ++ [Eol]).

(** A segment [normalizeString] keeps as it is. *)
Definition kept (seg : jsstring) : bool := negb (eqb seg [] || eqb seg Path.dot).

(** A segment of a normalised absolute path. *)
Definition proper (seg : jsstring) : Prop :=
  seg <> [] /\ seg <> Path.dot /\ seg <> Path.dotdot /\ ~ In Path.slash seg.

(** The segments of the working directory, normalised, and below them the
    directory of the static files. *)
Definition root_segments (rt : runtime) : list jsstring :=
  rev (fold_left (Path.normalize_step false) (JS.split Path.slash (cwd rt)) [])
  ++ [js "public"].

(** The text after the prefix of a static request. *)
Definition static_rest (request : IncomingMessage) : jsstring :=
  replace_str (js "/public/") (js "") (url request).

(** An absolute path put together again from its normalised text. *)
Definition absolute_path (q : jsstring) (trailing : bool) : jsstring :=
  match q with
  | [] => [Path.slash]
  | _ :: _ => Path.slash :: (if trailing then q ++ [Path.slash] else q)
  end.

(** A character that stands for itself in a form body: ASCII, and none of
    the ampersand, the percent sign and the plus sign. *)
Definition field_char (c : N) : bool :=
  (c <=? 127)%N && negb (N.eqb c (ch "&")) && negb (N.eqb c (ch "%"))
  && negb (N.eqb c (ch "+")).

(** In a name, the equals sign is left out as well. *)
Definition name_char (c : N) : bool := field_char c && negb (N.eqb c (ch "=")).

Definition plain_field (kv : jsstring * jsstring) : bool :=
  forallb name_char (fst kv) && forallb field_char (snd kv).

(** A field as it stands in a body when nothing of it needs escaping, and
    the body of a list of fields. *)
Definition sequence (kv : jsstring * jsstring) : jsstring :=
  fst kv ++ js "=" ++ snd kv.

Definition form_text (fields : list (jsstring * jsstring)) : jsstring :=
  JS.join (js "&") (map sequence fields).

(** The statements the handlers hold as text. *)
Definition STATEMENTS : list jsstring :=
  [ EXISTS_SQL; INSERT_SQL;
    LIST_SQL; LIST_SQL ++ js " ORDER BY name ASC"; LIST_SQL ++ js " ORDER BY name DESC";
    DELETE_SQL; STUDENT_SQL; UPDATE_SQL; SEARCH_SQL; EXPORT_SQL ].

(** Two sets of services that answer alike on a database for the statements
    of the handlers, and alike in everything but the driver. *)
Definition alike {S} (svc svc' : services S) (db : S) : Prop :=
  (forall sql params, In sql STATEMENTS ->
     db_get svc db sql params = db_get svc' db sql params
     /\ db_all svc db sql params = db_all svc' db sql params
     /\ db_run svc db sql params = db_run svc' db sql params)
  /\ (forall template ctx, handlebars svc template ctx = handlebars svc' template ctx)
  /\ (forall rows, JSON_stringify svc rows = JSON_stringify svc' rows)
  /\ (forall u, url_query svc u = url_query svc' u).

(** A character the export leaves alone: neither the comma nor the line
    feed. *)
Definition csv_char (c : N) : bool := negb (N.eqb c (ch ",")) && negb (N.eqb c 10).

(** A cell the export prints without a comma or a line feed in it. *)
Definition csv_clean (cell : option value) : bool :=
  match cell with
  | Some (VText s) => forallb csv_char s
  | Some (VInt z) => safe_integer z
  | _ => true
  end.

(** A cell the export prints without a line feed in it; a comma may be
    there. *)
Definition line_clean (cell : option value) : bool :=
  match cell with
  | Some (VText s) => forallb (fun c => negb (N.eqb c 10)) s
  | Some (VInt z) => safe_integer z
  | _ => true
  end.

(** How often a character occurs in a text. *)
Definition occurrences (sep : N) (s : jsstring) : nat :=
  List.length (filter (N.eqb sep) s).

(** ** The [select] helper of the templates *)

(** The helper registered with the template engine marks an option of a
    rendered [select] element: it builds a pattern from the value to be
    selected and replaces the first match in the text of the block. *)

Definition quote : N := 34.

Inductive helper_result :=
| Rendered (html : jsstring)
| HelperThrew
| HelperNotModelled.

(** [' value="' + selected + '"'] *)
Definition option_value (selected : jsstring) : jsstring :=
  js " value=" ++ quote :: selected ++ [quote].

(** The replacement text, ['$& selected="selected"']. *)
Definition selected_mark : jsstring :=
  js "$& selected=" ++ quote :: js "selected" ++ [quote].

(** The helper, given the text [selected] turns into in the concatenation
    and the text [options.fn(this)] renders. *)
Definition select (selected inner : jsstring) : helper_result :=
  match RegExp_new (option_value selected) with
  | Compiled re =>
      match RegExp.replace re selected_mark inner with
      | Some html => Rendered html
      | None => HelperNotModelled
      end
  | SyntaxError => HelperThrew
  | Unsupported => HelperNotModelled
  end.

(** The attribute the helper adds. *)
Definition selected_attribute : jsstring :=
  js " selected=" ++ quote :: js "selected" ++ [quote].

(** ** Further sample inputs *)

(** The stand-in driver with a database that is locked for writing. *)
Definition busy : services Toy.table :=
  Services Toy.table Toy.get Toy.all
    (fun _ _ _ => Failed (js "SQLITE_BUSY: database is locked"))
    (handlebars Toy.services) (JSON_stringify Toy.services) Toy.query_simple.

(** The stand-in driver behind a guard that lets the statements of the
    handlers through and nothing else. *)
Definition guarded : services Toy.table :=
  Services Toy.table
    (fun t sql params =>
       if includes STATEMENTS sql then Toy.get t sql params else Failed (js "SQLITE_ERROR"))
    (fun t sql params =>
       if includes STATEMENTS sql then Toy.all t sql params else Failed (js "SQLITE_ERROR"))
    (fun t sql params =>
       if includes STATEMENTS sql then Toy.run t sql params else Failed (js "SQLITE_ERROR"))
    (handlebars Toy.services) (JSON_stringify Toy.services) Toy.query_simple.

(** A route whose template is no pattern. *)
Definition broken_route : route_def :=
  RouteDef (js "/files/:name.ext") [js "GET"] index.

(** * Properties *)

(** ** Strings *)

Section StringFacts.

Lemma eqb_refl (a : jsstring) : eqb a a = true.
Proof. induction a; simpl; [reflexivity | now rewrite N.eqb_refl]. Qed.

Lemma eqb_eq (a b : jsstring) : eqb a b = true <-> a = b.
Proof.
  split; [| intros ->; apply eqb_refl].
  revert b; induction a as [| x a IH]; intros [| y b]; simpl; try easy.
  intros H; apply andb_true_iff in H as [Hx Hab].
  apply N.eqb_eq in Hx; subst; f_equal; auto.
Qed.

Lemma eqb_neq (a b : jsstring) : eqb a b = false <-> a <> b.
Proof.
  split.
  - intros H E; apply eqb_eq in E; congruence.
  - intros H; destruct (eqb a b) eqn:E; [apply eqb_eq in E; contradiction | reflexivity].
Qed.

Lemma startsWith_app (p s : jsstring) : startsWith (p ++ s) p = true.
Proof. induction p; simpl; [reflexivity | now rewrite N.eqb_refl]. Qed.

Lemma startsWith_split (s p : jsstring) :
  startsWith s p = true -> s = p ++ skipn (List.length p) s.
Proof.
  revert s; induction p as [| c p IH]; intros s H; [reflexivity |].
  destruct s as [| x s]; simpl in H; [discriminate |].
  apply andb_true_iff in H as [Hx Hs]; apply N.eqb_eq in Hx; subst.
  simpl; f_equal; auto.
Qed.

Lemma endsWith_app (s p : jsstring) : endsWith (s ++ p) p = true.
Proof. unfold endsWith; rewrite rev_app_distr; apply startsWith_app. Qed.

Lemma skipn_length_app (p s : jsstring) : skipn (List.length p) (p ++ s) = s.
Proof. induction p; simpl; auto. Qed.

Lemma firstn_length_app (p s : jsstring) : firstn (List.length p) (p ++ s) = p.
Proof. induction p; simpl; [now destruct s | now f_equal]. Qed.

Lemma js_app (a b : string) : js (a ++ b) = js a ++ js b.
Proof.
  unfold js; induction a as [| c a IH]; simpl; [reflexivity | now rewrite IH].
Qed.

End StringFacts.

(** ** The matcher never runs out of rounds *)

Section MatcherFuel.

Lemma step_char_ext ok k1 k2 st :
  (forall st', k1 st' = k2 st') -> step_char ok k1 st = step_char ok k2 st.
Proof.
  intros H. unfold step_char. destruct (rest st) as [| c s]; [reflexivity |].
  destruct (ok c); auto.
Qed.

Lemma star_loop_ext round clr k1 k2 fuel st :
  (forall j1 j2 st', (forall st'', j1 st'' = j2 st'') -> round j1 st' = round j2 st') ->
  (forall st', k1 st' = k2 st') ->
  star_loop round clr k1 fuel st = star_loop round clr k2 fuel st.
Proof.
  intros Hround Hk. revert st; induction fuel as [| fuel IH]; intros st; cbn [star_loop].
  - apply Hk.
  - rewrite (Hk st). f_equal. apply Hround. intros st'.
    destruct (progress st st'); auto.
Qed.

(** A matcher uses its continuation only through the answers it gives. *)
Lemma m_ext r : forall k1 k2 st,
  (forall st', k1 st' = k2 st') -> m r k1 st = m r k2 st.
Proof.
  induction r as [| c | | neg items | | | r1 IH1 r2 IH2 | r1 IH1 r2 IH2
                  | r1 IH1 | r1 IH1 | r1 IH1 | i n r1 IH1];
    intros k1 k2 st Hk; cbn [m].
  - apply Hk.
  - now apply step_char_ext.
  - now apply step_char_ext.
  - now apply step_char_ext.
  - destruct (at_start st); auto.
  - destruct (rest st); auto.
  - apply IH1. intros st'. now apply IH2.
  - rewrite (IH1 k1 k2 st Hk), (IH2 k1 k2 st Hk). reflexivity.
  - apply star_loop_ext; [| assumption]. intros j1 j2 st' Hj. now apply IH1.
  - apply IH1. intros st'. apply star_loop_ext; [| assumption].
    intros j1 j2 st'' Hj. now apply IH1.
  - rewrite (Hk st). f_equal. apply IH1. intros st'. destruct (progress st st'); auto.
  - apply IH1. intros st'. apply Hk.
Qed.

(** Any two supplies of rounds beyond the length of the input give the same
    answer: the supply [m] hands to the loop is never what ends it. *)
Lemma star_loop_fuel r k n : forall fuel1 fuel2 st,
  List.length (rest st) <= n -> n < fuel1 -> n < fuel2 ->
  star_loop (m r) (clear_caps r) k fuel1 st = star_loop (m r) (clear_caps r) k fuel2 st.
Proof.
  induction n as [| n IH]; intros fuel1 fuel2 st Hlen H1 H2;
    (destruct fuel1 as [| f1]; [lia |]); (destruct fuel2 as [| f2]; [lia |]);
    cbn [star_loop]; f_equal; apply m_ext; intros st'; unfold progress;
    destruct (Nat.ltb_spec (List.length (rest st')) (List.length (rest st))); try reflexivity.
  - lia.
  - apply IH; lia.
Qed.

End MatcherFuel.

(** ** The pattern syntax on route templates *)

Section ParserFacts.

Lemma syntax_char_tests c :
  is_syntax_char c = false ->
  N.eqb c (ch "(") = false /\ N.eqb c (ch ")") = false /\ N.eqb c (ch "|") = false /\
  N.eqb c (ch "*") = false /\ N.eqb c (ch "+") = false /\ N.eqb c (ch "?") = false /\
  N.eqb c (ch "{") = false /\ N.eqb c (ch "\") = false /\ N.eqb c (ch "[") = false /\
  N.eqb c (ch ".") = false /\ N.eqb c (ch "^") = false /\ N.eqb c (ch "$") = false.
Proof.
  unfold is_syntax_char, syntax_chars, js. 
  cbn [existsb map list_ascii_of_string].
  intros H. repeat (apply orb_false_iff in H; destruct H as [? H]).
  repeat split; assumption.
Qed.

Lemma parse_plain_char c s st :
  p_mode st = MNormal -> is_syntax_char c = false ->
  parse (c :: s) st = parse s (add_item (Char c, true) st).
Proof.
  intros Hm Hc. destruct st as [md cur stack next alt]; simpl in Hm; subst md.
  apply syntax_char_tests in Hc.
  destruct Hc as (H1 & H2 & H3 & H4 & H5 & H6 & H7 & H8 & H9 & H10 & H11 & H12).
  cbn [parse p_mode]. unfold quantifier_of.
  rewrite H1, H2, H3, H4, H5, H6, H7, H8, H9, H10, H11, H12. reflexivity.
Qed.

Lemma add_chars_eq l kind alts sq stack next alt :
  add_chars l (PState MNormal (Frame kind alts sq) stack next alt)
  = PState MNormal (Frame kind alts (rev (map char_item l) ++ sq)) stack next alt.
Proof.
  revert sq; induction l as [| c l IH]; intros sq; [reflexivity |].
  change (add_chars (c :: l) ?st) with (add_chars l (add_item (char_item c) st)).
  unfold add_item; cbn [p_cur f_kind f_alts f_seq p_stack p_next p_alt].
  rewrite IH. cbn [map rev]. now rewrite <- app_assoc.
Qed.

Lemma add_chars_mode l st : p_mode st = MNormal -> p_mode (add_chars l st) = MNormal.
Proof.
  revert st; induction l as [| c l IH]; intros st H; [assumption |].
  simpl. apply IH. reflexivity.
Qed.

Lemma parse_plain l s st :
  p_mode st = MNormal -> plain l = true ->
  parse (l ++ s) st = parse s (add_chars l st).
Proof.
  revert st; induction l as [| c l IH]; intros st Hm Hl; [reflexivity |].
  simpl in Hl. apply andb_true_iff in Hl as [Hc Hl]. apply negb_true_iff in Hc.
  simpl app. rewrite parse_plain_char by assumption.
  rewrite IH by (try assumption; reflexivity). reflexivity.
Qed.

Lemma parse_group_name name acc s cur stack next alt :
  forallb (fun c => negb (N.eqb c (ch ">"))) name = true ->
  parse (name ++ ch ">" :: s) (PState (MGroupName acc) cur stack next alt)
  = parse (ch ">" :: s) (PState (MGroupName (rev name ++ acc)) cur stack next alt).
Proof.
  revert acc; induction name as [| c name IH]; intros acc H; [reflexivity |].
  cbn [forallb] in H. apply andb_true_iff in H as [Hc H]. apply negb_true_iff in Hc.
  simpl app. cbn [parse p_mode]. rewrite Hc. unfold set_mode; cbn [p_cur p_stack p_next p_alt].
  rewrite IH by assumption. now rewrite <- app_assoc.
Qed.

Lemma is_word_ascii c : is_word c = true -> (c <? 128)%N = true /\ N.eqb c (ch "\") = false /\ N.eqb c (ch ">") = false /\ is_id_part c = true.
Proof.
  unfold is_word, is_id_part, is_id_start, is_digit, between. intros H.
  change (ch "\") with 92%N. change (ch ">") with 62%N.
  repeat rewrite orb_true_iff in H. repeat rewrite andb_true_iff in H.
  repeat rewrite N.leb_le in H. rewrite N.eqb_eq in H.
  assert (Hlt : (c < 128)%N) by lia.
  repeat split.
  - now apply N.ltb_lt.
  - apply N.eqb_neq. lia.
  - apply N.eqb_neq. lia.
  - destruct H as [[[H | H] | H] | H].
    + assert (E: ((97 <=? c) && (c <=? 122))%N = true) by (apply andb_true_iff; split; apply N.leb_le; lia).
      rewrite E. reflexivity.
    + assert (E: ((65 <=? c) && (c <=? 90))%N = true) by (apply andb_true_iff; split; apply N.leb_le; lia).
      rewrite E. now rewrite !orb_true_r.
    + assert (E: ((48 <=? c) && (c <=? 57))%N = true) by (apply andb_true_iff; split; apply N.leb_le; lia).
      rewrite E. now rewrite !orb_true_r.
    + subst c. reflexivity.
Qed.

Lemma seq_of_chain items : seq_of items = chain (map fst (rev items)).
Proof.
  unfold seq_of, chain. rewrite <- fold_left_rev_right.
  induction (rev items) as [| it l IH]; [reflexivity |]. simpl. now rewrite IH.
Qed.

Lemma groups_in_chars l rs : groups_in (chain (map Char l ++ rs)) = groups_in (chain rs).
Proof. induction l; simpl; auto. Qed.

Lemma identifier_name_ok name : identifier name = true -> check_group_name name = NameOk.
Proof.
  destruct name as [| c n]; [discriminate |]. unfold identifier. intros H.
  apply andb_true_iff in H as [Hc Hn].
  assert (Hw : forallb is_word (c :: n) = true).
  { cbn [forallb]. rewrite Hn, andb_true_r. unfold is_word.
    repeat rewrite orb_true_iff in Hc. repeat rewrite orb_true_iff. tauto. }
  unfold check_group_name.
  assert (E : existsb (fun c => (128 <=? c)%N || N.eqb c (ch "\")) (c :: n) = false).
  { clear Hc Hn. induction (c :: n) as [| x l IH]; [reflexivity |].
    cbn [forallb] in Hw. apply andb_true_iff in Hw as [Hx Hl].
    apply is_word_ascii in Hx as (Hlt & Hb & _ & _).
    cbn [existsb]. rewrite Hb, (IH Hl). apply N.ltb_lt in Hlt.
    destruct (N.leb_spec 128 x); [lia | reflexivity]. }
  rewrite E.
  assert (Hs : is_id_start c = true).
  { unfold is_id_start. repeat rewrite orb_true_iff in Hc. repeat rewrite orb_true_iff. tauto. }
  rewrite Hs. cbn [andb].
  replace (forallb is_id_part n) with true; [reflexivity |].
  symmetry. clear Hw E Hs Hc. induction n as [| x n IH]; [reflexivity |].
  cbn [forallb] in *. apply andb_true_iff in Hn as [Hx Hn].
  apply is_word_ascii in Hx as (_ & _ & _ & Hp). now rewrite Hp, IH.
Qed.

Lemma identifier_no_gt name :
  identifier name = true -> forallb (fun c => negb (N.eqb c (ch ">"))) name = true.
Proof.
  destruct name as [| c n]; [discriminate |]. unfold identifier. intros H.
  apply andb_true_iff in H as [Hc Hn].
  assert (Hw : forallb is_word (c :: n) = true).
  { cbn [forallb]. rewrite Hn, andb_true_r. unfold is_word.
    repeat rewrite orb_true_iff in Hc. repeat rewrite orb_true_iff. tauto. }
  clear Hc Hn. induction (c :: n) as [| x l IH]; [reflexivity |].
  cbn [forallb] in *. apply andb_true_iff in Hw as [Hx Hl].
  apply is_word_ascii in Hx as (_ & _ & Hg & _). now rewrite Hg, IH.
Qed.

Lemma parse_bol s : parse (ch "^" :: s) initial
  = parse s (PState MNormal (Frame GTop [] [(Bol, false)]) [] 0 false).
Proof. reflexivity. Qed.

Lemma parse_open_named y s cur stack next alt :
  N.eqb y (ch "=") || N.eqb y (ch "!") = false ->
  parse (ch "(" :: ch "?" :: ch "<" :: y :: s) (PState MNormal cur stack next alt)
  = parse (y :: s) (PState (MGroupName []) cur stack next alt).
Proof.
  intros H.
  change (parse (ch "(" :: ch "?" :: ch "<" :: y :: s) (PState MNormal cur stack next alt))
    with (if N.eqb y (ch "=") || N.eqb y (ch "!") then Unsupported
          else parse (y :: s) (PState (MGroupName []) cur stack next alt)).
  now rewrite H.
Qed.

Lemma parse_close_name acc s cur stack next alt :
  check_group_name (rev acc) = NameOk ->
  parse (ch ">" :: s) (PState (MGroupName acc) cur stack next alt)
  = parse s (PState MNormal (Frame (GCapture (S next) (Some (rev acc))) [] [])
               (cur :: stack) (S next) alt).
Proof.
  intros H.
  change (parse (ch ">" :: s) (PState (MGroupName acc) cur stack next alt))
    with (match check_group_name (rev acc) with
          | NameOk => parse s (PState MNormal (Frame (GCapture (S next) (Some (rev acc))) [] [])
                                 (cur :: stack) (S next) alt)
          | NameBad => SyntaxError
          | NameUnsupported => Unsupported
          end).
  now rewrite H.
Qed.

Lemma parse_word_dot_plus s i n parent stack next alt :
  parse (js "[\w.]+)" ++ s) (PState MNormal (Frame (GCapture i n) [] []) (parent :: stack) next alt)
  = parse s (PState MNormal
               (Frame (f_kind parent) (f_alts parent)
                  ((Group i n (Seq (Plus (Class false word_dot)) Empty), true) :: f_seq parent))
               stack next alt).
Proof. reflexivity. Qed.

Lemma parse_eol st :
  p_mode st = MNormal -> parse (js "$") st = finish (add_item (Eol, false) st).
Proof. destruct st as [md cur stack next alt]; simpl; intros ->; reflexivity. Qed.

Lemma seq_of_skeleton pre g post :
  seq_of ((Eol, false) :: rev (map char_item post) ++ (g, true)
            :: rev (map char_item pre) ++ [(Bol, false)])
  = chain (Bol :: map Char pre ++ g :: map Char post ++ [Eol]).
Proof.
  rewrite seq_of_chain. f_equal.
  change ((Eol, false) :: ?l) with ([(Eol, false)] ++ l).
  change ((g, true) :: ?l) with ([(g, true)] ++ l).
  rewrite !rev_app_distr, !rev_involutive. cbn [rev app].
  rewrite <- !app_assoc. cbn [app map fst].
  rewrite !map_app, !map_map. cbn [map fst char_item app].
  rewrite !map_app, !map_map. reflexivity.
Qed.

Lemma groups_in_skeleton pre name post :
  groups_in (skeleton_regex pre name post) = [(1, Some name)].
Proof.
  unfold skeleton_regex. change (chain (Bol :: ?l)) with (Seq Bol (chain l)).
  cbn [groups_in app]. rewrite groups_in_chars.
  change (chain (param_group name :: ?l)) with (Seq (param_group name) (chain l)).
  cbn [groups_in param_group app]. now rewrite groups_in_chars.
Qed.

Lemma RegExp_new_skeleton pre name post :
  plain pre = true -> plain post = true -> identifier name = true ->
  RegExp_new (js "^" ++ pre ++ js "(?<" ++ name ++ js ">[\w.]+)" ++ post ++ js "$")
  = Compiled (skeleton_regex pre name post).
Proof.
  intros Hpre Hpost Hname. unfold RegExp_new.
  change (js "^" ++ ?s) with (ch "^" :: s). rewrite parse_bol.
  rewrite parse_plain by (assumption || reflexivity).
  rewrite add_chars_eq.
  pose proof (identifier_no_gt name Hname) as Hgt.
  pose proof (identifier_name_ok name Hname) as Hok.
  destruct name as [| n0 name]; [discriminate |].
  assert (Hn0 : N.eqb n0 (ch "=") || N.eqb n0 (ch "!") = false).
  { unfold identifier in Hname. apply andb_true_iff in Hname as [Hc _].
    unfold between in Hc. change (ch "=") with 61%N. change (ch "!") with 33%N.
    repeat rewrite orb_true_iff in Hc. repeat rewrite andb_true_iff in Hc.
    repeat rewrite N.leb_le in Hc. rewrite N.eqb_eq in Hc.
    apply orb_false_iff; split; apply N.eqb_neq; lia. }
  change (js "(?<" ++ (n0 :: name) ++ ?s) with (ch "(" :: ch "?" :: ch "<" :: n0 :: name ++ s).
  rewrite parse_open_named by assumption.
  change (n0 :: name ++ ?s) with ((n0 :: name) ++ s).
  change (js ">[\w.]+)" ++ ?s) with (ch ">" :: js "[\w.]+)" ++ s).
  rewrite parse_group_name by assumption.
  rewrite app_nil_r.
  rewrite parse_close_name by (rewrite rev_involutive; assumption).
  rewrite rev_involutive.
  rewrite parse_word_dot_plus. cbn [f_kind f_alts f_seq].
  rewrite parse_plain by (assumption || reflexivity).
  rewrite add_chars_eq.
  rewrite parse_eol by reflexivity.
  unfold add_item, finish; cbn [p_mode p_cur p_stack p_next p_alt f_kind f_alts f_seq].
  unfold frame_regex; cbn [f_alts f_seq fold_left].
  match goal with
  | |- context [seq_of ?l] =>
      replace (seq_of l) with (skeleton_regex pre (n0 :: name) post)
        by (symmetry; exact (seq_of_skeleton pre (param_group (n0 :: name)) post))
  end.
  rewrite groups_in_skeleton. reflexivity.
Qed.

End ParserFacts.

(** ** The matcher on skeleton patterns *)

Section MatcherFacts.

Lemma m_chars l rs k s start cs :
  m (chain (map Char l ++ rs)) k (MState (l ++ s) start cs)
  = m (chain rs) k (MState s (after l start) cs).
Proof.
  revert start; induction l as [| c l IH]; intros start; [reflexivity |].
  cbn [map app chain fold_right m step_char rest caps]. rewrite N.eqb_refl.
  fold (chain (map Char l ++ rs)). rewrite IH. now destruct l.
Qed.

Lemma m_chars_mismatch l rs k s start cs :
  startsWith s l = false -> m (chain (map Char l ++ rs)) k (MState s start cs) = None.
Proof.
  revert s start; induction l as [| c l IH]; intros s start H; [discriminate |].
  cbn [map app chain fold_right m step_char rest caps].
  destruct s as [| x s]; [reflexivity |].
  cbn [step_char rest caps]. cbn [startsWith] in H. rewrite N.eqb_sym. destruct (N.eqb x c); [| reflexivity].
  fold (chain (map Char l ++ rs)). now apply IH.
Qed.

Lemma filter_all {A} (l : list A) : filter (fun _ => true) l = l.
Proof. induction l; simpl; congruence. Qed.

Lemma clear_caps_class n its st : clear_caps (Class n its) st = st.
Proof. destruct st. unfold clear_caps. cbn. now rewrite filter_all. Qed.

Lemma star_word_dot_greedy run tail k fuel start cs x :
  forallb wd run = true -> stops tail = true -> List.length run < fuel ->
  k (MState tail (after run start) cs) = Some x ->
  star_loop (m (Class false word_dot)) (clear_caps (Class false word_dot)) k fuel
            (MState (run ++ tail) start cs) = Some x.
Proof.
  revert fuel start; induction run as [| c run IH]; intros fuel start Hrun Htail Hfuel Hk.
  - destruct fuel as [| fuel]; [inversion Hfuel |].
    cbn [star_loop app]. rewrite clear_caps_class.
    destruct tail as [| t tail]; cbn [m step_char rest orelse]; [exact Hk |].
    cbn [stops] in Htail. apply negb_true_iff in Htail. unfold wd in Htail.
    rewrite Htail. exact Hk.
  - destruct fuel as [| fuel]; [inversion Hfuel |].
    cbn [forallb] in Hrun. apply andb_true_iff in Hrun as [Hc Hrun].
    cbn [star_loop app]. rewrite clear_caps_class. cbn [m step_char rest caps].
    unfold wd in Hc. rewrite Hc.
    assert (Hp : progress (MState (c :: run ++ tail) start cs) (MState (run ++ tail) false cs) = true).
    { unfold progress. cbn [rest List.length]. apply Nat.ltb_lt. lia. }
    rewrite Hp.
    match goal with |- orelse ?a _ = _ => assert (E : a = Some x) end.
    { apply (IH fuel false); try assumption.
      - cbn [List.length] in Hfuel. lia.
      - cbn [after] in Hk. now destruct run. }
    now rewrite E.
Qed.

Lemma firstn_minus_app (a b : jsstring) :
  firstn (List.length (a ++ b) - List.length b) (a ++ b) = a.
Proof.
  rewrite length_app.
  replace (List.length a + List.length b - List.length b) with (List.length a) by lia.
  apply firstn_length_app.
Qed.

Lemma consumed_app a b start start' cs cs' :
  consumed (MState (a ++ b) start cs) (MState b start' cs') = a.
Proof. apply firstn_minus_app. Qed.

Lemma plus_word_dot_greedy v tail k start cs x :
  v <> [] -> forallb wd v = true -> stops tail = true ->
  k (MState tail false cs) = Some x ->
  m (Plus (Class false word_dot)) k (MState (v ++ tail) start cs) = Some x.
Proof.
  intros Hv Hwd Htail Hk. destruct v as [| c v]; [contradiction |].
  cbn [forallb] in Hwd. apply andb_true_iff in Hwd as [Hc Hwd].
  cbn [m]. rewrite clear_caps_class. cbn [step_char rest app caps].
  unfold wd in Hc. rewrite Hc. cbn [rest].
  apply star_word_dot_greedy; try assumption.
  - rewrite length_app. lia.
  - now destruct v.
Qed.

Lemma plus_word_dot_none tail k start cs :
  stops tail = true -> m (Plus (Class false word_dot)) k (MState tail start cs) = None.
Proof.
  intros H. cbn [m]. rewrite clear_caps_class.
  destruct tail as [| c tail]; cbn [step_char rest]; [reflexivity |].
  cbn [stops] in H. apply negb_true_iff in H. unfold wd in H. now rewrite H.
Qed.

Lemma exec_from_hit r s i start st' :
  m r Some (MState s start []) = Some st' ->
  exec_from r s i start
  = Some (MatchResult i (firstn (List.length s - List.length (rest st')) s)
            (caps st') (named_groups (groups_in r) (caps st'))).
Proof. intros H. destruct s; cbn [exec_from]; now rewrite H. Qed.

Lemma exec_from_bol r s i : exec_from (Seq Bol r) s i false = None.
Proof. revert i; induction s as [| c s IH]; intros i; cbn [exec_from m at_start]; auto. Qed.

Lemma exec_from_miss_bol r s start :
  m (Seq Bol r) Some (MState s start []) = None -> exec_from (Seq Bol r) s 0 start = None.
Proof.
  intros H. destruct s as [| c s]; cbn [exec_from]; rewrite H; [reflexivity |].
  apply exec_from_bol.
Qed.

Lemma exec_skeleton_match pre name post v :
  v <> [] -> forallb wd v = true -> stops post = true ->
  exec (skeleton_regex pre name post) (pre ++ v ++ post)
  = Some (MatchResult 0 (pre ++ v ++ post) [(1, v)] [(name, Some v)]).
Proof.
  intros Hv Hwd Hpost. unfold exec.
  rewrite (@exec_from_hit _ _ 0 true (MState [] false [(1, v)])).
  - cbn [rest caps List.length]. rewrite Nat.sub_0_r, firstn_all.
    rewrite groups_in_skeleton. cbn. now rewrite Nat.eqb_refl || reflexivity.
  - unfold skeleton_regex. change (chain (Bol :: ?l)) with (Seq Bol (chain l)).
    cbn [m at_start]. rewrite m_chars.
    change (chain (param_group name :: ?l)) with (Seq (param_group name) (chain l)).
    cbn [m param_group].
    apply plus_word_dot_greedy; try assumption.
    rewrite consumed_app. unfold set_cap. cbn [rest at_start caps filter].
    rewrite <- (app_nil_r post) at 2. rewrite m_chars. now destruct post.
Qed.

Lemma exec_skeleton_empty pre name post :
  stops post = true -> exec (skeleton_regex pre name post) (pre ++ post) = None.
Proof.
  intros Hpost. unfold exec, skeleton_regex.
  change (chain (Bol :: ?l)) with (Seq Bol (chain l)).
  apply exec_from_miss_bol. cbn [m at_start]. rewrite m_chars.
  change (chain (param_group name :: ?l)) with (Seq (param_group name) (chain l)).
  cbn [m param_group]. now apply plus_word_dot_none.
Qed.

End MatcherFacts.

(** ** The substitution of the compiler loop *)

Section CompilerFacts.

Lemma placeholder_miss c pre rest' start :
  negb (N.eqb c (ch ":") && match pre with d :: _ => wd d | [] => false end) = true ->
  m placeholder Some (MState (c :: pre ++ ch ":" :: rest') start []) = None.
Proof.
  intros H.
  change (m placeholder Some (MState (c :: pre ++ ch ":" :: rest') start []))
    with (if N.eqb (ch ":") c
          then m (Plus (Class false word_dot))
                 (fun st' => Some (set_cap 1
                    (consumed (MState (pre ++ ch ":" :: rest') false []) st') st'))
                 (MState (pre ++ ch ":" :: rest') false [])
          else None).
  rewrite N.eqb_sym.
  destruct (N.eqb c (ch ":")) eqn:Ec; [| reflexivity].
  cbn [andb] in H. apply plus_word_dot_none.
  destruct pre as [| d pre]; [reflexivity | exact H].
Qed.

Lemma exec_placeholder pre name post i start :
  placeholder_free pre = true -> name <> [] -> forallb wd name = true -> stops post = true ->
  exec_from placeholder (pre ++ ch ":" :: name ++ post) i start
  = Some (MatchResult (i + List.length pre) (ch ":" :: name) [(1, name)] []).
Proof.
  intros Hpre Hname Hwd Hpost. revert i start.
  induction pre as [| c pre IH]; intros i start.
  - cbn [app]. rewrite (@exec_from_hit _ _ i start (MState post false [(1, name)])).
    + cbn [rest caps groups_in placeholder named_groups app].
      change (ch ":" :: name ++ post) with ((ch ":" :: name) ++ post).
      rewrite firstn_minus_app. cbn [List.length]. now rewrite Nat.add_0_r.
    + unfold placeholder. cbn [m step_char rest caps]. rewrite N.eqb_refl.
      apply plus_word_dot_greedy; try assumption.
      rewrite consumed_app. reflexivity.
  - cbn [placeholder_free] in Hpre. apply andb_true_iff in Hpre as [Hc Hpre].
    cbn [app exec_from]. rewrite placeholder_miss by assumption.
    rewrite (IH Hpre). cbn [List.length]. do 2 f_equal. lia.
Qed.

Lemma substitution_template mr str :
  GetSubstitution mr str 1 (js "(?<$1>[\w.]+)")
  = js "(?<" ++ cap_text 1 (captures mr) ++ js ">[\w.]+)".
Proof. reflexivity. Qed.

Lemma replace_placeholder pre name post :
  placeholder_free pre = true -> name <> [] -> forallb wd name = true -> stops post = true ->
  RegExp.replace placeholder (js "(?<$1>[\w.]+)") (pre ++ js ":" ++ name ++ post)
  = Some (pre ++ js "(?<" ++ name ++ js ">[\w.]+)" ++ post).
Proof.
  intros Hpre Hname Hwd Hpost. unfold RegExp.replace.
  change (group_names (groups_in placeholder)) with (@nil jsstring). cbv iota.
  unfold exec. change (js ":" ++ ?s) with (ch ":" :: s).
  rewrite exec_placeholder by assumption.
  cbn [RegExp.index RegExp.matched Nat.add]. f_equal.
  rewrite firstn_length_app. f_equal.
  change (List.length (groups_in placeholder)) with 1.
  replace (skipn (List.length pre + List.length (ch ":" :: name)) (pre ++ ch ":" :: name ++ post))
    with post.
  - rewrite substitution_template. cbn [captures cap_text cap_lookup Nat.eqb].
    now rewrite <- !app_assoc.
  - rewrite <- (skipn_length_app (pre ++ ch ":" :: name) post) at 1.
    rewrite length_app, <- app_assoc. reflexivity.
Qed.

Lemma pattern_source_placeholder pre name post :
  placeholder_free pre = true -> name <> [] -> forallb wd name = true -> stops post = true ->
  pattern_source (pre ++ js ":" ++ name ++ post)
  = Some (js "^" ++ pre ++ js "(?<" ++ name ++ js ">[\w.]+)" ++ post ++ js "$").
Proof.
  intros. unfold pattern_source. rewrite replace_placeholder by assumption.
  now rewrite <- !app_assoc.
Qed.

End CompilerFacts.

(** ** What a skeleton pattern matches, read backwards *)

Section MatcherInversion.

Lemma m_chars_inv l rs k s start cs x :
  m (chain (map Char l ++ rs)) k (MState s start cs) = Some x ->
  exists s1, s = l ++ s1 /\ m (chain rs) k (MState s1 (after l start) cs) = Some x.
Proof.
  intros H. destruct (startsWith s l) eqn:E.
  - apply startsWith_split in E. rewrite E in H. rewrite m_chars in H. eauto.
  - rewrite m_chars_mismatch in H by assumption. discriminate.
Qed.

Lemma star_word_dot_inv fuel s start cs k x :
  star_loop (m (Class false word_dot)) (clear_caps (Class false word_dot)) k fuel
            (MState s start cs) = Some x ->
  exists run tail, s = run ++ tail /\ forallb wd run = true
                   /\ k (MState tail (after run start) cs) = Some x.
Proof.
  revert s start; induction fuel as [| fuel IH]; intros s start H.
  - exists [], s. auto.
  - cbn [star_loop] in H. rewrite clear_caps_class in H.
    destruct s as [| c s]; cbn [m step_char rest caps orelse] in H.
    + exists [], []. auto.
    + destruct (class_matches false word_dot c) eqn:Ec.
      * destruct (progress (MState (c :: s) start cs) (MState s false cs)).
        -- match type of H with orelse ?a _ = _ => destruct a as [y |] eqn:Ea end.
           ++ cbn [orelse] in H. injection H as <-.
              apply IH in Ea as (run & tail & -> & Hrun & Hk).
              exists (c :: run), tail. repeat split.
              ** cbn [forallb]. unfold wd at 1. now rewrite Ec.
              ** cbn [after]. now destruct run.
           ++ exists [], (c :: s). auto.
        -- exists [], (c :: s). auto.
      * exists [], (c :: s). auto.
Qed.

Lemma plus_word_dot_inv s start cs k x :
  m (Plus (Class false word_dot)) k (MState s start cs) = Some x ->
  exists v tail, s = v ++ tail /\ v <> [] /\ forallb wd v = true
                 /\ k (MState tail false cs) = Some x.
Proof.
  intros H. cbn [m] in H. rewrite clear_caps_class in H.
  destruct s as [| c s]; cbn [step_char rest caps] in H; [discriminate |].
  destruct (class_matches false word_dot c) eqn:Ec; [| discriminate].
  cbn [rest] in H. apply star_word_dot_inv in H as (run & tail & -> & Hrun & Hk).
  exists (c :: run), tail. repeat split.
  - discriminate.
  - cbn [forallb]. unfold wd at 1. now rewrite Ec.
  - now destruct run.
Qed.

Lemma exec_from_bol_inv r s x :
  exec_from (Seq Bol r) s 0 true = Some x ->
  exists st', m (Seq Bol r) Some (MState s true []) = Some st'.
Proof.
  intros H. destruct (m (Seq Bol r) Some (MState s true [])) as [st' |] eqn:E; [eauto |].
  rewrite exec_from_miss_bol in H by assumption. discriminate.
Qed.

(** A skeleton pattern matches only the texts made of its literal parts
    around a non-empty run of parameter characters. *)
Lemma exec_skeleton_inv pre name post s x :
  exec (skeleton_regex pre name post) s = Some x ->
  exists v, v <> [] /\ forallb wd v = true /\ s = pre ++ v ++ post.
Proof.
  unfold exec, skeleton_regex. change (chain (Bol :: ?l)) with (Seq Bol (chain l)).
  intros H. apply exec_from_bol_inv in H as [st' H].
  cbn [m at_start] in H. apply m_chars_inv in H as (s1 & -> & H).
  change (chain (param_group name :: ?l)) with (Seq (param_group name) (chain l)) in H.
  cbn [m param_group] in H.
  apply plus_word_dot_inv in H as (v & tail & -> & Hv & Hwd & H).
  unfold set_cap in H. cbn [rest at_start caps] in H.
  apply m_chars_inv in H as (s3 & -> & H).
  cbn [chain fold_right m rest] in H. destruct s3; [| discriminate].
  exists v. rewrite app_nil_r. auto.
Qed.




End MatcherInversion.

(** ** Form bodies *)

Section FormFacts.

Import Utils.

Lemma split_nonempty (sep : N) (a : jsstring) : JS.split sep a <> [].
Proof.
  destruct a as [| c a]; cbn [JS.split]; [discriminate |].
  destruct (N.eqb c sep); [discriminate |].
  destruct (JS.split sep a); discriminate.
Qed.

Lemma split_app_sep (sep : N) (a b : jsstring) :
  JS.split sep (a ++ sep :: b) = JS.split sep a ++ JS.split sep b.
Proof.
  induction a as [| c a IH]; cbn [app JS.split].
  - now rewrite N.eqb_refl.
  - destruct (N.eqb c sep); [now rewrite IH |].
    rewrite IH. pose proof (split_nonempty sep a) as Hne.
    destruct (JS.split sep a) as [| seg segs]; [contradiction | reflexivity].
Qed.

(** Appending pair after pair to an empty [FormData] rebuilds the list of
    pairs, in order. *)
Lemma form_of_params_entries params : form_of_params params = params.
Proof.
  unfold form_of_params, FormData.new.
  rewrite <- (app_nil_l params) at 2.
  generalize (@nil (jsstring * jsstring)) as acc.
  induction params as [| [k v] params IH]; intros acc; cbn [fold_left].
  - now rewrite app_nil_r.
  - rewrite IH. unfold FormData.append. cbn [fst snd]. now rewrite <- app_assoc.
Qed.

Lemma parse_app_amp (a b : list N) :
  URLSearchParams.parse (a ++ ch "&" :: b)
  = URLSearchParams.parse a ++ URLSearchParams.parse b.
Proof. unfold URLSearchParams.parse. now rewrite split_app_sep, flat_map_app. Qed.

(** The pairs of a text come in the order of the text: those of the part
    before an ampersand, then those of the part after it. *)
Lemma new_app_amp (b1 b2 : jsstring) :
  URLSearchParams.new (b1 ++ js "&" ++ b2)
  = URLSearchParams.new b1 ++ URLSearchParams.parse b2.
Proof.
  unfold URLSearchParams.new. change (js "&" ++ b2) with (ch "&" :: b2).
  destruct b1 as [| c b1].
  - cbn [app]. change (N.eqb (ch "&") (ch "?")) with false. cbv iota.
    change (ch "&" :: b2) with ([] ++ ch "&" :: b2).
    now rewrite parse_app_amp.
  - cbn [app]. destruct (N.eqb c (ch "?")).
    + apply parse_app_amp.
    + change (c :: b1 ++ ch "&" :: b2) with ((c :: b1) ++ ch "&" :: b2).
      apply parse_app_amp.
Qed.

Lemma assoc_app {A} (k : jsstring) (l1 l2 : list (jsstring * A)) :
  assoc k (l1 ++ l2) = match assoc k l1 with Some v => Some v | None => assoc k l2 end.
Proof.
  induction l1 as [| [k' v] l1 IH]; cbn [app assoc]; [reflexivity |].
  destruct (eqb k' k); auto.
Qed.

Lemma assoc_absent {A} (k : jsstring) (l : list (jsstring * A)) :
  ~ In k (map fst l) -> assoc k l = None.
Proof.
  induction l as [| [k' v] l IH]; cbn [map fst In assoc]; [reflexivity |].
  intros H. destruct (eqb k' k) eqn:E.
  - apply eqb_eq in E. tauto.
  - apply IH. tauto.
Qed.

(** A stream that delivers its chunks and ends resolves the promise with the
    form made of all of them. *)
Lemma listen_chunks chunks acc :
  listen (map data chunks ++ [end_]) acc = Resolved (on_end (acc ++ chunks)).
Proof.
  revert acc; induction chunks as [| c chunks IH]; intros acc; cbn [map app listen].
  - now rewrite app_nil_r.
  - rewrite IH. now rewrite <- app_assoc.
Qed.

End FormFacts.

(** ** The route table at start-up *)

Import Utils.

(** The seven templates of the table compile, so the server starts. *)
Lemma routes_compile : compile_routes routes = Started compiled_routes.
Proof. reflexivity. Qed.

(** The pattern of the compiler loop is what its literal text compiles to. *)
Example placeholder_literal : RegExp_new (js ":([\w.]+)") = Compiled placeholder.
Proof. reflexivity. Qed.

Example path_join_inside :
  Path.join [js "/srv/app/public"; js "css/../style.css"] = js "/srv/app/public/style.css".
Proof. reflexivity. Qed.

Example path_join_above :
  Path.join [js "/srv/app/public"; js "../../../etc/passwd"] = js "/etc/passwd".
Proof. reflexivity. Qed.

Example path_extname_cases :
  map Path.extname [js "/a/b.tar.GZ"; js "/a/.bashrc"; js "/a.b/c"; js "/a/x."; js "/a/..x"]
  = [js ".GZ"; js ""; js ""; js "."; js ".x"].
Proof. reflexivity. Qed.

Example change_route_matches :
  handleRequest sample compiled_routes (GET "/students/7/change")
  = Invoked studentChange [(js "id", Some (js "7"))].
Proof. reflexivity. Qed.

Example unknown_page :
  handleRequest sample compiled_routes (GET "/nowhere")
  = Responded (not_found "<h1>Page not found!</h1>") (Log (js "GET") (js "/nowhere") 404).
Proof. reflexivity. Qed.

(** ** The static branch *)

(** An escape that leaves the text of the root behind is refused, whatever
    the file system holds. *)
Lemma static_outside_prefix rt table request pathname :
  url_parse rt (url request) = Url.Parsed pathname ->
  endsWith (url request) (js "/") = false ->
  startsWith (url request) (js "/public/") = true ->
  startsWith (resolved rt request) (PUBLIC_PATH rt) = false ->
  handleRequest rt table request
  = Responded (not_found "<h1>Not found!</h1>") (Log (method request) (url request) 404).
Proof.
  intros Hp He Hs Hout. unfold handleRequest. rewrite Hp, He, Hs.
  unfold serve_static. fold (resolved rt request). rewrite Hout. reflexivity.
Qed.

(** C1 (the code departs from the claim).  The claim: a static request whose
    resolved path lies outside the public root gets 404, also when the path
    lands in a sibling directory of the root.  The containment test of the
    code compares text: the resolved path must start with the root's path,
    with no separator demanded after it.  Here the request
    [/public/../public-old/notes.txt] resolves to a file of the sibling
    directory [public-old], which is not within [public], and the file is
    served with status 200. *)
Theorem static_sibling_directory_served :
  PUBLIC_PATH sample = js "/srv/hogwarts/public"
  /\ resolved sample (GET "/public/../public-old/notes.txt")
     = js "/srv/hogwarts/public-old/notes.txt"
  /\ within (PUBLIC_PATH sample) (resolved sample (GET "/public/../public-old/notes.txt")) = false
  /\ handleRequest sample compiled_routes (GET "/public/../public-old/notes.txt")
     = Responded (Response 200 [(js "Content-Type", js "application/octet-stream")]
                    (Bytes (Disk.bytes "secret")))
                 (Log (js "GET") (js "/public/../public-old/notes.txt") 200).
Proof. repeat split; reflexivity. Qed.

(** C7 (the code departs from the claim).  The claim: when the existence
    check succeeds and the read that follows fails, the dispatcher answers
    with a failure response and no error goes uncaught.  In the code the
    rejection of [fs.readFile] is not handled: the promise of the listener is
    rejected and no response is written.  A directory under the root shows it
    without any race: [fs.access] is fulfilled for it and [fs.readFile] is
    not. *)
Theorem failed_read_goes_uncaught :
  fs_access sample (resolved sample (GET "/public/images")) = true
  /\ fs_readFile sample (resolved sample (GET "/public/images")) = None
  /\ handleRequest sample compiled_routes (GET "/public/images")
     = UncaughtRejection ReadFileFailed.
Proof. repeat split; reflexivity. Qed.

(** The same for every runtime and request: a static request that passes
    both checks and whose read fails ends in the uncaught rejection. *)
Lemma failed_read_always_uncaught rt table request pathname :
  url_parse rt (url request) = Url.Parsed pathname ->
  endsWith (url request) (js "/") = false ->
  startsWith (url request) (js "/public/") = true ->
  startsWith (resolved rt request) (PUBLIC_PATH rt) = true ->
  fs_access rt (resolved rt request) = true ->
  fs_readFile rt (resolved rt request) = None ->
  handleRequest rt table request = UncaughtRejection ReadFileFailed.
Proof.
  intros Hp He Hs Hin Ha Hr. unfold handleRequest. rewrite Hp, He, Hs.
  unfold serve_static. fold (resolved rt request). rewrite Hin, Ha, Hr. reflexivity.
Qed.

(** ** The trailing-slash redirect *)

(** Whatever the path component and the route table, a request target that
    ends in a slash is answered with the redirect. *)
Lemma trailing_slash_redirects rt table request pathname :
  url_parse rt (url request) = Url.Parsed pathname ->
  endsWith (url request) (js "/") = true ->
  handleRequest rt table request
  = Responded (Response 301
                 [(js "Location",
                   js "http://" ++ interpolate (host request) ++ slice_0_m1 (url request))]
                 NoChunk)
              (Log (method request) (url request) 301).
Proof. intros Hp He. unfold handleRequest. now rewrite Hp, He. Qed.

(** C2 (the code departs from the claim).  The claim: a path ending in a
    slash is redirected with 301 to the path without it, except the bare
    root, which goes through the route table.  The code makes no exception:
    [GET /] is answered with 301 and a [Location] with an empty path, and the
    [index] route, which the table holds for that very path and which the
    route loop would select, is never reached. *)
Theorem bare_root_is_redirected :
  handleRequest sample compiled_routes (GET "/")
  = Responded (Response 301 [(js "Location", js "http://localhost:8000")] NoChunk)
              (Log (js "GET") (js "/") 301)
  /\ scan compiled_routes (GET "/") (js "/") = Invoked index [].
Proof. split; reflexivity. Qed.

(** Three requests with a query string: [/students?q=/] has the path
    component [/students], which does not end in a slash, and is redirected
    all the same; [/students?order=abc] reaches the [/students] route; and
    [/public/style.css?v=1] is looked up on disk with its query string, so
    that the style sheet [/public/style.css] serves is not found. *)
Example requests_with_a_query_string :
  Url.parse_simple (js "/students?q=/") = Url.Parsed (Some (js "/students"))
  /\ endsWith (js "/students") (js "/") = false
  /\ handleRequest sample compiled_routes (GET "/students?q=/")
     = Responded (Response 301 [(js "Location", js "http://localhost:8000/students?q=")] NoChunk)
                 (Log (js "GET") (js "/students?q=/") 301)
  /\ Url.parse_simple (js "/students?order=abc") = Url.Parsed (Some (js "/students"))
  /\ handleRequest sample compiled_routes (GET "/students?order=abc")
     = Invoked studentList []
  /\ resolved sample (GET "/public/style.css?v=1") = js "/srv/hogwarts/public/style.css?v=1"
  /\ handleRequest sample compiled_routes (GET "/public/style.css?v=1")
     = Responded (not_found "<h1>Not found!</h1>")
                 (Log (js "GET") (js "/public/style.css?v=1") 404)
  /\ handleRequest sample compiled_routes (GET "/public/style.css")
     = Responded (Response 200 [(js "Content-Type", js "text/css")]
                    (Bytes (Disk.bytes "body{}")))
                 (Log (js "GET") (js "/public/style.css") 200).
Proof. repeat split; reflexivity. Qed.

(** ** The redirect helper *)

Lemma int32_small (z : Z) : (100 <= z <= 999)%Z -> int32 z = z.
Proof. intros H. unfold int32. rewrite Z.mod_small; lia. Qed.

Lemma check_location (value : jsstring) :
  check_headers [(js "Location", value)]
  = if forallb header_char value then None else Some ERR_INVALID_CHAR.
Proof.
  cbn [check_headers]. change (valid_name (js "Location")) with true. cbn [negb].
  destruct (forallb header_char value); reflexivity.
Qed.

(** C8, counterexamples.  The claim speaks of every request, path and
    status.  With the status 0, and with a line feed in the path,
    [writeHead] throws and the helper writes nothing; and for a request
    without a [Host] header the [Location] is made of the word
    [undefined]. *)
Lemma redirect_may_write_nothing :
  writeHead_end (redirect (GET "/old") (js "/students") (Some 0%Z))
  = WriteHeadThrew ERR_HTTP_INVALID_STATUS_CODE
  /\ writeHead_end (redirect (GET "/old") (js "/students" ++ [10%N] ++ js "X: y") None)
     = WriteHeadThrew ERR_INVALID_CHAR
  /\ writeHead_end (redirect (Request (js "GET") (js "/old") None) (js "/students") None)
     = Written (Response 302 [(js "Location", js "http://undefined/students")] NoChunk).
Proof. repeat split; reflexivity. Qed.

(** C8, as amended.  What the helper writes, for every request, path and
    status: take the status it is given, 302 when it is given none, as a
    32-bit integer.  Outside 100..999 nothing is written, [writeHead]
    throws.  Otherwise the [Location] is [http://], the text of the [Host]
    header ([undefined] for a request without one) and the path; when the
    header text or the path holds a character no header value may hold,
    [writeHead] throws as well; and when they do not, the response goes out
    with that status, this one header and no body.  In particular, with a
    [Host] header, a status from 100 to 999 and clean text, the status is
    the one given and the [Location] is [http://] with the host and the
    path. *)
Theorem redirect_writes_location
        (request : IncomingMessage) (path : jsstring) (status : option Z) :
  writeHead_end (redirect request path status)
  = (let code := int32 (match status with Some c => c | None => 302%Z end) in
     if negb (valid_status code) then WriteHeadThrew ERR_HTTP_INVALID_STATUS_CODE
     else if forallb header_char (interpolate (host request)) && forallb header_char path
     then Written (Response code
                     [(js "Location", js "http://" ++ interpolate (host request) ++ path)]
                     NoChunk)
     else WriteHeadThrew ERR_INVALID_CHAR)
  /\ (forall h code,
        host request = Some h ->
        (status = Some code \/ status = None /\ code = 302%Z) ->
        (100 <= code <= 999)%Z ->
        forallb header_char h = true -> forallb header_char path = true ->
        writeHead_end (redirect request path status)
        = Written (Response code [(js "Location", js "http://" ++ h ++ path)] NoChunk)).
Proof.
  assert (G : writeHead_end (redirect request path status)
              = (let code := int32 (match status with Some c => c | None => 302%Z end) in
                 if negb (valid_status code) then WriteHeadThrew ERR_HTTP_INVALID_STATUS_CODE
                 else if forallb header_char (interpolate (host request))
                         && forallb header_char path
                 then Written (Response code
                                 [(js "Location",
                                   js "http://" ++ interpolate (host request) ++ path)]
                                 NoChunk)
                 else WriteHeadThrew ERR_INVALID_CHAR)).
  { unfold writeHead_end, redirect. cbn [statusCode headers body]. cbv zeta.
    destruct (valid_status _); cbn [negb]; [| reflexivity].
    rewrite check_location, !forallb_app.
    change (forallb header_char (js "http://")) with true. cbn [andb].
    destruct (forallb header_char (interpolate (host request)) && forallb header_char path);
      reflexivity. }
  split; [exact G |].
  intros h code Hh Hcode Hrange Hhost Hpath. rewrite G, Hh. cbn [interpolate]. cbv zeta.
  assert (E : match status with Some c => c | None => 302%Z end = code).
  { destruct Hcode as [-> | [-> ->]]; reflexivity. }
  rewrite E, (int32_small code Hrange), Hhost, Hpath. cbn [andb].
  assert (V : valid_status code = true).
  { unfold valid_status. apply andb_true_iff. split; apply Z.leb_le; lia. }
  now rewrite V.
Qed.

Example index_redirects_to_the_listing :
  redirect (GET "/?from=mail") (js "/students") None
  = Response 302 [(js "Location", js "http://localhost:8000/students")] NoChunk.
Proof. reflexivity. Qed.

(** ** The form-body parser *)

(** C3, counterexample.  The claim says that the last occurrence of a
    repeated field wins.  For the body [house=Gryffindor&house=Slytherin] the
    parser resolves with both entries and [get] answers with the first. *)
Lemma repeated_field_last_value_lost :
  parseFormData [data (Disk.bytes "house=Gryffindor&house=Slytherin"); end_]
  = Resolved [(js "house", js "Gryffindor"); (js "house", js "Slytherin")]
  /\ FormData.get [(js "house", js "Gryffindor"); (js "house", js "Slytherin")] (js "house")
     = Some (js "Gryffindor")
  /\ FormData.get [(js "house", js "Gryffindor"); (js "house", js "Slytherin")] (js "house")
     <> Some (js "Slytherin").
Proof. repeat split; try reflexivity. discriminate. Qed.

(** C3, as amended: the first occurrence wins.  Whatever the body, in
    whatever chunks: when the fields the parser finds in it, in the order of
    the body, hold the name [k] a first time with the value [v1] and again
    later, the form holds every one of these fields, a lookup of [k] answers
    with [v1], and the later values of [k] are only reached through
    [getAll], behind [v1]. *)
Theorem repeated_field_first_value_wins
        (chunks : list Buffer.t) (before rest : list (jsstring * jsstring))
        (k v1 : jsstring) :
  URLSearchParams.new (Buffer.toString (Buffer.concat chunks)) = before ++ (k, v1) :: rest ->
  ~ In k (map fst before) ->
  In k (map fst rest) ->
  exists fd,
    parseFormData (map data chunks ++ [end_]) = Resolved fd
    /\ fd = before ++ (k, v1) :: rest
    /\ FormData.get fd k = Some v1
    /\ FormData.getAll fd k = v1 :: map snd (filter (fun e => eqb (fst e) k) rest)
    /\ 2 <= List.length (FormData.getAll fd k).
Proof.
  intros Hbody Hbefore Hrest. exists (on_end chunks).
  assert (E : on_end chunks = before ++ (k, v1) :: rest).
  { unfold on_end. now rewrite form_of_params_entries. }
  assert (G : FormData.getAll (before ++ (k, v1) :: rest) k
              = v1 :: map snd (filter (fun e => eqb (fst e) k) rest)).
  { unfold FormData.getAll. rewrite filter_app.
    assert (F : filter (fun e => eqb (fst e) k) before = []).
    { clear - Hbefore. induction before as [| [k' v] before IH]; [reflexivity |].
      cbn [map fst In] in Hbefore. cbn [filter fst].
      destruct (eqb k' k) eqn:Ek; [apply eqb_eq in Ek; tauto |]. apply IH. tauto. }
    rewrite F. cbn [app filter fst]. now rewrite eqb_refl. }
  split; [unfold parseFormData; now rewrite listen_chunks |].
  rewrite E. split; [reflexivity |]. split; [| split; [exact G |]].
  - unfold FormData.get. rewrite assoc_app, (assoc_absent k before Hbefore).
    cbn [assoc]. now rewrite eqb_refl.
  - rewrite G. cbn [List.length]. apply le_n_S.
    apply in_map_iff in Hrest as ([k' v] & Ek & Hin). cbn [fst] in Ek. subst k'.
    assert (Hf : In (k, v) (filter (fun e => eqb (fst e) k) rest)).
    { apply filter_In. split; [exact Hin | apply eqb_refl]. }
    destruct (filter (fun e => eqb (fst e) k) rest); [destruct Hf | cbn; lia].
Qed.

Lemma repeated_field_first_value_wins_witness :
  exists fd,
    parseFormData (map data [Disk.bytes "house=Gryffindor&na"; Disk.bytes "me=Ron&house=Slytherin"]
                     ++ [end_]) = Resolved fd
    /\ fd = [] ++ (js "house", js "Gryffindor")
               :: [(js "name", js "Ron"); (js "house", js "Slytherin")]
    /\ FormData.get fd (js "house") = Some (js "Gryffindor")
    /\ FormData.getAll fd (js "house")
       = js "Gryffindor"
           :: map snd (filter (fun e => eqb (fst e) (js "house"))
                         [(js "name", js "Ron"); (js "house", js "Slytherin")])
    /\ 2 <= List.length (FormData.getAll fd (js "house")).
Proof.
  apply (repeated_field_first_value_wins
           [Disk.bytes "house=Gryffindor&na"; Disk.bytes "me=Ron&house=Slytherin"]
           [] [(js "name", js "Ron"); (js "house", js "Slytherin")]
           (js "house") (js "Gryffindor")).
  - reflexivity.
  - intros [].
  - right. left. reflexivity.
Defined.

(** C9.  The body [name=Harry+Potter&house=Gryffindor], in whatever chunks
    it arrives, parses to the two entries with the plus sign read as a space;
    a lookup of any other name answers [null] (here [None]); and for every
    stream, a name that is not among the parsed entries is answered with
    [None] as well: [get] has no failing case. *)
Theorem harry_potter_body (chunks : list Buffer.t) :
  Buffer.concat chunks = Disk.bytes "name=Harry+Potter&house=Gryffindor" ->
  exists fd,
    parseFormData (map data chunks ++ [end_]) = Resolved fd
    /\ fd = [(js "name", js "Harry Potter"); (js "house", js "Gryffindor")]
    /\ FormData.get fd (js "name") = Some (js "Harry Potter")
    /\ FormData.get fd (js "house") = Some (js "Gryffindor")
    /\ (forall k, k <> js "name" -> k <> js "house" -> FormData.get fd k = None)
    /\ (forall stream fd' k,
          parseFormData stream = Resolved fd' -> ~ In k (map fst fd') ->
          FormData.get fd' k = None).
Proof.
  intros Hbody. exists (on_end chunks).
  assert (E : on_end chunks = [(js "name", js "Harry Potter"); (js "house", js "Gryffindor")]).
  { unfold on_end. rewrite Hbody. reflexivity. }
  split; [unfold parseFormData; now rewrite listen_chunks |].
  rewrite E. repeat split; try reflexivity.
  - intros k Hn Hh. unfold FormData.get. cbn [assoc].
    apply not_eq_sym, eqb_neq in Hn. apply not_eq_sym, eqb_neq in Hh.
    now rewrite Hn, Hh.
  - intros stream fd' k _ Hk. now apply assoc_absent.
Qed.

Lemma harry_potter_body_witness :
  exists fd,
    parseFormData (map data [Disk.bytes "name=Harry+"; Disk.bytes "Potter&house=Gryffindor"]
                     ++ [end_]) = Resolved fd
    /\ fd = [(js "name", js "Harry Potter"); (js "house", js "Gryffindor")]
    /\ FormData.get fd (js "name") = Some (js "Harry Potter")
    /\ FormData.get fd (js "house") = Some (js "Gryffindor")
    /\ (forall k, k <> js "name" -> k <> js "house" -> FormData.get fd k = None)
    /\ (forall stream fd' k,
          parseFormData stream = Resolved fd' -> ~ In k (map fst fd') ->
          FormData.get fd' k = None).
Proof.
  apply (harry_potter_body [Disk.bytes "name=Harry+"; Disk.bytes "Potter&house=Gryffindor"]).
  reflexivity.
Defined.

(** X26.  A stream that fails before its end rejects the promise with the
    error of the stream, whatever chunks came before and whatever follows;
    the parser writes no response of its own. *)
Lemma stream_error_rejects chunks e later :
  parseFormData (map data chunks ++ error e :: later) = Rejected e.
Proof.
  unfold parseFormData. generalize (@nil Buffer.t) as acc.
  induction chunks as [| c chunks IH]; intros acc; cbn [map app listen]; auto.
Qed.

(** ** Route templates with a parameter *)

Lemma is_word_wd c : is_word c = true -> wd c = true.
Proof. intros H. unfold wd, class_matches, word_dot. cbn [existsb item_matches]. now rewrite H. Qed.

Lemma identifier_wd name :
  identifier name = true -> name <> [] /\ forallb wd name = true.
Proof.
  destruct name as [| c n]; [discriminate |]. unfold identifier. intros H.
  apply andb_true_iff in H as [Hc Hn]. split; [discriminate |].
  cbn [forallb]. apply andb_true_iff. split.
  - apply is_word_wd. unfold is_word.
    repeat rewrite orb_true_iff in Hc. repeat rewrite orb_true_iff. tauto.
  - clear Hc. induction n as [| x n IH]; [reflexivity |].
    cbn [forallb] in *. apply andb_true_iff in Hn as [Hx Hn].
    now rewrite (is_word_wd _ Hx), IH.
Qed.

(** The pattern of a template with literal text around its first
    placeholder. *)
Lemma compile_pattern_skeleton pre name post :
  plain pre = true -> plain post = true -> placeholder_free pre = true ->
  identifier name = true -> stops post = true ->
  compile_pattern (pre ++ js ":" ++ name ++ post) = Compiled (skeleton_regex pre name post).
Proof.
  intros Hpre Hpost Hfree Hname Hstop.
  destruct (identifier_wd name Hname) as [Hne Hwd].
  unfold compile_pattern. rewrite pattern_source_placeholder by assumption.
  now apply RegExp_new_skeleton.
Qed.

(** C4, counterexamples.  The claim speaks of every template with one
    parameter.  Literal text goes into the pattern as it is, so in
    [/a+b/:id] the plus sign is a quantifier, and the path [/a+b/7], which is
    the template with [7] in the place of the parameter, is not matched; and
    the name of the placeholder of [/files/:name.ext], which the compiler
    reads as [name.ext], is no group name, so that this template has no
    pattern at all. *)
Lemma template_with_pattern_syntax_fails :
  route_exec (js "/a+b/:id") (js "/a+b/7") = Some None
  /\ compile_pattern (js "/files/:name.ext") = SyntaxError
  /\ route_exec (js "/files/:name.ext") (js "/files/notes.txt") = None.
Proof. repeat split; reflexivity. Qed.

(** C4, as amended.  Take a template made of literal text without pattern
    syntax around one placeholder whose name is an identifier: the text
    before has no placeholder of its own and the text after does not go on
    with a name character.  Then the pattern compiles; a path with a
    non-empty run of characters of [A-Za-z0-9_.] in the place of the
    placeholder is matched from its first to its last character, with the
    name bound to exactly that run; and the path with nothing in that place
    is not matched. *)
Theorem one_parameter_template (pre name post v : jsstring) :
  plain pre = true -> plain post = true -> placeholder_free pre = true ->
  identifier name = true -> stops post = true ->
  v <> [] -> forallb wd v = true ->
  route_exec (pre ++ js ":" ++ name ++ post) (pre ++ v ++ post)
  = Some (Some (MatchResult 0 (pre ++ v ++ post) [(1, v)] [(name, Some v)]))
  /\ route_exec (pre ++ js ":" ++ name ++ post) (pre ++ post) = Some None.
Proof.
  intros Hpre Hpost Hfree Hname Hstop Hv Hwd. unfold route_exec.
  rewrite compile_pattern_skeleton by assumption. split.
  - now rewrite exec_skeleton_match.
  - now rewrite exec_skeleton_empty.
Qed.

Lemma one_parameter_template_witness :
  route_exec (js "/students/:id/change") (js "/students/7.b/change")
  = Some (Some (MatchResult 0 (js "/students/7.b/change") [(1, js "7.b")]
                  [(js "id", Some (js "7.b"))]))
  /\ route_exec (js "/students/:id/change") (js "/students//change") = Some None.
Proof.
  apply (one_parameter_template (js "/students/") (js "id") (js "/change") (js "7.b"));
    try reflexivity.
  discriminate.
Defined.

(** The dispatcher hands the handler of such a route exactly that binding. *)
Lemma one_parameter_route_dispatch rt d re later request pathname v :
  url_parse rt (url request) = Url.Parsed (Some pathname) ->
  endsWith (url request) (js "/") = false ->
  startsWith (url request) (js "/public/") = false ->
  includes (methods d) (method request) = true ->
  exec re pathname = Some v ->
  handleRequest rt (Route d re :: later) request = Invoked (handler d) (groups v).
Proof.
  intros Hp He Hs Hm Hx. unfold handleRequest. rewrite Hp, He, Hs.
  cbn [scan pathname_text pattern def]. now rewrite Hx, Hm.
Qed.

(** ** Templates with several placeholders *)



(** ** Method matching *)

(** The route loop stops at the first route whose pattern matches. *)
Lemma scan_first_match before hit later request pathname :
  forallb (misses pathname) before = true ->
  misses pathname hit = false ->
  scan (before ++ hit :: later) request pathname = scan [hit] request pathname.
Proof.
  intros Hb Hr. induction before as [| r before IH]; cbn [app].
  - unfold misses in Hr. cbn [scan].
    destruct (exec (pattern hit) pathname); [reflexivity | discriminate].
  - cbn [forallb] in Hb. apply andb_true_iff in Hb as [Hm Hb].
    cbn [scan]. unfold misses in Hm.
    destruct (exec (pattern r) pathname); [discriminate | auto].
Qed.

(** C5, counterexample.  The claim speaks of every request whose path
    matches a route that does not allow its method.  [DELETE /students?q=/]
    is one: its path component is [/students], and the route loop, were it
    reached, would answer 405.  The slash test comes first and reads the
    whole request target, so the answer is the redirect. *)
Lemma method_check_behind_the_redirect :
  Url.parse_simple (js "/students?q=/") = Url.Parsed (Some (js "/students"))
  /\ scan compiled_routes (Request (js "DELETE") (js "/students?q=/") localhost) (js "/students")
     = Responded (Response 405 [] NoChunk) (Log (js "DELETE") (js "/students?q=/") 405)
  /\ handleRequest sample compiled_routes (Request (js "DELETE") (js "/students?q=/") localhost)
     = Responded (Response 301 [(js "Location", js "http://localhost:8000/students?q=")] NoChunk)
                 (Log (js "DELETE") (js "/students?q=/") 301).
Proof. repeat split; reflexivity. Qed.

(** C5, as amended.  For a request that reaches the route loop (its target
    neither ends in a slash nor starts with [/public/]): when the first route
    whose pattern matches the path does not allow the method, the answer is
    405 with no header and no body, no handler is called, and the routes
    after it, whatever they are, have no say. *)
Theorem first_path_match_decides
        (rt : runtime) (before : list route) (hit : route) (later : list route)
        (request : IncomingMessage) (pathname : option jsstring) :
  url_parse rt (url request) = Url.Parsed pathname ->
  endsWith (url request) (js "/") = false ->
  startsWith (url request) (js "/public/") = false ->
  forallb (misses (pathname_text pathname)) before = true ->
  misses (pathname_text pathname) hit = false ->
  includes (methods (def hit)) (method request) = false ->
  handleRequest rt (before ++ hit :: later) request
  = Responded (Response 405 [] NoChunk) (Log (method request) (url request) 405).
Proof.
  intros Hp He Hs Hb Hr Hm. unfold handleRequest. rewrite Hp, He, Hs.
  rewrite scan_first_match by assumption.
  cbn [scan]. unfold misses in Hr.
  destruct (exec (pattern hit) (pathname_text pathname)); [| discriminate].
  now rewrite Hm.
Qed.

Lemma first_path_match_decides_witness :
  handleRequest sample (firstn 3 compiled_routes ++ change_route :: skipn 4 compiled_routes)
                (Request (js "PUT") (js "/students/7/change") localhost)
  = Responded (Response 405 [] NoChunk) (Log (js "PUT") (js "/students/7/change") 405).
Proof.
  apply (first_path_match_decides sample (firstn 3 compiled_routes) change_route
           (skipn 4 compiled_routes)
           (Request (js "PUT") (js "/students/7/change") localhost)
           (Some (js "/students/7/change")));
    reflexivity.
Defined.

(** X27.  For a request that reaches the route loop: when the first route
    whose pattern matches the path allows the method, the handler of that
    route is called with the groups of the match, whatever routes follow. *)
Lemma first_path_match_invokes rt before hit later request pathname mt :
  url_parse rt (url request) = Url.Parsed pathname ->
  endsWith (url request) (js "/") = false ->
  startsWith (url request) (js "/public/") = false ->
  forallb (misses (pathname_text pathname)) before = true ->
  exec (pattern hit) (pathname_text pathname) = Some mt ->
  includes (methods (def hit)) (method request) = true ->
  handleRequest rt (before ++ hit :: later) request
  = Invoked (handler (def hit)) (groups mt).
Proof.
  intros Hp He Hs Hb Hx Hm. unfold handleRequest. rewrite Hp, He, Hs.
  rewrite scan_first_match; [| assumption | unfold misses; now rewrite Hx].
  cbn [scan]. now rewrite Hx, Hm.
Qed.

(** X28.  For a request that reaches the route loop: when no route of the
    table matches the path, the answer is the 404 page, whatever the
    method. *)
Lemma no_route_matches rt table request pathname :
  url_parse rt (url request) = Url.Parsed pathname ->
  endsWith (url request) (js "/") = false ->
  startsWith (url request) (js "/public/") = false ->
  forallb (misses (pathname_text pathname)) table = true ->
  handleRequest rt table request
  = Responded (not_found "<h1>Page not found!</h1>") (Log (method request) (url request) 404).
Proof.
  intros Hp He Hs Hb. unfold handleRequest. rewrite Hp, He, Hs.
  induction table as [| r table IH]; [reflexivity |].
  cbn [forallb] in Hb. apply andb_true_iff in Hb as [Hm Hb].
  cbn [scan]. unfold misses in Hm.
  destruct (exec (pattern r) (pathname_text pathname)); [discriminate | auto].
Qed.

(** * Further properties *)

(** ** The start-up loop *)

(** X1.  When the start-up loop comes to its end, the table it leaves holds
    the routes of the list it was given, in their order and with their
    definitions untouched, and each one carries the pattern its own template
    compiles to. *)
Theorem startup_keeps_the_table (defs : list route_def) (table : list route) :
  compile_routes defs = Started table ->
  map def table = defs
  /\ Forall (fun r => compile_pattern (path (def r)) = Compiled (pattern r)) table.
Proof.
  revert table; induction defs as [| d defs IH]; intros table; cbn [compile_routes].
  - intros [= <-]. split; constructor.
  - destruct (compile_pattern (path d)) as [re | |] eqn:E; try discriminate.
    destruct (compile_routes defs) as [table' | |]; try discriminate.
    intros [= <-]. destruct (IH table' eq_refl) as [Hm Hf].
    cbn [map def]. split; [now rewrite Hm |]. constructor; [exact E | exact Hf].
Qed.

Lemma startup_keeps_the_table_witness :
  map def compiled_routes = routes
  /\ Forall (fun r => compile_pattern (path (def r)) = Compiled (pattern r)) compiled_routes.
Proof. apply (startup_keeps_the_table routes compiled_routes). reflexivity. Defined.

(** X2.  One template that is no pattern stops the start-up, wherever it
    stands in the list: [new RegExp] throws in the loop, before
    [createServer] is reached, whatever routes come after it. *)
Theorem bad_template_stops_startup (before : list route_def) (bad : route_def)
        (later : list route_def) (table : list route) :
  compile_routes before = Started table ->
  compile_pattern (path bad) = SyntaxError ->
  compile_routes (before ++ bad :: later) = Crashed.
Proof.
  revert table; induction before as [| d before IH]; intros table; cbn [app compile_routes].
  - intros _ ->. reflexivity.
  - destruct (compile_pattern (path d)) as [re | |]; try discriminate.
    destruct (compile_routes before) as [table' | |]; try discriminate.
    intros _ Hbad. now rewrite (IH table' eq_refl Hbad).
Qed.

Lemma bad_template_stops_startup_witness :
  compile_routes (routes ++ broken_route :: []) = Crashed.
Proof.
  apply (bad_template_stops_startup routes broken_route [] compiled_routes); reflexivity.
Defined.

(** ** Templates without placeholder *)

Lemma placeholder_miss_here c s start :
  negb (N.eqb c (ch ":") && match s with d :: _ => wd d | [] => false end) = true ->
  m placeholder Some (MState (c :: s) start []) = None.
Proof.
  intros H.
  change (m placeholder Some (MState (c :: s) start []))
    with (if N.eqb (ch ":") c
          then m (Plus (Class false word_dot))
                 (fun st' => Some (set_cap 1 (consumed (MState s false []) st') st'))
                 (MState s false [])
          else None).
  rewrite N.eqb_sym.
  destruct (N.eqb c (ch ":")) eqn:Ec; [| reflexivity].
  cbn [andb] in H. apply plus_word_dot_none.
  destruct s as [| d s]; [reflexivity | exact H].
Qed.

Lemma exec_placeholder_none t i start :
  placeholder_free t = true -> exec_from placeholder t i start = None.
Proof.
  revert i start; induction t as [| c t IH]; intros i start H; [reflexivity |].
  cbn [placeholder_free] in H. apply andb_true_iff in H as [Hc Ht].
  cbn [exec_from]. rewrite placeholder_miss_here by assumption. now apply IH.
Qed.

(** Without a placeholder the template goes into the pattern text as it
    is. *)
Lemma pattern_source_literal t :
  placeholder_free t = true -> pattern_source t = Some (js "^" ++ t ++ js "$").
Proof.
  intros H. unfold pattern_source, RegExp.replace.
  change (group_names (groups_in placeholder)) with (@nil jsstring). cbv iota.
  unfold exec. now rewrite exec_placeholder_none.
Qed.

Lemma seq_of_literal t :
  seq_of ((Eol, false) :: rev (map char_item t) ++ [(Bol, false)]) = literal_regex t.
Proof.
  rewrite seq_of_chain. unfold literal_regex. f_equal.
  change ((Eol, false) :: ?l) with ([(Eol, false)] ++ l).
  rewrite !rev_app_distr, !rev_involutive. cbn [rev app map fst].
  rewrite !map_app, !map_map. reflexivity.
Qed.

Lemma groups_in_literal t : groups_in (literal_regex t) = [].
Proof.
  unfold literal_regex. change (chain (Bol :: ?l)) with (Seq Bol (chain l)).
  cbn [groups_in app]. now rewrite groups_in_chars.
Qed.

Lemma RegExp_new_literal t :
  plain t = true -> RegExp_new (js "^" ++ t ++ js "$") = Compiled (literal_regex t).
Proof.
  intros Ht. unfold RegExp_new.
  change (js "^" ++ ?s) with (ch "^" :: s). rewrite parse_bol.
  rewrite parse_plain by (assumption || reflexivity).
  rewrite add_chars_eq, parse_eol by reflexivity.
  unfold add_item, finish; cbn [p_mode p_cur p_stack p_next p_alt f_kind f_alts f_seq].
  unfold frame_regex; cbn [f_alts f_seq fold_left].
  rewrite seq_of_literal, groups_in_literal. reflexivity.
Qed.

(** The pattern of a literal template matches its own text and no other. *)
Lemma exec_literal t p :
  exec (literal_regex t) p = if eqb p t then Some (MatchResult 0 t [] []) else None.
Proof.
  unfold exec, literal_regex. change (chain (Bol :: ?l)) with (Seq Bol (chain l)).
  destruct (eqb p t) eqn:E.
  - apply eqb_eq in E. subst p.
    rewrite (exec_from_hit _ _ 0 true (MState [] (after t true) [])).
    + cbn [rest caps List.length]. rewrite Nat.sub_0_r, firstn_all.
      fold (literal_regex t). change (Seq Bol (chain (map Char t ++ [Eol]))) with (literal_regex t).
      now rewrite groups_in_literal.
    + cbn [m at_start]. rewrite <- (app_nil_r t) at 2. rewrite m_chars.
      reflexivity.
  - apply exec_from_miss_bol. cbn [m at_start].
    destruct (startsWith p t) eqn:Es.
    + apply startsWith_split in Es. rewrite Es, m_chars.
      cbn [chain fold_right m rest].
      destruct (skipn (List.length t) p) as [| c s] eqn:Ek; [| reflexivity].
      rewrite app_nil_r in Es. subst p. now rewrite eqb_refl in E.
    + now apply m_chars_mismatch.
Qed.

(** X3.  A template without placeholder and without pattern syntax compiles
    to a pattern that matches one path only, the template itself, from its
    first to its last character and with no parameter bound: a longer or a
    shorter path, or one that differs in a character, is not matched. *)
Theorem literal_template_matches_itself_only (t p : jsstring) :
  plain t = true -> placeholder_free t = true ->
  route_exec t p = Some (if eqb p t then Some (MatchResult 0 t [] []) else None).
Proof.
  intros Hp Hf. unfold route_exec, compile_pattern.
  rewrite pattern_source_literal, RegExp_new_literal by assumption.
  now rewrite exec_literal.
Qed.

Lemma literal_template_matches_itself_only_witness :
  route_exec (js "/students/search") (js "/students/search")
  = Some (Some (MatchResult 0 (js "/students/search") [] []))
  /\ route_exec (js "/students/search") (js "/students/search.html") = Some None.
Proof.
  split.
  - apply (literal_template_matches_itself_only (js "/students/search") (js "/students/search"));
      reflexivity.
  - apply (literal_template_matches_itself_only
             (js "/students/search") (js "/students/search.html"));
      reflexivity.
Defined.

(** X4.  The converse of the one-parameter rule: whatever path the pattern
    of such a template matches is the literal text of the template with a
    non-empty run of characters of [A-Za-z0-9_.] in the place of the
    placeholder, and the match binds the name to that run and to nothing
    else.  In particular a value with a slash in it is never accepted. *)
Theorem one_parameter_template_matches_nothing_else
        (pre name post p : jsstring) (x : match_result) :
  plain pre = true -> plain post = true -> placeholder_free pre = true ->
  identifier name = true -> stops post = true ->
  route_exec (pre ++ js ":" ++ name ++ post) p = Some (Some x) ->
  exists v, v <> [] /\ forallb wd v = true /\ p = pre ++ v ++ post
            /\ x = MatchResult 0 p [(1, v)] [(name, Some v)].
Proof.
  intros Hpre Hpost Hfree Hname Hstop. unfold route_exec.
  rewrite compile_pattern_skeleton by assumption. intros H. injection H as H.
  destruct (exec_skeleton_inv _ _ _ _ _ H) as (v & Hv & Hwd & ->).
  exists v. repeat split; auto.
  rewrite exec_skeleton_match in H by assumption. now injection H as <-.
Qed.

Lemma one_parameter_template_matches_nothing_else_witness :
  exists v, v <> [] /\ forallb wd v = true
            /\ js "/students/7/change" = js "/students/" ++ v ++ js "/change"
            /\ MatchResult 0 (js "/students/7/change") [(1, js "7")] [(js "id", Some (js "7"))]
               = MatchResult 0 (js "/students/7/change") [(1, v)] [(js "id", Some v)].
Proof.
  apply (one_parameter_template_matches_nothing_else
           (js "/students/") (js "id") (js "/change") (js "/students/7/change")
           (MatchResult 0 (js "/students/7/change") [(1, js "7")] [(js "id", Some (js "7"))]));
    reflexivity.
Defined.

(** ** The route table *)

(** The seven patterns of the table: six literal ones and the one with the
    parameter. *)
Lemma compiled_routes_shape :
  compiled_routes
  = [ Route (RouteDef (js "/") [js "GET"] index) (literal_regex (js "/"));
      Route (RouteDef (js "/students") [js "GET"; js "POST"] studentList)
            (literal_regex (js "/students"));
      Route (RouteDef (js "/students/delete") [js "POST"] studentDelete)
            (literal_regex (js "/students/delete"));
      Route (RouteDef (js "/students/:id/change") [js "GET"; js "POST"] studentChange)
            (skeleton_regex (js "/students/") (js "id") (js "/change"));
      Route (RouteDef (js "/students/download") [js "GET"] studentsDownload)
            (literal_regex (js "/students/download"));
      Route (RouteDef (js "/students/search") [js "GET"] studentsSearch)
            (literal_regex (js "/students/search"));
      Route (RouteDef (js "/api/students") [js "GET"] studentsAPISearch)
            (literal_regex (js "/api/students")) ].
Proof. reflexivity. Qed.

Ltac literal_case p t :=
  let E := fresh "E" in
  destruct (eqb p t) eqn:E;
  [ apply eqb_eq in E; subst p; vm_compute; try reflexivity; try lia | ].

(** X5.  No path is matched by two routes of the table: the order of the
    routes decides nothing, and no route hides another. *)
Theorem routes_do_not_overlap (p : jsstring) :
  List.length (filter (fun r => negb (misses p r)) compiled_routes) <= 1.
Proof.
  rewrite compiled_routes_shape. unfold misses. cbn [filter pattern].
  rewrite !exec_literal.
  literal_case p (js "/").
  literal_case p (js "/students").
  literal_case p (js "/students/delete").
  literal_case p (js "/students/download").
  literal_case p (js "/students/search").
  literal_case p (js "/api/students").
  cbn [negb].
  destruct (exec (skeleton_regex (js "/students/") (js "id") (js "/change")) p);
    cbn [negb List.length]; lia.
Qed.

(** ** The dispatcher *)

Lemma scan_invoked_first table request p h params :
  scan table request p = Invoked h params ->
  exists before hit later mt,
    table = before ++ hit :: later
    /\ forallb (misses p) before = true
    /\ exec (pattern hit) p = Some mt
    /\ includes (methods (def hit)) (method request) = true
    /\ h = handler (def hit) /\ params = groups mt.
Proof.
  induction table as [| r table IH]; cbn [scan]; [discriminate |].
  destruct (exec (pattern r) p) as [mt |] eqn:E.
  - destruct (includes (methods (def r)) (method request)) eqn:Em; [| discriminate].
    intros H. injection H as <- <-. exists [], r, table, mt. repeat split; auto.
  - intros H. destruct (IH H) as (before & hit & later & mt & -> & Hb & Hrest).
    exists (r :: before), hit, later, mt. split; [reflexivity |]. split; [| exact Hrest].
    cbn [forallb]. unfold misses at 1. now rewrite E.
Qed.

Lemma scan_invoked table request p h params :
  scan table request p = Invoked h params ->
  exists r mt, In r table /\ handler (def r) = h
               /\ includes (methods (def r)) (method request) = true
               /\ exec (pattern r) p = Some mt /\ params = groups mt.
Proof.
  intros H. apply scan_invoked_first in H
    as (before & hit & later & mt & -> & _ & Hx & Hm & -> & ->).
  exists hit, mt. repeat split; auto. apply in_elt.
Qed.

(** A handler is called behind the two guards only. *)
Lemma handleRequest_invoked rt table request h params :
  handleRequest rt table request = Invoked h params ->
  exists pathname,
    url_parse rt (url request) = Url.Parsed pathname
    /\ endsWith (url request) (js "/") = false
    /\ startsWith (url request) (js "/public/") = false
    /\ scan table request (pathname_text pathname) = Invoked h params.
Proof.
  unfold handleRequest.
  destruct (url_parse rt (url request)) as [pathname | |]; try discriminate.
  destruct (endsWith (url request) (js "/")); [discriminate |].
  destruct (startsWith (url request) (js "/public/")).
  - unfold serve_static. destruct (negb _); [discriminate |].
    destruct (fs_readFile rt _); discriminate.
  - intros H. exists pathname. auto.
Qed.

(** X6.  Whenever the dispatcher calls a handler, the request target neither
    ends in a slash nor starts with [/public/], the handler is that of the
    first route of the table whose pattern matches the path component, this
    route allows the method of the request, and the parameters handed over
    are the named groups of that match.  No handler runs in any other
    way. *)
Theorem handler_runs_for_first_matching_route_only
        (rt : runtime) (table : list route) (request : IncomingMessage)
        (h : handler_ref) (params : list (jsstring * option jsstring)) :
  handleRequest rt table request = Invoked h params ->
  exists pathname before hit later mt,
    url_parse rt (url request) = Url.Parsed pathname
    /\ endsWith (url request) (js "/") = false
    /\ startsWith (url request) (js "/public/") = false
    /\ table = before ++ hit :: later
    /\ forallb (misses (pathname_text pathname)) before = true
    /\ exec (pattern hit) (pathname_text pathname) = Some mt
    /\ includes (methods (def hit)) (method request) = true
    /\ h = handler (def hit) /\ params = groups mt.
Proof.
  intros H. apply handleRequest_invoked in H as (pathname & Hp & He & Hs & H).
  apply scan_invoked_first in H as (before & hit & later & mt & H).
  exists pathname, before, hit, later, mt. tauto.
Qed.

Lemma handler_runs_for_first_matching_route_only_witness :
  exists pathname before hit later mt,
    url_parse sample (url (GET "/students/7/change")) = Url.Parsed pathname
    /\ endsWith (url (GET "/students/7/change")) (js "/") = false
    /\ startsWith (url (GET "/students/7/change")) (js "/public/") = false
    /\ compiled_routes = before ++ hit :: later
    /\ forallb (misses (pathname_text pathname)) before = true
    /\ exec (pattern hit) (pathname_text pathname) = Some mt
    /\ includes (methods (def hit)) (method (GET "/students/7/change")) = true
    /\ studentChange = handler (def hit) /\ [(js "id", Some (js "7"))] = groups mt.
Proof.
  apply (handler_runs_for_first_matching_route_only
           sample compiled_routes (GET "/students/7/change")
           studentChange [(js "id", Some (js "7"))]).
  reflexivity.
Defined.

Lemma scan_responded table request p r l :
  scan table request p = Responded r l ->
  l = Log (method request) (url request) (statusCode r)
  /\ (r = not_found "<h1>Page not found!</h1>" \/ r = Response 405 [] NoChunk).
Proof.
  induction table as [| x table IH]; cbn [scan]; unfold monkeyPatchedEnd.
  - intros [= <- <-]. auto.
  - destruct (exec (pattern x) p); [| exact IH].
    destruct (includes _ _); [discriminate |]. intros [= <- <-]. auto.
Qed.

(** X7.  Every answer the dispatcher writes itself is logged with the method
    and the target of the request and with the status of that very answer,
    and it is one of five: the 301 redirect, for a target that ends in a
    slash; the static 404; a 200 that carries the bytes of the file at the
    resolved path, which then starts with the text of the public root and
    exists, under the content type of its lower-cased extension; the 404
    page of the route loop; and the bare 405. *)
Theorem dispatcher_answers_are_logged
        (rt : runtime) (table : list route) (request : IncomingMessage)
        (r : ServerResponse) (l : log_line) :
  handleRequest rt table request = Responded r l ->
  l = Log (method request) (url request) (statusCode r)
  /\ (r = redirect request (slice_0_m1 (url request)) (Some 301%Z)
        /\ endsWith (url request) (js "/") = true
      \/ r = not_found "<h1>Not found!</h1>"
        /\ startsWith (url request) (js "/public/") = true
      \/ (exists buffer,
            r = Response 200
                  [(js "Content-Type",
                    mime_type (toLowerCase (slice_from 1 (Path.extname (resolved rt request)))))]
                  (Bytes buffer)
            /\ startsWith (url request) (js "/public/") = true
            /\ startsWith (resolved rt request) (PUBLIC_PATH rt) = true
            /\ fs_access rt (resolved rt request) = true
            /\ fs_readFile rt (resolved rt request) = Some buffer)
      \/ r = not_found "<h1>Page not found!</h1>"
      \/ r = Response 405 [] NoChunk).
Proof.
  unfold handleRequest.
  destruct (url_parse rt (url request)) as [pathname | |]; try discriminate.
  destruct (endsWith (url request) (js "/")) eqn:He.
  { unfold monkeyPatchedEnd. intros [= <- <-]. auto. }
  destruct (startsWith (url request) (js "/public/")) eqn:Hs.
  - unfold serve_static. fold (resolved rt request). cbv zeta.
    destruct (startsWith (resolved rt request) (PUBLIC_PATH rt)) eqn:Hin; cbn [andb negb].
    + destruct (fs_access rt (resolved rt request)) eqn:Ha; cbn [negb].
      * destruct (fs_readFile rt (resolved rt request)) as [buffer |] eqn:Hr; [| discriminate].
        unfold monkeyPatchedEnd. intros [= <- <-]. split; [reflexivity |].
        right. right. left. exists buffer. auto.
      * unfold monkeyPatchedEnd. intros [= <- <-]. auto.
    + unfold monkeyPatchedEnd. intros [= <- <-]. auto.
  - intros H. apply scan_responded in H as [Hl [Hr | Hr]]; auto 6.
Qed.

Lemma dispatcher_answers_are_logged_witness :
  Log (js "GET") (js "/public/style.css") 200
  = Log (method (GET "/public/style.css")) (url (GET "/public/style.css"))
        (statusCode (Response 200 [(js "Content-Type", js "text/css")]
                       (Bytes (Disk.bytes "body{}"))))
  /\ (Response 200 [(js "Content-Type", js "text/css")] (Bytes (Disk.bytes "body{}"))
      = redirect (GET "/public/style.css") (slice_0_m1 (url (GET "/public/style.css")))
                 (Some 301%Z)
        /\ endsWith (url (GET "/public/style.css")) (js "/") = true
      \/ Response 200 [(js "Content-Type", js "text/css")] (Bytes (Disk.bytes "body{}"))
         = not_found "<h1>Not found!</h1>"
        /\ startsWith (url (GET "/public/style.css")) (js "/public/") = true
      \/ (exists buffer,
            Response 200 [(js "Content-Type", js "text/css")] (Bytes (Disk.bytes "body{}"))
            = Response 200
                [(js "Content-Type",
                  mime_type (toLowerCase
                               (slice_from 1 (Path.extname
                                                (resolved sample (GET "/public/style.css"))))))]
                (Bytes buffer)
            /\ startsWith (url (GET "/public/style.css")) (js "/public/") = true
            /\ startsWith (resolved sample (GET "/public/style.css")) (PUBLIC_PATH sample) = true
            /\ fs_access sample (resolved sample (GET "/public/style.css")) = true
            /\ fs_readFile sample (resolved sample (GET "/public/style.css")) = Some buffer)
      \/ Response 200 [(js "Content-Type", js "text/css")] (Bytes (Disk.bytes "body{}"))
         = not_found "<h1>Page not found!</h1>"
      \/ Response 200 [(js "Content-Type", js "text/css")] (Bytes (Disk.bytes "body{}"))
         = Response 405 [] NoChunk).
Proof.
  apply (dispatcher_answers_are_logged sample compiled_routes (GET "/public/style.css")
           (Response 200 [(js "Content-Type", js "text/css")] (Bytes (Disk.bytes "body{}")))
           (Log (js "GET") (js "/public/style.css") 200)).
  reflexivity.
Defined.

(** X8.  The handler of [/students/:id/change] is never called without an
    id: whenever the dispatcher calls it on the table of the server, the
    parameters are the one binding of [id] to a non-empty run of characters
    of [A-Za-z0-9_.], and the path component of the request is
    [/students/], that run, [/change].  The branch of the handler for a
    missing id is not reached through the router. *)
Theorem change_handler_always_gets_an_id
        (rt : runtime) (request : IncomingMessage)
        (params : list (jsstring * option jsstring)) :
  handleRequest rt compiled_routes request = Invoked studentChange params ->
  exists v, v <> [] /\ forallb wd v = true
            /\ params = [(js "id", Some v)]
            /\ params_id params = Some v
            /\ url_parse rt (url request)
               = Url.Parsed (Some (js "/students/" ++ v ++ js "/change")).
Proof.
  intros H. apply handleRequest_invoked in H as (pathname & Hp & _ & _ & H).
  apply scan_invoked in H as (r & mt & Hin & Hh & _ & Hx & ->).
  rewrite compiled_routes_shape in Hin. cbn [In] in Hin.
  destruct Hin as [<- | [<- | [<- | [<- | [<- | [<- | [<- | []]]]]]]];
    cbn [def handler] in Hh; try discriminate.
  cbn [pattern] in Hx.
  destruct (exec_skeleton_inv _ _ _ _ _ Hx) as (v & Hv & Hwd & E).
  rewrite E in Hx. rewrite exec_skeleton_match in Hx by (assumption || reflexivity).
  injection Hx as <-. exists v. cbn [groups]. repeat split; auto.
  destruct pathname as [pn |]; cbn [pathname_text] in E.
  - now rewrite E in Hp.
  - exfalso. discriminate E.
Qed.

Lemma change_handler_always_gets_an_id_witness :
  exists v, v <> [] /\ forallb wd v = true
            /\ [(js "id", Some (js "7"))] = [(js "id", Some v)]
            /\ params_id [(js "id", Some (js "7"))] = Some v
            /\ url_parse sample (url (GET "/students/7/change"))
               = Url.Parsed (Some (js "/students/" ++ v ++ js "/change")).
Proof.
  apply (change_handler_always_gets_an_id sample (GET "/students/7/change")
           [(js "id", Some (js "7"))]).
  reflexivity.
Defined.

Lemma first_path_match_invokes_witness :
  handleRequest sample (firstn 3 compiled_routes ++ change_route :: skipn 4 compiled_routes)
                (GET "/students/7/change")
  = Invoked (handler (def change_route))
            (groups (MatchResult 0 (js "/students/7/change") [(1, js "7")]
                       [(js "id", Some (js "7"))])).
Proof.
  apply (first_path_match_invokes sample (firstn 3 compiled_routes) change_route
           (skipn 4 compiled_routes) (GET "/students/7/change")
           (Some (js "/students/7/change"))
           (MatchResult 0 (js "/students/7/change") [(1, js "7")] [(js "id", Some (js "7"))]));
    reflexivity.
Defined.

Lemma no_route_matches_witness :
  handleRequest sample compiled_routes (GET "/students/7")
  = Responded (not_found "<h1>Page not found!</h1>")
              (Log (method (GET "/students/7")) (url (GET "/students/7")) 404).
Proof.
  apply (no_route_matches sample compiled_routes (GET "/students/7")
           (Some (js "/students/7")));
    reflexivity.
Defined.


(** ** Splitting and joining *)

Section SplitJoin.

Variable sep : N.

Lemma split_free (s : jsstring) : ~ In sep s -> JS.split sep s = [s].
Proof.
  induction s as [| c s IH]; cbn [JS.split In]; [reflexivity |].
  intros H. destruct (N.eqb c sep) eqn:E.
  - apply N.eqb_eq in E. tauto.
  - rewrite IH by tauto. reflexivity.
Qed.

Lemma join_cons (glue p q : jsstring) (parts : list jsstring) :
  JS.join glue (p :: q :: parts) = p ++ glue ++ JS.join glue (q :: parts).
Proof. reflexivity. Qed.

(** Splitting undoes joining when no part holds the separator. *)
Lemma split_join (parts : list jsstring) :
  parts <> [] -> Forall (fun p => ~ In sep p) parts ->
  JS.split sep (JS.join [sep] parts) = parts.
Proof.
  induction parts as [| p parts IH]; [congruence |]. intros _ H.
  inversion H as [| ? ? Hp Hps]; subst.
  destruct parts as [| q parts].
  - now apply split_free.
  - rewrite join_cons. cbn [app]. rewrite split_app_sep, split_free by assumption.
    rewrite IH by (assumption || discriminate). reflexivity.
Qed.

(** A text has one segment more than it has separators. *)
Lemma split_length (s : jsstring) :
  List.length (JS.split sep s) = S (occurrences sep s).
Proof.
  unfold occurrences. induction s as [| c s IH]; cbn [JS.split filter]; [reflexivity |].
  rewrite (N.eqb_sym sep c). destruct (N.eqb c sep); cbn [List.length].
  - now rewrite IH.
  - pose proof (split_nonempty sep s) as Hne.
    destruct (JS.split sep s); [contradiction | exact IH].
Qed.

Lemma occurrences_app (a b : jsstring) :
  occurrences sep (a ++ b) = occurrences sep a + occurrences sep b.
Proof. unfold occurrences. now rewrite filter_app, length_app. Qed.

Lemma occurrences_pos (s : jsstring) : In sep s -> 0 < occurrences sep s.
Proof.
  unfold occurrences. induction s as [| c s IH]; cbn [In filter]; [tauto |].
  intros [-> | H].
  - rewrite N.eqb_refl. cbn [List.length]. lia.
  - destruct (N.eqb sep c); cbn [List.length]; [lia | auto].
Qed.

Lemma split_join_length (parts : list jsstring) :
  parts <> [] ->
  List.length (JS.split sep (JS.join [sep] parts))
  = List.length parts + list_sum (map (occurrences sep) parts).
Proof.
  intros Hne. rewrite split_length.
  induction parts as [| p parts IH]; [congruence |].
  destruct parts as [| q parts].
  - cbn [JS.join List.length map list_sum fold_right]. lia.
  - rewrite join_cons, !occurrences_app.
    assert (E : S (occurrences sep (JS.join [sep] (q :: parts)))
                = List.length (q :: parts) + list_sum (map (occurrences sep) (q :: parts)))
      by (apply IH; discriminate).
    assert (E1 : occurrences sep [sep] = 1)
      by (unfold occurrences; cbn [filter]; now rewrite N.eqb_refl).
    rewrite E1.
    change (list_sum (map (occurrences sep) (p :: q :: parts)))
      with (occurrences sep p + list_sum (map (occurrences sep) (q :: parts))).
    change (List.length (p :: q :: parts)) with (S (List.length (q :: parts))).
    lia.
Qed.

End SplitJoin.

(** ** Static files *)


Lemma split_segments_free (sep : N) (s : jsstring) :
  Forall (fun seg => ~ In sep seg) (JS.split sep s).
Proof.
  induction s as [| c s IH]; cbn [JS.split].
  - constructor; [tauto | constructor].
  - destruct (N.eqb c sep) eqn:E.
    + constructor; [tauto | assumption].
    + destruct (JS.split sep s) as [| seg segs].
      * constructor; [| constructor]. cbn [In]. apply N.eqb_neq in E. intuition congruence.
      * inversion IH; subst. constructor; [| assumption].
        cbn [In]. apply N.eqb_neq in E. intuition congruence.
Qed.

Lemma normalize_step_proper (res : list jsstring) (seg : jsstring) :
  Forall proper res -> ~ In Path.slash seg ->
  Forall proper (Path.normalize_step false res seg).
Proof.
  intros Hres Hseg. unfold Path.normalize_step.
  destruct (eqb seg []) eqn:E0; [assumption |].
  destruct (eqb seg Path.dot) eqn:E1; [assumption |]. cbn [orb].
  destruct (eqb seg Path.dotdot) eqn:E2.
  - destruct res as [| last res']; [constructor |].
    destruct (eqb last Path.dotdot); [assumption |]. now inversion Hres.
  - constructor; [| assumption].
    apply eqb_neq in E0, E1, E2. repeat split; assumption.
Qed.

Lemma fold_proper (segs res : list jsstring) :
  Forall proper res -> Forall (fun seg => ~ In Path.slash seg) segs ->
  Forall proper (fold_left (Path.normalize_step false) segs res).
Proof.
  revert res; induction segs as [| seg segs IH]; intros res Hres Hsegs; [assumption |].
  inversion Hsegs; subst. cbn [fold_left]. apply IH; [| assumption].
  now apply normalize_step_proper.
Qed.

(** Without a [..] among them, the segments are only sifted. *)
Lemma fold_without_dotdot (a : bool) (segs res : list jsstring) :
  ~ In Path.dotdot segs ->
  fold_left (Path.normalize_step a) segs res = rev (filter kept segs) ++ res.
Proof.
  revert res; induction segs as [| seg segs IH]; intros res H; [reflexivity |].
  cbn [In] in H. cbn [fold_left filter]. rewrite IH by tauto.
  unfold Path.normalize_step, kept.
  destruct (eqb seg [] || eqb seg Path.dot); cbn [negb]; [reflexivity |].
  destruct (eqb seg Path.dotdot) eqn:E; [apply eqb_eq in E; tauto |].
  cbn [rev]. now rewrite <- app_assoc.
Qed.

Lemma proper_kept (l : list jsstring) :
  Forall proper l -> filter kept l = l /\ ~ In Path.dotdot l.
Proof.
  induction 1 as [| seg l (H0 & H1 & H2 & _) _ [IH1 IH2]]; [split; [reflexivity | tauto] |].
  cbn [filter In]. unfold kept at 1.
  apply eqb_neq in H0, H1. rewrite H0, H1. cbn [orb negb]. rewrite IH1.
  split; [reflexivity |]. intros [E | E]; [| tauto].
  contradiction.
Qed.

Lemma join_not_empty (sep : jsstring) (parts : list jsstring) :
  parts <> [] -> Forall (fun p => p <> []) parts -> JS.join sep parts <> [].
Proof.
  destruct parts as [| p parts]; [congruence |]. intros _ H. inversion H; subst.
  destruct parts as [| q parts]; [assumption |].
  rewrite join_cons. destruct p; [congruence | discriminate].
Qed.

Lemma join_app (sep : jsstring) (l1 l2 : list jsstring) :
  l1 <> [] -> l2 <> [] ->
  JS.join sep (l1 ++ l2) = JS.join sep l1 ++ sep ++ JS.join sep l2.
Proof.
  intros H1 H2. induction l1 as [| p l1 IH]; [congruence |].
  destruct l1 as [| q l1].
  - destruct l2 as [| r l2]; [congruence |]. reflexivity.
  - change ((p :: q :: l1) ++ l2) with (p :: q :: (l1 ++ l2)).
    rewrite !join_cons. change (q :: l1 ++ l2) with ((q :: l1) ++ l2).
    rewrite IH by discriminate. now rewrite <- !app_assoc.
Qed.

Lemma replace_str_unfold (pat repl s : jsstring) :
  replace_str pat repl s
  = if startsWith s pat then repl ++ skipn (List.length pat) s
    else match s with
         | [] => []
         | c :: s' => c :: replace_str pat repl s'
         end.
Proof. destruct s; reflexivity. Qed.

Lemma replace_str_prefix (pat repl r : jsstring) :
  replace_str pat repl (pat ++ r) = repl ++ r.
Proof. now rewrite replace_str_unfold, startsWith_app, skipn_length_app. Qed.

Lemma normalize_absolute (p : jsstring) :
  startsWith p [Path.slash] = true ->
  Path.normalize p
  = absolute_path (Path.normalizeString p false) (endsWith p [Path.slash]).
Proof.
  intros H. unfold Path.normalize. destruct p as [| c p]; [discriminate H |].
  rewrite H. cbn [negb]. unfold absolute_path.
  destruct (Path.normalizeString (c :: p) false); reflexivity.
Qed.

Lemma root_segments_proper (rt : runtime) : Forall proper (root_segments rt).
Proof.
  unfold root_segments. apply Forall_app. split.
  - apply Forall_rev, fold_proper; [constructor | apply split_segments_free].
  - constructor; [| constructor]. repeat split; try discriminate.
    cbv. intuition discriminate.
Qed.

Lemma root_segments_not_nil (rt : runtime) : root_segments rt <> [].
Proof. unfold root_segments. destruct (rev _); discriminate. Qed.

Lemma root_segments_free (rt : runtime) :
  Forall (fun seg => ~ In Path.slash seg) (root_segments rt).
Proof.
  eapply Forall_impl; [| apply root_segments_proper]. now intros seg (_ & _ & _ & H).
Qed.

Lemma proper_not_nil (l : list jsstring) :
  Forall proper l -> Forall (fun p => p <> []) l.
Proof. apply Forall_impl. now intros seg [H _]. Qed.

(** The public root of a server started in an absolute directory. *)
Lemma PUBLIC_PATH_segments (rt : runtime) :
  startsWith (cwd rt) [Path.slash] = true ->
  PUBLIC_PATH rt = Path.slash :: JS.join [Path.slash] (root_segments rt).
Proof.
  intros absolute. unfold PUBLIC_PATH, Path.join. cbn [filter].
  destruct (cwd rt) as [| c w] eqn:Ec; [discriminate absolute |].
  change (negb (eqb (c :: w) [])) with true. cbv iota.
  change (negb (eqb (js "public") [])) with true. cbv iota.
  change (JS.join [Path.slash] [c :: w; js "public"])
    with ((c :: w) ++ Path.slash :: js "public").
  assert (Ha : startsWith ((c :: w) ++ Path.slash :: js "public") [Path.slash] = true)
    by exact absolute.
  assert (Ht : endsWith ((c :: w) ++ Path.slash :: js "public") [Path.slash] = false).
  { unfold endsWith. rewrite rev_app_distr. reflexivity. }
  assert (Eq : Path.normalizeString ((c :: w) ++ Path.slash :: js "public") false
               = JS.join [Path.slash] (root_segments rt)).
  { unfold Path.normalizeString, root_segments. rewrite Ec, split_app_sep, fold_left_app.
    change (JS.split Path.slash (js "public")) with [js "public"].
    cbn [fold_left].
    change (Path.normalize_step false ?res (js "public")) with (js "public" :: res).
    reflexivity. }
  rewrite (normalize_absolute _ Ha), Ht, Eq.
  pose proof (join_not_empty [Path.slash] _ (root_segments_not_nil rt)
                (proper_not_nil _ (root_segments_proper rt))) as Hne.
  unfold absolute_path.
  destruct (JS.join [Path.slash] (root_segments rt)); [congruence | reflexivity].
Qed.

Lemma split_leading_slash (s : jsstring) :
  JS.split Path.slash (Path.slash :: s) = [] :: JS.split Path.slash s.
Proof. reflexivity. Qed.

(** What [path.join] makes of the root and the rest of a static request:
    the segments of the root, then what the rest leaves after its own
    normalisation. *)
Lemma resolved_fold (rt : runtime) (request : IncomingMessage) :
  startsWith (cwd rt) [Path.slash] = true ->
  exists tail trailing,
    resolved rt request
    = absolute_path
        (JS.join [Path.slash]
           (rev (fold_left (Path.normalize_step false) tail (rev (root_segments rt)))))
        trailing
    /\ (tail = [] \/ tail = JS.split Path.slash (static_rest request)).
Proof.
  intros absolute. unfold resolved. fold (static_rest request).
  pose proof (PUBLIC_PATH_segments rt absolute) as EP.
  assert (Hfold : forall tail,
             fold_left (Path.normalize_step false)
                       (([] :: root_segments rt) ++ tail) []
             = fold_left (Path.normalize_step false) tail (rev (root_segments rt))).
  { intros tail. rewrite fold_left_app. f_equal. cbn [fold_left].
    change (Path.normalize_step false [] []) with (@nil jsstring).
    destruct (proper_kept _ (root_segments_proper rt)) as [Hk Hd].
    rewrite fold_without_dotdot by assumption. now rewrite Hk, app_nil_r. }
  assert (Hsplit : JS.split Path.slash (PUBLIC_PATH rt) = [] :: root_segments rt).
  { rewrite EP, split_leading_slash. f_equal.
    apply split_join; [apply root_segments_not_nil | apply root_segments_free]. }
  unfold Path.join. cbn [filter].
  assert (Hne : eqb (PUBLIC_PATH rt) [] = false) by now rewrite EP.
  rewrite Hne. cbn [negb].
  destruct (static_rest request) as [| c r] eqn:Er.
  - cbn [eqb negb]. exists [], (endsWith (PUBLIC_PATH rt) [Path.slash]).
    split; [| now left].
    change (JS.join [Path.slash] [PUBLIC_PATH rt]) with (PUBLIC_PATH rt).
    rewrite normalize_absolute by now rewrite EP.
    unfold Path.normalizeString. rewrite Hsplit.
    rewrite <- (app_nil_r ([] :: root_segments rt)), Hfold. reflexivity.
  - change (negb (eqb (c :: r) [])) with true. cbv iota.
    exists (JS.split Path.slash (c :: r)),
           (endsWith (PUBLIC_PATH rt ++ Path.slash :: c :: r) [Path.slash]).
    split; [| now right].
    change (JS.join [Path.slash] [PUBLIC_PATH rt; c :: r])
      with (PUBLIC_PATH rt ++ Path.slash :: c :: r).
    rewrite normalize_absolute by now rewrite EP.
    unfold Path.normalizeString. rewrite split_app_sep, Hsplit, Hfold. reflexivity.
Qed.

Lemma static_rest_segments (request : IncomingMessage) :
  startsWith (url request) (js "/public/") = true ->
  JS.split Path.slash (url request)
  = [] :: js "public" :: JS.split Path.slash (static_rest request).
Proof.
  intros H. apply startsWith_split in H. unfold static_rest.
  rewrite H at 1 2. rewrite replace_str_prefix.
  change (js "/public/" ++ ?r) with ([] ++ Path.slash :: (js "public" ++ Path.slash :: r)).
  rewrite !split_app_sep. reflexivity.
Qed.

(** X9.  The containment test never refuses a request that does not climb:
    for a server started in an absolute directory, a static request whose
    target holds no [..] segment resolves to the public root itself or to a
    path below it, so that it passes the prefix test of the static
    branch. *)
Theorem static_request_without_dotdot_stays_inside
        (rt : runtime) (request : IncomingMessage) :
  startsWith (cwd rt) [Path.slash] = true ->
  startsWith (url request) (js "/public/") = true ->
  ~ In Path.dotdot (JS.split Path.slash (url request)) ->
  startsWith (resolved rt request) (PUBLIC_PATH rt) = true
  /\ within (PUBLIC_PATH rt) (resolved rt request) = true.
Proof.
  intros absolute Hs Hdd.
  assert (W : within (PUBLIC_PATH rt) (resolved rt request) = true).
  { destruct (resolved_fold rt request absolute) as (tail & trailing & E & Htail).
    assert (Ht : ~ In Path.dotdot tail).
    { destruct Htail as [-> | ->]; [tauto |].
      rewrite (static_rest_segments request Hs) in Hdd. cbn [In] in Hdd. tauto. }
    rewrite fold_without_dotdot in E by assumption.
    rewrite rev_app_distr, rev_involutive in E.
    rewrite E, (PUBLIC_PATH_segments rt absolute). clear E. unfold absolute_path.
    set (R := root_segments rt). set (C := rev (rev (filter kept tail))).
    pose proof (join_not_empty [Path.slash] R (root_segments_not_nil rt)
                  (proper_not_nil _ (root_segments_proper rt))) as HR.
    unfold within. apply orb_true_iff.
    destruct C as [| c C].
    - rewrite app_nil_r. destruct (JS.join [Path.slash] R) as [| x q] eqn:Eq; [congruence |].
      destruct trailing.
      + right. change (Path.slash :: (x :: q) ++ [Path.slash])
          with ((Path.slash :: x :: q) ++ [Path.slash]).
        rewrite <- (app_nil_r ((Path.slash :: x :: q) ++ [Path.slash])) at 1.
        apply startsWith_app.
      + left. apply eqb_refl.
    - right. rewrite join_app by (apply root_segments_not_nil || discriminate).
      destruct (JS.join [Path.slash] R ++ [Path.slash] ++ JS.join [Path.slash] (c :: C))
        as [| x q] eqn:Eq.
      { destruct (JS.join [Path.slash] R); discriminate Eq. }
      rewrite <- Eq.
      destruct trailing.
      + replace (Path.slash :: (JS.join [Path.slash] R ++ [Path.slash]
                                  ++ JS.join [Path.slash] (c :: C)) ++ [Path.slash])
          with (((Path.slash :: JS.join [Path.slash] R) ++ [Path.slash])
                  ++ (JS.join [Path.slash] (c :: C) ++ [Path.slash]))
          by (cbn [app]; now rewrite <- !app_assoc).
        apply startsWith_app.
      + replace (Path.slash :: JS.join [Path.slash] R ++ [Path.slash]
                                  ++ JS.join [Path.slash] (c :: C))
          with (((Path.slash :: JS.join [Path.slash] R) ++ [Path.slash])
                  ++ JS.join [Path.slash] (c :: C))
          by (cbn [app]; now rewrite <- !app_assoc).
        apply startsWith_app. }
  split; [| exact W].
  unfold within in W. apply orb_true_iff in W as [W | W].
  - apply eqb_eq in W. rewrite W. rewrite <- (app_nil_r (PUBLIC_PATH rt)) at 1.
    apply startsWith_app.
  - apply startsWith_split in W. rewrite W, <- app_assoc. apply startsWith_app.
Qed.

Lemma absolute_path_split (q : jsstring) (trailing : bool) :
  q <> [] ->
  JS.split Path.slash (absolute_path q trailing)
  = [] :: JS.split Path.slash q ++ (if trailing then [[]] else []).
Proof.
  intros Hq. unfold absolute_path. destruct q as [| x q]; [congruence |].
  rewrite split_leading_slash. f_equal. destruct trailing.
  - change ((x :: q) ++ [Path.slash]) with ((x :: q) ++ Path.slash :: []).
    now rewrite split_app_sep.
  - now rewrite app_nil_r.
Qed.

(** X10.  Whatever the request target, the path the static branch tests and
    reads has no [..] and no [.] segment left in it, for a server started in
    an absolute directory: the prefix test is made on a path that [fs] reads
    as it stands. *)
Theorem resolved_path_has_no_dot_segments (rt : runtime) (request : IncomingMessage) :
  startsWith (cwd rt) [Path.slash] = true ->
  Forall (fun seg => seg <> Path.dotdot /\ seg <> Path.dot)
         (JS.split Path.slash (resolved rt request)).
Proof.
  intros absolute.
  destruct (resolved_fold rt request absolute) as (tail & trailing & E & Htail).
  assert (Hfree : Forall (fun seg => ~ In Path.slash seg) tail).
  { destruct Htail as [-> | ->]; [constructor | apply split_segments_free]. }
  assert (Hp : Forall proper
                 (rev (fold_left (Path.normalize_step false) tail (rev (root_segments rt))))).
  { apply Forall_rev, fold_proper; [| assumption].
    apply Forall_rev, root_segments_proper. }
  rewrite E. clear E.
  set (L := rev (fold_left (Path.normalize_step false) tail (rev (root_segments rt)))) in *.
  assert (Hgood : Forall (fun seg => seg <> Path.dotdot /\ seg <> Path.dot) L).
  { eapply Forall_impl; [| exact Hp]. intros seg (_ & H1 & H2 & _). auto. }
  assert (Hnil : (@nil N) <> Path.dotdot /\ (@nil N) <> Path.dot) by (split; discriminate).
  destruct L as [| s L].
  - cbn. repeat constructor; discriminate.
  - assert (Hs : JS.split Path.slash (JS.join [Path.slash] (s :: L)) = s :: L).
    { apply split_join; [discriminate |].
      eapply Forall_impl; [| exact Hp]. now intros seg (_ & _ & _ & H). }
    assert (Hq : JS.join [Path.slash] (s :: L) <> [])
      by (apply join_not_empty; [discriminate | now apply proper_not_nil]).
    rewrite absolute_path_split, Hs by assumption.
    constructor; [exact Hnil |]. apply Forall_app. split; [exact Hgood |].
    destruct trailing; repeat constructor; discriminate.
Qed.

Lemma static_request_without_dotdot_stays_inside_witness :
  startsWith (resolved sample (GET "/public/./css//style.css")) (PUBLIC_PATH sample) = true
  /\ within (PUBLIC_PATH sample) (resolved sample (GET "/public/./css//style.css")) = true.
Proof.
  apply (static_request_without_dotdot_stays_inside sample (GET "/public/./css//style.css"));
    try reflexivity.
  vm_compute. intuition discriminate.
Defined.

Lemma resolved_path_has_no_dot_segments_witness :
  Forall (fun seg => seg <> Path.dotdot /\ seg <> Path.dot)
         (JS.split Path.slash (resolved sample (GET "/public/../../etc/./passwd"))).
Proof.
  apply (resolved_path_has_no_dot_segments sample (GET "/public/../../etc/./passwd")).
  reflexivity.
Defined.


(** ** The three tests of the dispatcher *)

Lemma change_path_is_no_literal (v : jsstring) :
  eqb (js "/students/" ++ v ++ js "/change") (js "/") = false
  /\ eqb (js "/students/" ++ v ++ js "/change") (js "/students") = false
  /\ eqb (js "/students/" ++ v ++ js "/change") (js "/students/delete") = false.
Proof.
  repeat split; try reflexivity.
  apply eqb_neq. intros E.
  assert (H : In (ch "/") (js "/students/delete") -> False).
  { change (js "/students/delete") with (js "/students/" ++ js "delete") in E.
    apply app_inv_head in E.
    assert (Hin : In (ch "/") (js "delete")).
    { rewrite <- E. apply in_or_app. right. now left. }
    intros _. cbv in Hin. intuition discriminate. }
  apply H. cbv. tauto.
Qed.

(** On the table of the server, a route whose pattern matches the path is
    the one the loop stops at. *)
Lemma scan_table_hit (request : IncomingMessage) (p : jsstring) (r : route)
      (mt : match_result) :
  In r compiled_routes ->
  exec (pattern r) p = Some mt ->
  scan compiled_routes request p
  = if includes (methods (def r)) (method request)
    then Invoked (handler (def r)) (groups mt)
    else monkeyPatchedEnd request (Response 405 [] NoChunk).
Proof.
  intros Hin Hx. rewrite compiled_routes_shape in Hin. cbn [In] in Hin.
  destruct Hin as [<- | [<- | [<- | [<- | [<- | [<- | [<- | []]]]]]]];
    cbn [pattern def methods handler] in *;
    try (rewrite exec_literal in Hx;
         match type of Hx with
         | (if eqb p ?t then _ else _) = _ =>
             destruct (eqb p t) eqn:E; [| discriminate Hx];
             apply eqb_eq in E; subst p; injection Hx as <-;
             vm_compute; reflexivity
         end).
  destruct (exec_skeleton_inv _ _ _ _ _ Hx) as (v & Hv & Hwd & ->).
  rewrite exec_skeleton_match in Hx by (assumption || reflexivity).
  injection Hx as <-.
  rewrite compiled_routes_shape. cbn [scan pattern def methods handler].
  rewrite !exec_literal.
  destruct (change_path_is_no_literal v) as (E1 & E2 & E3). rewrite E1, E2, E3.
  rewrite exec_skeleton_match by (assumption || reflexivity). reflexivity.
Qed.

Lemma forallb_removelast {A} (f : A -> bool) (l : list A) :
  forallb f l = true -> forallb f (removelast l) = true.
Proof.
  induction l as [| x l IH]; [reflexivity |]. cbn [forallb]. intros H.
  apply andb_true_iff in H as [Hx Hl]. destruct l as [| y l]; [reflexivity |].
  change (removelast (x :: y :: l)) with (x :: removelast (y :: l)).
  cbn [forallb]. now rewrite Hx, IH.
Qed.

(** C10.  The slash test and the prefix test read the whole request target,
    the route loop reads the path component only.  For every request whose
    target [url.parse] takes apart, whatever the path component it finds:
    a target that ends in a slash is answered with the 301 redirect to the
    target without its last character, which Node sends when the target and
    the [Host] text hold what a header value may hold, and no handler is
    called; a target that starts with [/public/] goes to the static branch,
    and the file looked up is named by all of the target after the prefix,
    its query string included; and behind these two tests, a handler is
    called with some parameters exactly when its route has a pattern that
    matches the path component with these parameters as its groups and
    allows the method: the query string has no part in it. *)
Theorem checks_read_the_query_string
        (rt : runtime) (request : IncomingMessage) (pathname : option jsstring) :
  url_parse rt (url request) = Url.Parsed pathname ->
  (endsWith (url request) (js "/") = true ->
   forallb header_char (interpolate (host request)) = true ->
   forallb header_char (url request) = true ->
   handleRequest rt compiled_routes request
   = Responded (redirect request (slice_0_m1 (url request)) (Some 301%Z))
               (Log (method request) (url request) 301)
   /\ writeHead_end (redirect request (slice_0_m1 (url request)) (Some 301%Z))
      = Written (Response 301
                   [(js "Location",
                     js "http://" ++ interpolate (host request) ++ slice_0_m1 (url request))]
                   NoChunk))
  /\ (endsWith (url request) (js "/") = false ->
      startsWith (url request) (js "/public/") = true ->
      handleRequest rt compiled_routes request = serve_static rt request
      /\ resolved rt request = Path.join [PUBLIC_PATH rt; skipn 8 (url request)])
  /\ (endsWith (url request) (js "/") = false ->
      startsWith (url request) (js "/public/") = false ->
      forall h params,
        handleRequest rt compiled_routes request = Invoked h params
        <-> exists r mt,
              In r compiled_routes
              /\ exec (pattern r) (pathname_text pathname) = Some mt
              /\ includes (methods (def r)) (method request) = true
              /\ h = handler (def r) /\ params = groups mt).
Proof.
  intros Hp. split; [| split].
  - intros He Hhost Hurl. split.
    + unfold handleRequest. now rewrite Hp, He.
    + unfold writeHead_end, redirect. cbn [statusCode headers body].
      change (valid_status (int32 301)) with true. cbv iota.
      rewrite check_location, !forallb_app, Hhost.
      unfold slice_0_m1. rewrite (forallb_removelast _ _ Hurl). reflexivity.
  - intros He Hs. split.
    + unfold handleRequest. now rewrite Hp, He, Hs.
    + unfold resolved. apply startsWith_split in Hs. rewrite Hs at 1.
      rewrite replace_str_prefix. reflexivity.
  - intros He Hs h params. split.
    + intros H. apply handleRequest_invoked in H as (pathname' & Hp' & _ & _ & H).
      rewrite Hp in Hp'. injection Hp' as <-.
      apply scan_invoked in H as (r & mt & Hin & Hh & Hm & Hx & Hg).
      exists r, mt. auto.
    + intros (r & mt & Hin & Hx & Hm & -> & ->).
      unfold handleRequest. rewrite Hp, He, Hs.
      rewrite (scan_table_hit request _ r mt Hin Hx). now rewrite Hm.
Qed.

Lemma checks_read_the_query_string_witness :
  handleRequest sample compiled_routes (GET "/students?q=/")
  = Responded (Response 301 [(js "Location", js "http://localhost:8000/students?q=")] NoChunk)
              (Log (js "GET") (js "/students?q=/") 301)
  /\ resolved sample (GET "/public/style.css?v=1") = js "/srv/hogwarts/public/style.css?v=1"
  /\ handleRequest sample compiled_routes (GET "/students?order=abc") = Invoked studentList [].
Proof.
  destruct (checks_read_the_query_string sample (GET "/students?q=/")
              (Some (js "/students")) eq_refl) as (A & _ & _).
  destruct (checks_read_the_query_string sample (GET "/public/style.css?v=1")
              (Some (js "/public/style.css")) eq_refl) as (_ & B & _).
  destruct (checks_read_the_query_string sample (GET "/students?order=abc")
              (Some (js "/students")) eq_refl) as (_ & _ & C).
  split; [| split].
  - apply A; reflexivity.
  - apply B; reflexivity.
  - apply (C eq_refl eq_refl). exists (nth 1 compiled_routes change_route).
    exists (MatchResult 0 (js "/students") [] []).
    repeat split; try reflexivity. right. left. reflexivity.
Defined.


(** ** The body parser on whole streams *)

Lemma listen_until_end chunks later acc :
  listen (map data chunks ++ end_ :: later) acc = Resolved (on_end (acc ++ chunks)).
Proof.
  revert acc; induction chunks as [| c chunks IH]; intros acc; cbn [map app listen].
  - now rewrite app_nil_r.
  - rewrite IH. now rewrite <- app_assoc.
Qed.

Lemma on_end_concat chunks : on_end chunks = on_end [Buffer.concat chunks].
Proof.
  unfold on_end, Buffer.concat. cbn [List.concat]. now rewrite app_nil_r.
Qed.

(** X11.  The form depends on the bytes of the body alone: however the body
    is cut into chunks, the promise is resolved at the end of the stream with
    the form of all the bytes taken as one buffer, and whatever the stream
    emits after its end, a late error included, changes nothing. *)
Theorem form_depends_on_the_bytes_only (chunks : list Buffer.t) (later : list stream_event) :
  parseFormData (map data chunks ++ end_ :: later)
  = Resolved (on_end [Buffer.concat chunks]).
Proof.
  unfold parseFormData. rewrite listen_until_end. cbn [app]. now rewrite <- on_end_concat.
Qed.

(** X12.  The parser has no limit and no timeout of its own: a stream that
    delivers chunks and neither ends nor fails leaves the promise pending,
    however many chunks have come. *)
Theorem form_waits_for_the_end (chunks : list Buffer.t) :
  parseFormData (map data chunks) = Pending.
Proof.
  unfold parseFormData. generalize (@nil Buffer.t) as acc.
  induction chunks as [| c chunks IH]; intros acc; cbn [map listen]; auto.
Qed.


(** ASCII bytes decode to themselves. *)
Lemma decode_ascii (bs : list N) :
  forallb (fun c => (c <=? 127)%N) bs = true -> Buffer.utf8_decode bs = bs.
Proof.
  unfold Buffer.utf8_decode. induction bs as [| b bs IH]; [reflexivity |].
  cbn [forallb]. intros H. apply andb_true_iff in H as [Hb Hbs].
  cbn [Buffer.decode]. unfold Buffer.lead. rewrite Hb. cbn [app]. now rewrite IH.
Qed.

Lemma field_char_spec (c : N) :
  field_char c = true ->
  (c <=? 127)%N = true /\ c <> ch "&" /\ c <> ch "%" /\ c <> ch "+".
Proof.
  unfold field_char. rewrite !andb_true_iff, !negb_true_iff, !N.eqb_neq. tauto.
Qed.

Lemma field_ascii (s : jsstring) :
  forallb field_char s = true -> forallb (fun c => (c <=? 127)%N) s = true.
Proof.
  rewrite !forallb_forall. intros H c Hc. now apply field_char_spec, H.
Qed.

Lemma name_field (s : jsstring) :
  forallb name_char s = true -> forallb field_char s = true /\ ~ In (ch "=") s.
Proof.
  rewrite !forallb_forall. intros H. split.
  - intros c Hc. apply H in Hc. unfold name_char in Hc. now apply andb_true_iff in Hc.
  - intros Hc. apply H in Hc. unfold name_char in Hc.
    apply andb_true_iff in Hc as [_ Hc]. now rewrite N.eqb_refl in Hc.
Qed.

Lemma decode_part_plain (s : jsstring) :
  forallb field_char s = true -> URLSearchParams.decode_part s = s.
Proof.
  intros H. unfold URLSearchParams.decode_part.
  assert (E : URLSearchParams.has_escape s 0 = false
              /\ URLSearchParams.plus_to_space s = s).
  { induction s as [| c s IH]; [split; reflexivity |].
    cbn [forallb] in H. apply andb_true_iff in H as [Hc Hs].
    apply field_char_spec in Hc as (_ & _ & Hp & Hplus).
    apply N.eqb_neq in Hp, Hplus. destruct (IH Hs) as [IH1 IH2].
    cbn [URLSearchParams.has_escape URLSearchParams.plus_to_space map].
    rewrite Hp, Hplus. split; [exact IH1 |]. f_equal. exact IH2. }
  destruct E as [-> ->]. reflexivity.
Qed.

Lemma name_value_eq (k v : jsstring) :
  ~ In (ch "=") k -> URLSearchParams.name_value (k ++ ch "=" :: v) = (k, v).
Proof.
  induction k as [| c k IH]; cbn [app URLSearchParams.name_value In]; intros H.
  - now rewrite N.eqb_refl.
  - destruct (N.eqb c (ch "=")) eqn:E; [apply N.eqb_eq in E; tauto |].
    rewrite IH by tauto. reflexivity.
Qed.

Lemma parse_sequence_plain (kv : jsstring * jsstring) :
  plain_field kv = true ->
  URLSearchParams.parse_sequence (sequence kv) = [kv].
Proof.
  destruct kv as [k v]. unfold plain_field, sequence. cbn [fst snd]. intros H.
  apply andb_true_iff in H as [Hk Hv]. apply name_field in Hk as [Hk Heq].
  change (js "=" ++ v) with (ch "=" :: v).
  unfold URLSearchParams.parse_sequence.
  destruct (k ++ ch "=" :: v) as [| x r] eqn:E; [destruct k; discriminate E |].
  rewrite <- E, name_value_eq by assumption.
  now rewrite !decode_part_plain.
Qed.

Lemma form_text_ascii (fields : list (jsstring * jsstring)) :
  forallb plain_field fields = true ->
  forallb (fun c => (c <=? 127)%N) (form_text fields) = true.
Proof.
  unfold form_text. induction fields as [| kv fields IH]; [reflexivity |].
  cbn [forallb map]. intros H. apply andb_true_iff in H as [Hkv Hf].
  assert (H1 : forallb (fun c => (c <=? 127)%N) (sequence kv) = true).
  { unfold plain_field in Hkv. apply andb_true_iff in Hkv as [Hk Hv].
    apply name_field in Hk as [Hk _]. unfold sequence.
    rewrite !forallb_app. now rewrite (field_ascii _ Hk), (field_ascii _ Hv). }
  destruct fields as [| kv' fields]; [exact H1 |].
  change (map sequence (kv' :: fields)) with (sequence kv' :: map sequence fields) in *.
  rewrite join_cons, forallb_app, H1, forallb_app, (IH Hf). reflexivity.
Qed.

Lemma sequences_free (fields : list (jsstring * jsstring)) :
  forallb plain_field fields = true ->
  Forall (fun p => ~ In (ch "&") p) (map sequence fields).
Proof.
  intros H. rewrite Forall_map, Forall_forall. intros kv Hin. unfold sequence.
  rewrite forallb_forall in H. apply H in Hin. unfold plain_field in Hin.
  apply andb_true_iff in Hin as [Hk Hv]. apply name_field in Hk as [Hk _].
  rewrite forallb_forall in Hk, Hv.
  rewrite !in_app_iff. intros [Hc | [Hc | Hc]].
  - apply Hk, field_char_spec in Hc. tauto.
  - cbn in Hc. destruct Hc as [Hc | []]. discriminate Hc.
  - apply Hv, field_char_spec in Hc. tauto.
Qed.

(** The parser reads the fields back from their text. *)
Lemma parse_form_text (fields : list (jsstring * jsstring)) :
  forallb plain_field fields = true ->
  URLSearchParams.parse (form_text fields) = fields.
Proof.
  intros H. unfold URLSearchParams.parse, form_text.
  destruct fields as [| kv fields]; [reflexivity |].
  change (js "&") with [ch "&"].
  rewrite split_join by (discriminate || now apply sequences_free).
  rewrite forallb_forall in H.
  induction (kv :: fields) as [| x l IH]; [reflexivity |].
  cbn [map flat_map]. rewrite parse_sequence_plain by (apply H; now left).
  cbn [app]. f_equal. apply IH. intros y Hy. apply H. now right.
Qed.

(** X13.  Fields that need no escaping come back as they were sent: when
    the bytes of the body, in whatever chunks, are the text
    [name=value&name=value...] of a list of fields whose names and values
    are ASCII without ampersand, percent sign and plus sign, the names also
    without equals sign, and the text does not start with a question mark,
    the parser resolves with exactly these fields in their order.  A value
    may hold equals signs; a leading question mark would be dropped by
    [URLSearchParams]. *)
Theorem plain_form_round_trip
        (fields : list (jsstring * jsstring)) (chunks : list Buffer.t) :
  forallb plain_field fields = true ->
  startsWith (form_text fields) (js "?") = false ->
  map Byte.to_N (Buffer.concat chunks) = form_text fields ->
  parseFormData (map data chunks ++ [end_]) = Resolved fields.
Proof.
  intros Hplain Hq Hbody. unfold parseFormData. rewrite listen_chunks. cbn [app].
  f_equal. unfold on_end. cbv zeta. rewrite form_of_params_entries.
  unfold Buffer.toString. rewrite Hbody.
  pose proof (form_text_ascii fields Hplain) as Hascii.
  rewrite decode_ascii by assumption.
  unfold URLSearchParams.new.
  destruct (form_text fields) as [| c t] eqn:E.
  - rewrite <- E. now apply parse_form_text.
  - change (startsWith (c :: t) (js "?")) with (N.eqb c (ch "?") && true) in Hq.
    rewrite andb_true_r in Hq. rewrite Hq.
    rewrite <- E in *. now apply parse_form_text.
Qed.

Lemma plain_form_round_trip_witness :
  parseFormData (map data [Disk.bytes "name=Har"; Disk.bytes "ry&note=a=b"] ++ [end_])
  = Resolved [(js "name", js "Harry"); (js "note", js "a=b")].
Proof.
  apply (plain_form_round_trip [(js "name", js "Harry"); (js "note", js "a=b")]
           [Disk.bytes "name=Har"; Disk.bytes "ry&note=a=b"]);
    reflexivity.
Defined.


(** ** The handlers and the database *)

Lemma includes_In l x : includes l x = true -> In x l.
Proof.
  unfold includes. intros H. apply existsb_exists in H as (y & Hy & E).
  apply eqb_eq in E. now subst.
Qed.

Lemma truthy_nonempty v : truthy (Some v) = true -> v <> [].
Proof. destruct v; [discriminate | discriminate]. Qed.

(** X14.  The listing handler leaves the database as it is, unless the
    request is a POST whose body came to its end with a non-empty name and
    one of the four houses, the existence query answered with a zero for
    that name, and the insert of exactly that name and house succeeded; the
    database is then what the insert made of it and the answer is the
    redirect to the listing.  One kind of run is set apart and nothing is
    said of it: the driver answers the existence query with a text that is
    not made of digits only, which the code would turn into a number and
    which the model does not follow. *)
Theorem list_inserts_only_valid_new_students
        {S} (rt : runtime) (svc : services S) (db : S)
        (request : IncomingMessage) (stream : list stream_event) :
  (exists formData name house r s,
     method request = js "POST"
     /\ parseFormData stream = Resolved formData
     /\ FormData.get formData (js "name") = Some name /\ name <> []
     /\ FormData.get formData (js "house") = Some house /\ In house HOUSES
     /\ db_get svc db EXISTS_SQL [name] = Fulfilled (Some r)
     /\ assoc (js "exists_") r = Some (VText s) /\ digits_only s = false
     /\ studentList_handler rt svc db request stream = (db, ReplyNotModelled))
  \/ (fst (studentList_handler rt svc db request stream) = db
      /\ snd (studentList_handler rt svc db request stream) <> ReplyNotModelled)
  \/ exists formData name house r,
       method request = js "POST"
       /\ parseFormData stream = Resolved formData
       /\ FormData.get formData (js "name") = Some name /\ name <> []
       /\ FormData.get formData (js "house") = Some house /\ In house HOUSES
       /\ db_get svc db EXISTS_SQL [name] = Fulfilled (Some r)
       /\ equals_zero (assoc (js "exists_") r) = Some true
       /\ db_run svc db INSERT_SQL [name; house]
          = Fulfilled (fst (studentList_handler rt svc db request stream))
       /\ snd (studentList_handler rt svc db request stream) = Answered (to_students request).
Proof.
  assert (R : forall name ctx respond,
             render_reply rt svc name ctx respond <> ReplyNotModelled).
  { intros. unfold render_reply. destruct (renderTemplate rt svc name ctx); discriminate. }
  unfold studentList_handler.
  destruct (eqb (method request) (js "POST")) eqn:Em.
  2:{ right. left. destruct (db_all svc db _ []); cbn [fst snd];
      split; try reflexivity; [apply R | discriminate]. }
  apply eqb_eq in Em.
  destruct (parseFormData stream) as [| formData | e] eqn:Ep;
    try (right; left; split; [reflexivity | discriminate]).
  destruct (FormData.get formData (js "name")) as [name |] eqn:En;
    [| right; left; split; [reflexivity | discriminate]].
  destruct (FormData.get formData (js "house")) as [house |] eqn:Eh;
    [| right; left; split; [reflexivity | discriminate]].
  destruct (truthy (Some name) && is_house (Some house)) eqn:Ev;
    [| right; left; split; [reflexivity | discriminate]].
  apply andb_true_iff in Ev as [Ht Hh].
  destruct (db_get svc db EXISTS_SQL [name]) as [[r |] | m] eqn:Eg;
    try (right; left; split; [reflexivity | discriminate]).
  destruct (equals_zero (assoc (js "exists_") r)) as [[|] |] eqn:Ez.
  - destruct (db_run svc db INSERT_SQL [name; house]) as [db' | m] eqn:Er;
      [| right; left; split; [reflexivity | discriminate]].
    right. right. exists formData, name, house, r. cbn [fst snd].
    repeat split; auto using truthy_nonempty, includes_In.
  - right. left. split; [reflexivity | discriminate].
  - left. unfold equals_zero in Ez.
    destruct (assoc (js "exists_") r) as [[| z | s] |] eqn:Ea; try discriminate.
    destruct (digits_only s) eqn:Ed; [discriminate |].
    exists formData, name, house, r, s.
    repeat split; auto using truthy_nonempty, includes_In.
Qed.

(** X15.  The delete handler leaves the database as it is, unless the body
    came to its end with a non-empty [id] field and the delete statement for
    exactly that id succeeded; the answer is then the redirect to the
    listing. *)
Theorem delete_runs_only_with_an_id
        {S} (svc : services S) (db : S)
        (request : IncomingMessage) (stream : list stream_event) :
  fst (studentDelete_handler svc db request stream) = db
  \/ exists formData id,
       parseFormData stream = Resolved formData
       /\ FormData.get formData (js "id") = Some id /\ id <> []
       /\ db_run svc db DELETE_SQL [id]
          = Fulfilled (fst (studentDelete_handler svc db request stream))
       /\ snd (studentDelete_handler svc db request stream) = Answered (to_students request).
Proof.
  unfold studentDelete_handler.
  destruct (parseFormData stream) as [| formData | e] eqn:Ep; try (left; reflexivity).
  destruct (FormData.get formData (js "id")) as [[| c id] |] eqn:Ei; try (left; reflexivity).
  destruct (db_run svc db DELETE_SQL [c :: id]) as [db' | m] eqn:Er; [| left; reflexivity].
  right. exists formData, (c :: id). cbn [fst snd]. repeat split; auto. discriminate.
Qed.

(** X16.  The change handler leaves the database as it is, unless the id of
    the route is that of a student the database holds, the request is a POST
    whose body came to its end with a non-empty name and one of the four
    houses, and the update of exactly that name, house and id succeeded; the
    answer is then the redirect to the listing. *)
Theorem change_updates_only_valid_students
        {S} (rt : runtime) (svc : services S) (db : S)
        (request : IncomingMessage) (stream : list stream_event)
        (params : list (jsstring * option jsstring)) :
  fst (studentChange_handler rt svc db request stream params) = db
  \/ exists id student formData name house,
       params_id params = Some id /\ id <> []
       /\ db_get svc db STUDENT_SQL [id] = Fulfilled (Some student)
       /\ method request = js "POST"
       /\ parseFormData stream = Resolved formData
       /\ FormData.get formData (js "name") = Some name /\ name <> []
       /\ FormData.get formData (js "house") = Some house /\ In house HOUSES
       /\ db_run svc db UPDATE_SQL [name; house; id]
          = Fulfilled (fst (studentChange_handler rt svc db request stream params))
       /\ snd (studentChange_handler rt svc db request stream params)
          = Answered (to_students request).
Proof.
  unfold studentChange_handler.
  destruct (params_id params) as [[| c id] |] eqn:Ei; try (left; reflexivity).
  destruct (db_get svc db STUDENT_SQL [c :: id]) as [[student |] | m] eqn:Eg;
    try (left; reflexivity).
  destruct (eqb (method request) (js "POST")) eqn:Em; [| left; reflexivity].
  apply eqb_eq in Em.
  destruct (parseFormData stream) as [| formData | e] eqn:Ep; try (left; reflexivity).
  destruct (FormData.get formData (js "name")) as [name |] eqn:En; [| left; reflexivity].
  destruct (FormData.get formData (js "house")) as [house |] eqn:Eh; [| left; reflexivity].
  destruct (truthy (Some name) && is_house (Some house)) eqn:Ev; [| left; reflexivity].
  apply andb_true_iff in Ev as [Ht Hh].
  destruct (db_run svc db UPDATE_SQL [name; house; c :: id]) as [db' | m] eqn:Er.
  - right. exists (c :: id), student, formData, name, house. cbn [fst snd].
    repeat split; auto using truthy_nonempty, includes_In; discriminate.
  - left. destruct (contains m _); reflexivity.
Qed.

(** X17.  A submission the listing handler turns down looks like one it
    took: when the name is missing or empty or the house is not one of the
    four, and also when a student of that name exists already, the answer to
    the POST is the same redirect to the listing that follows an insert, and
    the database is untouched.  The handler has no error page. *)
Theorem rejected_submission_looks_like_success
        {S} (rt : runtime) (svc : services S) (db : S)
        (request : IncomingMessage) (stream : list stream_event) (formData : FormData.t) :
  method request = js "POST" ->
  parseFormData stream = Resolved formData ->
  truthy (FormData.get formData (js "name")) && is_house (FormData.get formData (js "house")) = false
  \/ (exists name r,
        FormData.get formData (js "name") = Some name
        /\ db_get svc db EXISTS_SQL [name] = Fulfilled (Some r)
        /\ equals_zero (assoc (js "exists_") r) = Some false) ->
  studentList_handler rt svc db request stream = (db, Answered (to_students request)).
Proof.
  intros Hm Hp H. unfold studentList_handler. rewrite Hm, eqb_refl, Hp.
  destruct (FormData.get formData (js "name")) as [name |] eqn:En; [| reflexivity].
  destruct (FormData.get formData (js "house")) as [house |] eqn:Eh; [| reflexivity].
  destruct H as [H | (name' & r & Hn & Hg & Hz)].
  - now rewrite H.
  - injection Hn as <-. destruct (truthy (Some name) && is_house (Some house)); [| reflexivity].
    now rewrite Hg, Hz.
Qed.

Lemma rejected_submission_looks_like_success_witness :
  studentList_handler Toy.site Toy.services Toy.hogwarts (Toy.POST "/students")
                      (Toy.body "name=Ron+Weasley&house=Durmstrang")
  = (Toy.hogwarts, Answered (to_students (Toy.POST "/students"))).
Proof.
  apply (rejected_submission_looks_like_success
           Toy.site Toy.services Toy.hogwarts (Toy.POST "/students")
           (Toy.body "name=Ron+Weasley&house=Durmstrang")
           [(js "name", js "Ron Weasley"); (js "house", js "Durmstrang")]).
  - reflexivity.
  - reflexivity.
  - left. reflexivity.
Defined.

(** A student the database does not hold is answered with the 404 of the
    handler, whatever the method and the body. *)
Lemma unknown_student_is_not_found
      {S} (rt : runtime) (svc : services S) (db : S)
      (request : IncomingMessage) (stream : list stream_event)
      (params : list (jsstring * option jsstring)) :
  (forall id, params_id params = Some id -> id <> [] ->
              db_get svc db STUDENT_SQL [id] = Fulfilled None) ->
  studentChange_handler rt svc db request stream params = (db, Answered no_student).
Proof.
  intros H. unfold studentChange_handler.
  destruct (params_id params) as [[| c id] |] eqn:Ei; try reflexivity.
  assert (E : db_get svc db STUDENT_SQL [c :: id] = Fulfilled None)
    by (apply H; [reflexivity | discriminate]).
  cbv beta iota zeta. unfold jsstring in *. now rewrite E.
Qed.

(** X18.  A POST to the change handler whose body has no [name] field makes
    the handler throw: [formData.get] answers [null], reading its [length]
    is a [TypeError], nothing catches it, and no answer is written.  (The
    listing handler redirects in the same situation.) *)
Theorem change_without_name_field_throws
        {S} (rt : runtime) (svc : services S) (db : S)
        (request : IncomingMessage) (stream : list stream_event)
        (params : list (jsstring * option jsstring))
        (id : jsstring) (student : row) (formData : FormData.t) :
  params_id params = Some id -> id <> [] ->
  db_get svc db STUDENT_SQL [id] = Fulfilled (Some student) ->
  method request = js "POST" ->
  parseFormData stream = Resolved formData ->
  FormData.get formData (js "name") = None ->
  studentChange_handler rt svc db request stream params = (db, Uncaught TypeError).
Proof.
  intros Hid Hne Hget Hm Hp Hn. unfold studentChange_handler.
  rewrite Hid. destruct id as [| c id]; [contradiction |]. cbv beta iota zeta.
  unfold jsstring in *. rewrite Hget, Hm, eqb_refl, Hp, Hn. reflexivity.
Qed.

Lemma change_without_name_field_throws_witness :
  studentChange_handler Toy.site Toy.services Toy.hogwarts (Toy.POST "/students/1/change")
                        (Toy.body "house=Slytherin") [(js "id", Some (js "1"))]
  = (Toy.hogwarts, Uncaught TypeError).
Proof.
  apply (change_without_name_field_throws
           Toy.site Toy.services Toy.hogwarts (Toy.POST "/students/1/change")
           (Toy.body "house=Slytherin") [(js "id", Some (js "1"))]
           (js "1")
           [(js "name", VText (js "Harry Potter")); (js "house", VText (js "Gryffindor"))]
           [(js "house", js "Slytherin")]);
    try reflexivity.
  discriminate.
Defined.

(** X19.  The change handler takes every failure of the update but one for
    a success: when the statement fails with a message that does not speak
    of a unique constraint, the error is swallowed by the [catch], the
    database is unchanged, and the answer is the redirect that follows a
    successful update. *)
Theorem change_treats_other_errors_as_success
        {S} (rt : runtime) (svc : services S) (db : S)
        (request : IncomingMessage) (stream : list stream_event)
        (params : list (jsstring * option jsstring))
        (id : jsstring) (student : row) (formData : FormData.t)
        (name house message : jsstring) :
  params_id params = Some id -> id <> [] ->
  db_get svc db STUDENT_SQL [id] = Fulfilled (Some student) ->
  method request = js "POST" ->
  parseFormData stream = Resolved formData ->
  FormData.get formData (js "name") = Some name -> name <> [] ->
  FormData.get formData (js "house") = Some house -> includes HOUSES house = true ->
  db_run svc db UPDATE_SQL [name; house; id] = Failed message ->
  contains message (js "UNIQUE constraint failed") = false ->
  studentChange_handler rt svc db request stream params
  = (db, Answered (to_students request)).
Proof.
  intros Hid Hne Hget Hm Hp Hn Hnn Hh Hin Hrun Hc. unfold studentChange_handler.
  rewrite Hid. destruct id as [| c id]; [contradiction |]. cbv beta iota zeta.
  unfold jsstring in *. rewrite Hget, Hm, eqb_refl, Hp, Hn, Hh.
  destruct name as [| n name]; [contradiction |].
  cbn [truthy is_house andb]. rewrite Hin, Hrun, Hc. reflexivity.
Qed.

Lemma change_treats_other_errors_as_success_witness :
  studentChange_handler Toy.site busy Toy.hogwarts (Toy.POST "/students/1/change")
                        (Toy.body "name=Harry+James+Potter&house=Gryffindor")
                        [(js "id", Some (js "1"))]
  = (Toy.hogwarts, Answered (to_students (Toy.POST "/students/1/change"))).
Proof.
  apply (change_treats_other_errors_as_success
           Toy.site busy Toy.hogwarts (Toy.POST "/students/1/change")
           (Toy.body "name=Harry+James+Potter&house=Gryffindor")
           [(js "id", Some (js "1"))]
           (js "1")
           [(js "name", VText (js "Harry Potter")); (js "house", VText (js "Gryffindor"))]
           [(js "name", js "Harry James Potter"); (js "house", js "Gryffindor")]
           (js "Harry James Potter") (js "Gryffindor")
           (js "SQLITE_BUSY: database is locked"));
    try reflexivity; discriminate.
Defined.

(** X20.  A search without a [search] parameter is a search for the word
    [null]: the [null] that [searchParams.get] answers is spliced into the
    template literal, and the statement runs with the pattern [%null%]. *)
Theorem search_without_parameter_looks_for_null
        {S} (svc : services S) (db : S) (request : IncomingMessage) :
  param (url_query svc (url request)) (js "search") = None ->
  studentsAPISearch_handler svc db request
  = match db_all svc db SEARCH_SQL [js "%null%"] with
    | Failed m => (db, Uncaught (DbFault m))
    | Fulfilled students => (db, Answered (json (JSON_stringify svc students) None))
    end.
Proof. intros H. unfold studentsAPISearch_handler. now rewrite H. Qed.

Lemma search_without_parameter_looks_for_null_witness :
  studentsAPISearch_handler Toy.services Toy.hogwarts (GET "/api/students?q=Harry")
  = match db_all Toy.services Toy.hogwarts SEARCH_SQL [js "%null%"] with
    | Failed m => (Toy.hogwarts, Uncaught (DbFault m))
    | Fulfilled students =>
        (Toy.hogwarts, Answered (json (JSON_stringify Toy.services students) None))
    end.
Proof.
  apply (search_without_parameter_looks_for_null
           Toy.services Toy.hogwarts (GET "/api/students?q=Harry")).
  reflexivity.
Defined.

(** ** The server as a whole *)

(** X21.  Only a POST changes the database: for every request with another
    method, whatever its target, its body and the answers of the driver, the
    database after the request is the database before it. *)
Theorem only_post_changes_the_database
        {S} (rt : runtime) (svc : services S) (db : S)
        (request : IncomingMessage) (stream : list stream_event) :
  method request <> js "POST" ->
  fst (serve rt svc compiled_routes db request stream) = db.
Proof.
  intros Hm. apply eqb_neq in Hm. unfold serve.
  destruct (handleRequest rt compiled_routes request) as [r l | h params | f |] eqn:E;
    try reflexivity.
  destruct h; cbn [call]; try reflexivity.
  - unfold studentList_handler. rewrite Hm.
    destruct (db_all svc db _ []); reflexivity.
  - exfalso. apply handleRequest_invoked in E as (pathname & _ & _ & _ & E).
    apply scan_invoked in E as (r & mt & Hin & Hh & Hinc & _).
    rewrite compiled_routes_shape in Hin. cbn [In] in Hin.
    destruct Hin as [<- | [<- | [<- | [<- | [<- | [<- | [<- | []]]]]]]];
      cbn [def handler] in Hh; try discriminate.
    cbn [def methods includes existsb] in Hinc. rewrite orb_false_r in Hinc.
    rewrite Hinc in Hm. discriminate.
  - unfold studentChange_handler.
    destruct (params_id params) as [[| c id] |]; try reflexivity.
    destruct (db_get svc db STUDENT_SQL _) as [[student |] | m]; try reflexivity.
    now rewrite Hm.
  - unfold studentsDownload_handler.
    destruct (db_all svc db _ []) as [students | m]; [| reflexivity].
    destruct (all_some _); reflexivity.
  - unfold studentsAPISearch_handler. destruct (db_all svc db _ _); reflexivity.
Qed.

Lemma only_post_changes_the_database_witness :
  fst (serve Toy.site Toy.services compiled_routes Toy.hogwarts
             (GET "/students/delete") (Toy.body "id=1"))
  = Toy.hogwarts.
Proof.
  apply (only_post_changes_the_database Toy.site Toy.services Toy.hogwarts
           (GET "/students/delete") (Toy.body "id=1")).
  intros H. vm_compute in H. discriminate H.
Defined.

(** X22.  The router and the change handler together: a GET or a POST for
    [/students/<id>/change] with an id the database does not hold is
    answered with the 404 [No student found], the database is unchanged, and
    the body of a POST is not even read. *)
Theorem unknown_student_gets_404
        {S} (rt : runtime) (svc : services S) (db : S)
        (request : IncomingMessage) (stream : list stream_event) (v : jsstring) :
  url_parse rt (url request) = Url.Parsed (Some (js "/students/" ++ v ++ js "/change")) ->
  endsWith (url request) (js "/") = false ->
  startsWith (url request) (js "/public/") = false ->
  v <> [] -> forallb wd v = true ->
  includes [js "GET"; js "POST"] (method request) = true ->
  db_get svc db STUDENT_SQL [v] = Fulfilled None ->
  serve rt svc compiled_routes db request stream = (db, Answered no_student).
Proof.
  intros Hp He Hs Hv Hwd Hm Hget.
  assert (E : handleRequest rt compiled_routes request
              = Invoked studentChange [(js "id", Some v)]).
  { unfold handleRequest. rewrite Hp, He, Hs. cbn [pathname_text].
    rewrite compiled_routes_shape. cbn [scan pattern def methods handler].
    rewrite !exec_literal.
    destruct (change_path_is_no_literal v) as (E1 & E2 & E3). rewrite E1, E2, E3.
    rewrite exec_skeleton_match by (assumption || reflexivity).
    now rewrite Hm. }
  unfold serve. rewrite E. cbn [call].
  apply unknown_student_is_not_found.
  intros id Hid _. cbv in Hid. injection Hid as <-. exact Hget.
Qed.

Lemma unknown_student_gets_404_witness :
  serve Toy.site Toy.services compiled_routes Toy.hogwarts
        (Toy.POST "/students/99/change") (Toy.body "name=Nobody&house=Slytherin")
  = (Toy.hogwarts, Answered no_student).
Proof.
  apply (unknown_student_gets_404 Toy.site Toy.services Toy.hogwarts
           (Toy.POST "/students/99/change") (Toy.body "name=Nobody&house=Slytherin")
           (js "99"));
    try reflexivity.
  discriminate.
Defined.

Lemma alike_get {S} (svc svc' : services S) (db : S) sql params :
  alike svc svc' db -> In sql STATEMENTS -> db_get svc db sql params = db_get svc' db sql params.
Proof. intros [H _] Hin. now apply H. Qed.

Lemma alike_all {S} (svc svc' : services S) (db : S) sql params :
  alike svc svc' db -> In sql STATEMENTS -> db_all svc db sql params = db_all svc' db sql params.
Proof. intros [H _] Hin. now apply H. Qed.

Lemma alike_run {S} (svc svc' : services S) (db : S) sql params :
  alike svc svc' db -> In sql STATEMENTS -> db_run svc db sql params = db_run svc' db sql params.
Proof. intros [H _] Hin. now apply H. Qed.

(** The text of the listing query is one of three, whatever the [order]
    parameter holds. *)
Lemma list_query_fixed order : In (list_query order) STATEMENTS.
Proof.
  unfold list_query, STATEMENTS. destruct order as [o |]; [| cbn [In]; tauto].
  destruct (eqb o (js "abc")); [cbn [In]; tauto |].
  destruct (eqb o (js "zyx")); cbn [In]; tauto.
Qed.

Ltac fixed := unfold STATEMENTS; cbn [In]; tauto.

(** X23.  Nothing of a request ever becomes statement text: the server sends
    the driver ten statements and no other, with the data of the request in
    their parameters only.  Two drivers that answer alike on the database at
    hand for these ten statements, with any parameters, cannot be told apart
    by any request, whatever its target, method and body. *)
Theorem only_fixed_statements_reach_the_database
        {S} (rt : runtime) (svc svc' : services S) (table : list route) (db : S)
        (request : IncomingMessage) (stream : list stream_event) :
  alike svc svc' db ->
  serve rt svc table db request stream = serve rt svc' table db request stream.
Proof.
  intros A. pose proof A as (_ & Hh & Hj & Hu).
  assert (Hrender : forall name ctx respond,
             render_reply rt svc name ctx respond = render_reply rt svc' name ctx respond).
  { intros. unfold render_reply, renderTemplate.
    destruct (fs_readFile rt _); [now rewrite Hh | reflexivity]. }
  unfold serve. destruct (handleRequest rt table request) as [r l | h params | f |];
    try reflexivity.
  destruct h; cbn [call]; try reflexivity.
  - unfold studentList_handler. rewrite Hu.
    rewrite (alike_all svc svc' db _ [] A (list_query_fixed _)).
    destruct (eqb (method request) (js "POST")).
    + destruct (parseFormData stream) as [| formData | e]; try reflexivity.
      destruct (FormData.get formData (js "name")) as [name |]; [| reflexivity].
      destruct (FormData.get formData (js "house")) as [house |]; [| reflexivity].
      rewrite (alike_get svc svc' db EXISTS_SQL [name] A) by fixed.
      rewrite (alike_run svc svc' db INSERT_SQL [name; house] A) by fixed.
      reflexivity.
    + destruct (db_all svc' db _ []); [now rewrite Hrender | reflexivity].
  - unfold studentDelete_handler.
    destruct (parseFormData stream) as [| formData | e]; try reflexivity.
    destruct (FormData.get formData (js "id")) as [[| c id] |]; try reflexivity.
    now rewrite (alike_run svc svc' db DELETE_SQL [c :: id] A) by fixed.
  - unfold studentChange_handler.
    destruct (params_id params) as [[| c id] |]; try reflexivity.
    rewrite (alike_get svc svc' db STUDENT_SQL [c :: id] A) by fixed.
    destruct (db_get svc' db STUDENT_SQL [c :: id]) as [[student |] | m]; try reflexivity.
    destruct (eqb (method request) (js "POST")); [| now rewrite Hrender].
    destruct (parseFormData stream) as [| formData | e]; try reflexivity.
    destruct (FormData.get formData (js "name")) as [name |]; [| reflexivity].
    destruct (FormData.get formData (js "house")) as [house |]; [| now rewrite Hrender].
    rewrite (alike_run svc svc' db UPDATE_SQL [name; house; c :: id] A) by fixed.
    now rewrite !Hrender.
  - unfold studentsDownload_handler.
    now rewrite (alike_all svc svc' db EXPORT_SQL [] A) by fixed.
  - unfold studentsSearch_handler. now rewrite Hrender.
  - unfold studentsAPISearch_handler. rewrite Hu.
    rewrite (alike_all svc svc' db SEARCH_SQL _ A) by fixed.
    destruct (db_all svc' db SEARCH_SQL _); [now rewrite Hj | reflexivity].
Qed.

Lemma only_fixed_statements_reach_the_database_witness :
  serve Toy.site Toy.services compiled_routes Toy.hogwarts
        (Toy.POST "/students") (Toy.body "name=Luna+Lovegood&house=Ravenclaw")
  = serve Toy.site guarded compiled_routes Toy.hogwarts
          (Toy.POST "/students") (Toy.body "name=Luna+Lovegood&house=Ravenclaw").
Proof.
  apply (only_fixed_statements_reach_the_database
           Toy.site Toy.services guarded compiled_routes Toy.hogwarts
           (Toy.POST "/students") (Toy.body "name=Luna+Lovegood&house=Ravenclaw")).
  unfold alike. split; [| repeat split; reflexivity].
  intros sql params Hin. unfold STATEMENTS in Hin. cbn [In] in Hin.
  repeat (destruct Hin as [<- | Hin]; [repeat split; reflexivity |]).
  contradiction.
Defined.


(** ** The export *)


(** A printed integer is made of digits and at most a sign. *)
Lemma uint_chars_digits u c : In c (uint_chars u) -> (48 <= c <= 57)%N.
Proof.
  induction u; cbn [uint_chars In]; try tauto; intros [<- | H]; auto; lia.
Qed.

Lemma print_int_chars z s c :
  print_int z = Some s -> In c s -> c = ch "-" \/ (48 <= c <= 57)%N.
Proof.
  unfold print_int. destruct (safe_integer z); [| discriminate].
  intros E Hc. injection E as <-. destruct z as [| p | p].
  - cbn in Hc. right. destruct Hc as [<- | []]. lia.
  - right. now apply uint_chars_digits in Hc.
  - cbn [In] in Hc. destruct Hc as [<- | Hc]; [now left |].
    right. now apply uint_chars_digits in Hc.
Qed.

Lemma csv_clean_prints cell :
  csv_clean cell = true ->
  exists s, print_cell cell = Some s /\ ~ In (ch ",") s /\ ~ In 10%N s.
Proof.
  destruct cell as [[| z | s] |]; cbn [csv_clean print_cell]; intros H;
    try (exists []; cbn [In]; tauto).
  - destruct (print_int z) as [s |] eqn:E.
    2:{ unfold print_int in E. rewrite H in E. discriminate. }
    exists s. split; [reflexivity |].
    split; intros Hc; destruct (print_int_chars z s _ E Hc) as [Hd | Hd];
      try (vm_compute in Hd; discriminate Hd);
      change (ch ",") with 44%N in Hd; lia.
  - exists s. split; [reflexivity |].
    rewrite forallb_forall in H.
    split; intros Hc; apply H in Hc; unfold csv_char in Hc;
      rewrite N.eqb_refl in Hc; cbn in Hc; discriminate.
Qed.

Lemma join_free (sep c : N) (parts : list jsstring) :
  c <> sep -> Forall (fun p => ~ In c p) parts -> ~ In c (JS.join [sep] parts).
Proof.
  intros Hc H. induction H as [| p parts Hp Hps IH]; [cbn [JS.join]; tauto |].
  destruct parts as [| q parts]; [assumption |].
  rewrite join_cons, in_app_iff. cbn [app In]. intros [? | [? | ?]]; [tauto | congruence | tauto].
Qed.

Lemma export_cells_clean student :
  forallb (fun f => csv_clean (assoc f student)) FIELD_NAMES = true ->
  exists cells,
    export_cells student = Some cells
    /\ List.length cells = 3
    /\ Forall (fun p => ~ In (ch ",") p) cells
    /\ Forall (fun p => ~ In 10%N p) cells.
Proof.
  unfold export_cells, FIELD_NAMES. cbn [forallb map all_some].
  rewrite !andb_true_iff. intros (H1 & H2 & H3 & _).
  destruct (csv_clean_prints _ H1) as (s1 & -> & ? & ?).
  destruct (csv_clean_prints _ H2) as (s2 & -> & ? & ?).
  destruct (csv_clean_prints _ H3) as (s3 & -> & ? & ?).
  exists [s1; s2; s3]. repeat split; auto.
Qed.

Lemma export_table_clean students :
  Forall (fun st => forallb (fun f => csv_clean (assoc f st)) FIELD_NAMES = true) students ->
  exists table,
    all_some (map export_cells students) = Some table
    /\ List.length table = List.length students
    /\ Forall (fun cells => cells <> [] /\ Forall (fun p => ~ In (ch ",") p) cells
                            /\ Forall (fun p => ~ In 10%N p) cells) table.
Proof.
  induction 1 as [| st students Hst _ IH].
  - exists []. repeat split; constructor.
  - destruct IH as (table & E & Hl & Ht).
    destruct (export_cells_clean st Hst) as (cells & Ec & Hlen & Hc & Hn).
    exists (cells :: table). cbn [map all_some]. rewrite Ec, E.
    repeat split; [cbn [List.length]; now rewrite Hl |].
    constructor; [| assumption]. repeat split; auto.
    destruct cells; [discriminate Hlen | discriminate].
Qed.

(** X24.  The export can be read back when no cell needs quoting: if no
    name and no house of the table holds a comma or a line feed (the ids
    being integers a number holds exactly), the handler answers with the CSV
    response, and cutting its body at the line feeds and every line at the
    commas gives the header [id,name,house], then the students row by row
    with their three cells, then one empty line for the line feed at the
    end.  For an empty table the body is the header and two line feeds, which
    reads as the header and two empty lines. *)
Theorem export_reads_back {S} (svc : services S) (db : S) (students : list row) :
  db_all svc db EXPORT_SQL [] = Fulfilled students ->
  Forall (fun st => forallb (fun f => csv_clean (assoc f st)) FIELD_NAMES = true) students ->
  exists table,
    all_some (map export_cells students) = Some table
    /\ List.length table = List.length students
    /\ studentsDownload_handler svc db = (db, Answered (csv_response (csv_body table)))
    /\ map (JS.split (ch ",")) (JS.split 10 (csv_body table))
       = FIELD_NAMES :: match table with [] => [[[]]] | _ :: _ => table end ++ [[[]]].
Proof.
  intros Hall Hclean.
  destruct (export_table_clean students Hclean) as (table & E & Hl & Ht).
  exists table. split; [exact E |]. split; [exact Hl |]. split.
  - unfold studentsDownload_handler. now rewrite Hall, E.
  - unfold csv_body. cbv zeta.
    change (JS.join comma FIELD_NAMES ++ newline ++ ?x)
      with (JS.join comma FIELD_NAMES ++ 10%N :: x).
    rewrite split_app_sep.
    replace (JS.split 10 (JS.join comma FIELD_NAMES)) with [JS.join comma FIELD_NAMES]
      by reflexivity.
    unfold newline. rewrite split_app_sep. cbn [JS.split].
    rewrite !map_app. cbn [map].
    replace (JS.split (ch ",") (JS.join comma FIELD_NAMES)) with FIELD_NAMES by reflexivity.
    cbn [app]. f_equal.
    destruct table as [| cells table]; [reflexivity |].
    rewrite split_join.
    + f_equal. rewrite map_map.
      rewrite <- (map_id (cells :: table)) at 2.
      apply map_ext_Forall. eapply Forall_impl; [| exact Ht].
      intros r (Hne & Hc & _). now apply split_join.
    + destruct (map (JS.join comma) (cells :: table)) eqn:Em; [discriminate Em | discriminate].
    + rewrite Forall_map. eapply Forall_impl; [| exact Ht].
      intros r (_ & _ & Hn). apply join_free; [discriminate | exact Hn].
Qed.

Lemma export_reads_back_witness :
  exists table,
    all_some (map export_cells (map Toy.student_row Toy.hogwarts)) = Some table
    /\ List.length table = List.length (map Toy.student_row Toy.hogwarts)
    /\ studentsDownload_handler Toy.services Toy.hogwarts
       = (Toy.hogwarts, Answered (csv_response (csv_body table)))
    /\ map (JS.split (ch ",")) (JS.split 10 (csv_body table))
       = FIELD_NAMES :: match table with [] => [[[]]] | _ :: _ => table end ++ [[[]]].
Proof.
  apply (export_reads_back Toy.services Toy.hogwarts (map Toy.student_row Toy.hogwarts)).
  - reflexivity.
  - repeat constructor.
Defined.

Lemma all_some_length {A} (l : list (option A)) (xs : list A) :
  all_some l = Some xs -> List.length xs = List.length l.
Proof.
  revert xs; induction l as [| [x |] l IH]; intros xs; cbn [all_some]; try discriminate.
  - now intros [= <-].
  - destruct (all_some l) as [ys |]; [| discriminate].
    intros [= <-]. cbn [List.length]. now rewrite (IH ys).
Qed.

Lemma occurrences_exists (sep : N) (parts : list jsstring) :
  Exists (In sep) parts -> 0 < list_sum (map (occurrences sep) parts).
Proof.
  induction 1 as [p ps Hp | p ps Hex IH];
    change (list_sum (map (occurrences sep) (p :: ps)))
      with (occurrences sep p + list_sum (map (occurrences sep) ps)).
  - apply occurrences_pos in Hp. lia.
  - lia.
Qed.

Lemma all_some_nth {A} (l : list (option A)) (xs : list A) (i : nat) (o : option A) :
  all_some l = Some xs -> nth_error l i = Some o ->
  exists x, o = Some x /\ nth_error xs i = Some x.
Proof.
  revert xs i; induction l as [| [y |] l IH]; intros xs i; cbn [all_some]; try discriminate.
  - intros _. destruct i; discriminate.
  - destruct (all_some l) as [ys |]; [| discriminate].
    intros [= <-]. destruct i as [| i]; cbn [nth_error].
    + intros [= <-]. now exists y.
    + now apply IH.
Qed.

Lemma line_clean_prints cell :
  line_clean cell = true -> exists s, print_cell cell = Some s /\ ~ In 10%N s.
Proof.
  destruct cell as [[| z | s] |]; cbn [line_clean print_cell]; intros H;
    try (exists []; cbn [In]; tauto).
  - destruct (print_int z) as [s |] eqn:E.
    2:{ unfold print_int in E. rewrite H in E. discriminate. }
    exists s. split; [reflexivity |].
    intros Hc; destruct (print_int_chars z s _ E Hc) as [Hd | Hd];
      [vm_compute in Hd; discriminate Hd | lia].
  - exists s. split; [reflexivity |].
    rewrite forallb_forall in H.
    intros Hc; apply H in Hc. rewrite N.eqb_refl in Hc. discriminate.
Qed.

Lemma export_table_lines students :
  Forall (fun st => forallb (fun f => line_clean (assoc f st)) FIELD_NAMES = true) students ->
  exists table,
    all_some (map export_cells students) = Some table
    /\ Forall (fun cells => Forall (fun p => ~ In 10%N p) cells) table.
Proof.
  induction 1 as [| st students Hst _ IH].
  - exists []. split; constructor.
  - destruct IH as (table & E & Ht).
    revert Hst. unfold FIELD_NAMES. cbn [forallb]. rewrite !andb_true_iff.
    intros (H1 & H2 & H3 & _).
    destruct (line_clean_prints _ H1) as (s1 & E1 & ?).
    destruct (line_clean_prints _ H2) as (s2 & E2 & ?).
    destruct (line_clean_prints _ H3) as (s3 & E3 & ?).
    exists ([s1; s2; s3] :: table). cbn [map]. unfold export_cells at 1, FIELD_NAMES.
    cbn [map all_some]. rewrite E1, E2, E3, E. split; [reflexivity |].
    constructor; [| assumption]. repeat constructor; assumption.
Qed.

(** The lines of the export: the header, one line for every row, and the
    empty text after the last line feed. *)
Lemma csv_body_lines (table : list (list jsstring)) :
  table <> [] ->
  Forall (fun cells => Forall (fun p => ~ In 10%N p) cells) table ->
  JS.split 10 (csv_body table)
  = JS.join comma FIELD_NAMES :: map (JS.join comma) table ++ [[]].
Proof.
  intros Hne Ht. unfold csv_body. cbv zeta.
  change (JS.join comma FIELD_NAMES ++ newline ++ ?x)
    with (JS.join comma FIELD_NAMES ++ 10%N :: x).
  rewrite split_app_sep.
  replace (JS.split 10 (JS.join comma FIELD_NAMES)) with [JS.join comma FIELD_NAMES]
    by reflexivity.
  unfold newline. rewrite split_app_sep. cbn [JS.split app]. f_equal. f_equal.
  apply split_join.
  - destruct table; [contradiction | discriminate].
  - rewrite Forall_map. eapply Forall_impl; [| exact Ht].
    intros r Hn. apply join_free; [discriminate | exact Hn].
Qed.

(** X25.  The export quotes nothing.  When no cell of the table holds a
    line feed and the cells of the student in row [i] hold a comma, the
    handler answers with the CSV response, line [i + 1] of its body (the
    header being line 0) is the three cells of that student as they are with
    commas between them, that line reads back as more than three cells, and
    so the body does not read back as the table. *)
Theorem comma_in_a_cell_adds_a_column
        {Db} (svc : services Db) (db : Db)
        (students : list row) (i : nat) (student : row) (cells : list jsstring) :
  db_all svc db EXPORT_SQL [] = Fulfilled students ->
  Forall (fun st => forallb (fun f => line_clean (assoc f st)) FIELD_NAMES = true) students ->
  nth_error students i = Some student ->
  export_cells student = Some cells ->
  Exists (In (ch ",")) cells ->
  exists table,
    studentsDownload_handler svc db = (db, Answered (csv_response (csv_body table)))
    /\ nth_error table i = Some cells
    /\ nth_error (JS.split 10 (csv_body table)) (S i) = Some (JS.join comma cells)
    /\ 3 < List.length (JS.split (ch ",") (JS.join comma cells))
    /\ map (JS.split (ch ",")) (JS.split 10 (csv_body table))
       <> FIELD_NAMES :: table ++ [[[]]].
Proof.
  intros Hall Hclean Hi E Hex.
  destruct (export_table_lines students Hclean) as (table & Et & Ht).
  assert (Hc : nth_error table i = Some cells).
  { destruct (all_some_nth _ _ i (Some cells) Et) as (x & [= <-] & Hx); [| exact Hx].
    rewrite nth_error_map, Hi. cbn [option_map]. now rewrite E. }
  assert (Hne : table <> []) by (intros ->; destruct i; discriminate Hc).
  assert (Hline : nth_error (JS.split 10 (csv_body table)) (S i) = Some (JS.join comma cells)).
  { rewrite (csv_body_lines table Hne Ht). cbn [nth_error].
    rewrite nth_error_app1 by (rewrite length_map; apply nth_error_Some; congruence).
    now rewrite nth_error_map, Hc. }
  assert (Hmore : 3 < List.length (JS.split (ch ",") (JS.join comma cells))).
  { assert (Hlen : List.length cells = 3).
    { apply all_some_length in E. now rewrite E. }
    unfold comma. change (js ",") with [ch ","].
    rewrite split_join_length by (destruct cells; [discriminate Hlen | discriminate]).
    rewrite Hlen. apply occurrences_exists in Hex. lia. }
  exists table. repeat split; try assumption.
  - unfold studentsDownload_handler. now rewrite Hall, Et.
  - intros Heq.
    assert (Hn : nth_error (map (JS.split (ch ",")) (JS.split 10 (csv_body table))) (S i)
                 = Some cells).
    { rewrite Heq. cbn [nth_error].
      rewrite nth_error_app1 by (apply nth_error_Some; congruence). exact Hc. }
    rewrite nth_error_map, Hline in Hn. cbn [option_map] in Hn.
    injection Hn as Hn. apply (f_equal (@List.length _)) in Hn.
    apply all_some_length in E. rewrite E, length_map in Hn.
    change (List.length FIELD_NAMES) with 3 in Hn.
    change (ch ",") with 44%N in Hmore. rewrite Hn in Hmore. lia.
Qed.

Lemma comma_in_a_cell_adds_a_column_witness :
  exists table,
    studentsDownload_handler Toy.services [Toy.Student 3 (js "Potter, Harry") (js "Gryffindor")]
    = ([Toy.Student 3 (js "Potter, Harry") (js "Gryffindor")],
       Answered (csv_response (csv_body table)))
    /\ nth_error table 0 = Some [js "3"; js "Potter, Harry"; js "Gryffindor"]
    /\ nth_error (JS.split 10 (csv_body table)) 1
       = Some (JS.join comma [js "3"; js "Potter, Harry"; js "Gryffindor"])
    /\ 3 < List.length (JS.split (ch ",")
                          (JS.join comma [js "3"; js "Potter, Harry"; js "Gryffindor"]))
    /\ map (JS.split (ch ",")) (JS.split 10 (csv_body table))
       <> FIELD_NAMES :: table ++ [[[]]].
Proof.
  apply (comma_in_a_cell_adds_a_column
           Toy.services [Toy.Student 3 (js "Potter, Harry") (js "Gryffindor")]
           [Toy.student_row (Toy.Student 3 (js "Potter, Harry") (js "Gryffindor"))]
           0
           (Toy.student_row (Toy.Student 3 (js "Potter, Harry") (js "Gryffindor")))
           [js "3"; js "Potter, Harry"; js "Gryffindor"]).
  - reflexivity.
  - repeat constructor.
  - reflexivity.
  - reflexivity.
  - apply Exists_cons_tl, Exists_cons_hd.
    vm_compute. repeat (first [left; reflexivity | right]).
Defined.

(** ** The [select] helper *)


(** A text without pattern syntax is the pattern of its characters. *)
Lemma RegExp_new_plain t :
  plain t = true -> RegExp_new t = Compiled (chain (map Char t)).
Proof.
  intros Ht. unfold RegExp_new. rewrite <- (app_nil_r t) at 1.
  rewrite parse_plain by (assumption || reflexivity).
  unfold initial. rewrite add_chars_eq.
  change (parse [] ?st) with (finish st).
  unfold finish; cbn [p_mode p_cur p_stack p_next p_alt].
  unfold frame_regex; cbn [f_alts f_seq fold_left].
  rewrite seq_of_chain, app_nil_r, rev_involutive, map_map. cbn [fst char_item].
  assert (G : groups_in (chain (map (fun x => Char x) t)) = []).
  { rewrite <- (app_nil_r (map _ t)). now rewrite groups_in_chars. }
  rewrite G. reflexivity.
Qed.

(** The search for a literal text stops at its first occurrence. *)
Lemma exec_from_chars t s i start :
  exec_from (chain (map Char t)) s i start
  = if startsWith s t then Some (MatchResult i t [] [])
    else match s with
         | [] => None
         | _ :: s' => exec_from (chain (map Char t)) s' (S i) false
         end.
Proof.
  destruct (startsWith s t) eqn:E.
  - apply startsWith_split in E.
    rewrite (exec_from_hit _ _ i start (MState (skipn (List.length t) s) (after t start) [])).
    + cbn [rest caps].
      assert (G : groups_in (chain (map Char t)) = []).
      { rewrite <- (app_nil_r (map _ t)). now rewrite groups_in_chars. }
      rewrite G. cbn [named_groups]. do 2 f_equal.
      rewrite E at 1 3. now rewrite firstn_minus_app.
    + rewrite E at 1. rewrite <- (app_nil_r (map Char t)). rewrite m_chars. reflexivity.
  - rewrite <- (app_nil_r (map Char t)).
    destruct s as [| c s]; cbn [exec_from]; now rewrite m_chars_mismatch.
Qed.

Lemma replace_chars t e s i start :
  match exec_from (chain (map Char t)) s i start with
  | None => replace_str t (t ++ e) s = s
  | Some mr =>
      matched mr = t /\ i <= RegExp.index mr
      /\ replace_str t (t ++ e) s
         = firstn (RegExp.index mr - i) s ++ t ++ e
             ++ skipn (RegExp.index mr - i + List.length t) s
  end.
Proof.
  revert i start; induction s as [| c s IH]; intros i start; rewrite exec_from_chars.
  - destruct (startsWith [] t) eqn:E.
    + cbn [matched RegExp.index]. repeat split; [lia |].
      rewrite Nat.sub_diag. cbn [firstn app Nat.add replace_str]. now rewrite E, app_assoc.
    + cbn [replace_str]. now rewrite E.
  - destruct (startsWith (c :: s) t) eqn:E.
    + cbn [matched RegExp.index]. repeat split; [lia |].
      rewrite Nat.sub_diag. cbn [firstn app Nat.add replace_str]. now rewrite E, app_assoc.
    + specialize (IH (S i) false). cbn [replace_str]. rewrite E.
      destruct (exec_from (chain (map Char t)) s (S i) false) as [mr |].
      * destruct IH as (Hm & Hi & IH). repeat split; [assumption | lia |].
        rewrite IH. replace (RegExp.index mr - i) with (S (RegExp.index mr - S i)) by lia.
        reflexivity.
      * now rewrite IH.
Qed.

Lemma option_value_plain selected :
  plain selected = true -> plain (option_value selected) = true.
Proof.
  intros H. unfold plain, option_value in *.
  rewrite forallb_app. cbn [forallb]. rewrite forallb_app, H. reflexivity.
Qed.

(** X29.  For a value without pattern syntax the helper is a plain text
    replacement: the first occurrence of [ value="<selected>"] in the
    rendered block is followed by [ selected="selected"], nothing else is
    changed, and a block without that text comes back as it is. *)
Theorem select_marks_first_option (selected inner : jsstring) :
  plain selected = true ->
  select selected inner
  = Rendered (replace_str (option_value selected)
                (option_value selected ++ selected_attribute) inner).
Proof.
  intros H. unfold select.
  rewrite RegExp_new_plain by now apply option_value_plain.
  unfold RegExp.replace.
  assert (G : groups_in (chain (map Char (option_value selected))) = []).
  { rewrite <- (app_nil_r (map _ _)). now rewrite groups_in_chars. }
  rewrite G. cbn [group_names List.length]. f_equal. unfold exec.
  pose proof (replace_chars (option_value selected) selected_attribute inner 0 true) as R.
  destruct (exec_from (chain (map Char (option_value selected))) inner 0 true) as [mr |].
  - destruct R as (Hm & _ & R). rewrite R, Nat.sub_0_r, Hm.
    change (GetSubstitution mr inner 0 selected_mark)
      with (matched mr ++ selected_attribute).
    now rewrite Hm, <- app_assoc.
  - now rewrite R.
Qed.

Lemma select_marks_first_option_witness :
  select (js "Slytherin")
         (js "<option value=" ++ quote :: js "Gryffindor" ++ quote :: js ">"
            ++ js "<option value=" ++ quote :: js "Slytherin" ++ quote :: js ">")
  = Rendered (js "<option value=" ++ quote :: js "Gryffindor" ++ quote :: js ">"
                ++ js "<option value=" ++ quote :: js "Slytherin" ++ quote
                :: js " selected=" ++ quote :: js "selected" ++ quote :: js ">").
Proof.
  apply (select_marks_first_option (js "Slytherin")
           (js "<option value=" ++ quote :: js "Gryffindor" ++ quote :: js ">"
              ++ js "<option value=" ++ quote :: js "Slytherin" ++ quote :: js ">")).
  reflexivity.
Defined.

Lemma plain_not_question q : is_syntax_char q = false -> N.eqb q (ch "?") = false.
Proof.
  intros H. destruct (N.eqb q (ch "?")) eqn:E; [| reflexivity].
  apply N.eqb_eq in E. subst q. discriminate H.
Qed.

Lemma parse_open_capture q s cur stack next alt :
  N.eqb q (ch "?") = false ->
  parse (ch "(" :: q :: s) (PState MNormal cur stack next alt)
  = parse (q :: s) (PState MNormal (Frame (GCapture (S next) None) [] [])
                      (cur :: stack) (S next) alt).
Proof.
  intros H. remember (q :: s) as s1 eqn:E.
  cbn [parse p_mode]. change (N.eqb (ch "(") (ch "(")) with true. cbv match.
  destruct s1 as [| q' s2]; [discriminate E |]. injection E as -> ->.
  rewrite H. reflexivity.
Qed.

(** X30.  The helper does not escape the value it puts into the pattern: a
    value with an opening parenthesis and otherwise no pattern syntax makes
    [new RegExp] throw, whatever the block, so that the page is not
    rendered. *)
Theorem select_throws_on_open_parenthesis (pre post inner : jsstring) :
  plain pre = true -> plain post = true ->
  select (pre ++ js "(" ++ post) inner = HelperThrew.
Proof.
  intros Hpre Hpost. unfold select, RegExp_new, option_value.
  replace (js " value=" ++ quote :: (pre ++ js "(" ++ post) ++ [quote])
    with ((js " value=" ++ quote :: pre) ++ ch "(" :: (post ++ [quote]))
    by (rewrite <- !app_assoc; reflexivity).
  assert (HA : plain (js " value=" ++ quote :: pre) = true).
  { unfold plain in *. rewrite forallb_app. cbn [forallb]. now rewrite Hpre. }
  assert (HB : plain (post ++ [quote]) = true).
  { unfold plain in *. rewrite forallb_app, Hpost. reflexivity. }
  rewrite parse_plain by (assumption || reflexivity).
  unfold initial. rewrite add_chars_eq.
  destruct (post ++ [quote]) as [| q B] eqn:EB; [destruct post; discriminate EB |].
  assert (Hq : N.eqb q (ch "?") = false).
  { apply plain_not_question. unfold plain in HB. cbn [forallb] in HB.
    apply andb_true_iff in HB as [HB _]. now apply negb_true_iff in HB. }
  rewrite parse_open_capture by assumption.
  rewrite <- (app_nil_r (q :: B)), parse_plain by (assumption || reflexivity).
  rewrite add_chars_eq. reflexivity.
Qed.

Lemma select_throws_on_open_parenthesis_witness :
  select (js "Beauxbatons (France") (js "<option>") = HelperThrew.
Proof.
  apply (select_throws_on_open_parenthesis (js "Beauxbatons ") (js "France") (js "<option>"));
    reflexivity.
Defined.
